(** * Marin's Room: the real-time chat coordination core

    A shallow embedding of the WebSocket chat server
    (apps/api/src/websocket: [setupWebSocket], [handleMessage],
    [handleJoinSession], [handleSendMessage], [leaveSession],
    [broadcastToSession], [sendError]), of the sliding-window rate limiter
    ([checkRateLimit] in lib/redis.ts) and of the response generator client
    ([getAIResponse] in lib/ai.ts).

    The two module-level maps of the server ([clients], [sessionClients]),
    the two database tables reached through Prisma, the Redis sorted sets and
    the transport state of every socket are the fields of one [World]; each
    handler is a computation in a state-and-exception monad over it.  What a
    handler sends, broadcasts or fetches is appended to the [trace] of the
    world, in program order.

    Every handler is modelled as running from its first statement to its
    last without another event being delivered in between: the suspension
    points ([await]) of the source are not interleaving points here.

    The HTTP routes of the chat (routes/chat.ts) and their middleware
    ([rateLimit], [requireAdmin], [validateBody], [validateParams]) are
    computations in the same monad over the same world: they share the two
    tables and the Redis store with the WebSocket server. *)

From Stdlib Require Import ZArith String Ascii List Lia Bool Sorted.
From stdpp Require Import base option list gmap strings pretty.

Local Open Scope Z_scope.

(** ** Data model *)

(** A [WebSocket] object is identified by the order in which the server
    accepted it. *)
Abbreviation WsId := nat.

Inductive ReadyState := RS_CONNECTING | RS_OPEN | RS_CLOSING | RS_CLOSED.

Inductive ChatSessionStatus := ACTIVE | CLOSED.

Inductive MessageRole := USER | ASSISTANT | SYSTEM.

(** The rows of the two tables.  The [metadata] column of a session is
    never read or written by the code embedded here and is left out. *)
Record ChatSession := mkChatSession {
  cs_id : string;
  visitorId : string;
  visitorName : option string;
  status : ChatSessionStatus;
  cs_createdAt : Z;
  updatedAt : Z
}.

(** [cm_id], [cm_sessionId] are the columns [id] and [sessionId] of a
    message, [cs_id], [cs_createdAt] the columns [id] and [createdAt] of a
    session. *)
Record ChatMessage := mkChatMessage {
  cm_id : string;
  cm_sessionId : string;
  role : MessageRole;
  content : string;
  createdAt : Z
}.

(** [interface ClientState]; the [ws] field is the key under which the
    record is stored in [clients]. *)
Record ClientState := mkClientState {
  sessionId : option string;
  isAdmin : bool;
  ip : string
}.

#[global] Instance ReadyState_eq_dec : EqDecision ReadyState.
Proof. solve_decision. Defined.
#[global] Instance ChatSessionStatus_eq_dec : EqDecision ChatSessionStatus.
Proof. solve_decision. Defined.
#[global] Instance MessageRole_eq_dec : EqDecision MessageRole.
Proof. solve_decision. Defined.
#[global] Instance ChatSession_eq_dec : EqDecision ChatSession.
Proof. solve_decision. Defined.
#[global] Instance ChatMessage_eq_dec : EqDecision ChatMessage.
Proof. solve_decision. Defined.
#[global] Instance ClientState_eq_dec : EqDecision ClientState.
Proof. solve_decision. Defined.

(** Server-to-client envelopes [{type, payload}]. *)
Inductive WsMessage :=
| SESSION_JOINED (session : ChatSession) (messages : list ChatMessage)
| MESSAGE_RECEIVED (message : ChatMessage)
| AI_RESPONSE (message : ChatMessage)
| TYPING_START (typingIsAdmin : bool)
| TYPING_STOP (typingIsAdmin : bool)
| ERROR (code : string) (message : string).

#[global] Instance WsMessage_eq_dec : EqDecision WsMessage.
Proof. solve_decision. Defined.

Set Warnings "-register-all".

(** The value [JSON.parse] returns.  An object is the list of its own
    properties; [jsonGet] reads the first binding of a name. *)
Inductive Json :=
| JNull
| JBool (b : bool)
| JNum (n : Z)
| JStr (s : string)
| JArr (items : list Json)
| JObj (fields : list (string * Json)).

Fixpoint jsonGet (name : string) (fields : list (string * Json)) : option Json :=
  match fields with
  | [] => None
  | (k, v) :: rest => if decide (k = name) then Some v else jsonGet name rest
  end.

(** Messages handed to the response generator. *)
Inductive AIRole := ai_system | ai_user | ai_assistant.

Record AIChatMessage := mkAIChatMessage {
  ai_role : AIRole;
  ai_content : string
}.

#[global] Instance AIRole_eq_dec : EqDecision AIRole.
Proof. solve_decision. Defined.
#[global] Instance AIChatMessage_eq_dec : EqDecision AIChatMessage.
Proof. solve_decision. Defined.

(** What the server does to the outside, in program order. *)
Inductive Event :=
| EvSend (ws : WsId) (m : WsMessage)
    (* ws.send(JSON.stringify(m)) *)
| EvBroadcast (session : string) (m : WsMessage) (exclude : option WsId)
    (* a call of broadcastToSession *)
| EvFetch (messages : list AIChatMessage).
    (* the POST to the completion endpoint made by getAIResponse *)

#[global] Instance Event_eq_dec : EqDecision Event.
Proof. solve_decision. Defined.

(** A Redis sorted set maps each member to its score; the member written by
    [checkRateLimit] is the pair of the timestamp and the random suffix of
    the template string.  [expireAt] is the deadline set by EXPIRE. *)
Definition Member : Type := Z * string.

Record RedisKey := mkRedisKey {
  zset : gmap Member Z;
  expireAt : Z
}.

Record World := mkWorld {
  clients : gmap WsId ClientState;
  sessionClients : gmap string (list WsId);
  readyState : gmap WsId ReadyState;
  nextWs : WsId;
  chatSession : gmap string ChatSession;
  chatMessage : list ChatMessage;
  redis : gmap string RedisKey;
  trace : list Event
}.

Definition set_clients (f : gmap WsId ClientState -> gmap WsId ClientState) (w : World) : World :=
  mkWorld (f (clients w)) (sessionClients w) (readyState w) (nextWs w)
          (chatSession w) (chatMessage w) (redis w) (trace w).

Definition set_sessionClients (f : gmap string (list WsId) -> gmap string (list WsId)) (w : World) : World :=
  mkWorld (clients w) (f (sessionClients w)) (readyState w) (nextWs w)
          (chatSession w) (chatMessage w) (redis w) (trace w).

Definition set_chatSession (f : gmap string ChatSession -> gmap string ChatSession) (w : World) : World :=
  mkWorld (clients w) (sessionClients w) (readyState w) (nextWs w)
          (f (chatSession w)) (chatMessage w) (redis w) (trace w).

Definition set_chatMessage (f : list ChatMessage -> list ChatMessage) (w : World) : World :=
  mkWorld (clients w) (sessionClients w) (readyState w) (nextWs w)
          (chatSession w) (f (chatMessage w)) (redis w) (trace w).

Definition set_redis (f : gmap string RedisKey -> gmap string RedisKey) (w : World) : World :=
  mkWorld (clients w) (sessionClients w) (readyState w) (nextWs w)
          (chatSession w) (chatMessage w) (f (redis w)) (trace w).

Definition set_trace (f : list Event -> list Event) (w : World) : World :=
  mkWorld (clients w) (sessionClients w) (readyState w) (nextWs w)
          (chatSession w) (chatMessage w) (redis w) (f (trace w)).

(** ** The monad of handlers: state and exceptions *)

Inductive Outcome (A : Type) :=
| Done (a : A)
| Thrown.
Arguments Done {A} a.
Arguments Thrown {A}.

Definition M (A : Type) : Type := World -> Outcome A * World.

Definition ret {A} (a : A) : M A := fun w => (Done a, w).

Definition bind {A B} (m : M A) (k : A -> M B) : M B :=
  fun w => match m w with
           | (Done a, w') => k a w'
           | (Thrown, w') => (Thrown, w')
           end.

Definition throw {A} : M A := fun w => (Thrown, w).

Definition get : M World := fun w => (Done w, w).

Definition modify (f : World -> World) : M unit := fun w => (Done tt, f w).

Definition emit (evs : list Event) : M unit :=
  modify (set_trace (fun t => t ++ evs)).

(** [try { m } catch { h }] *)
Definition tryCatch {A} (m : M A) (h : M A) : M A :=
  fun w => match m w with
           | (Done a, w') => (Done a, w')
           | (Thrown, w') => h w'
           end.

Notation "'let*' x ':=' m 'in' k" := (bind m (fun x => k))
  (at level 10, x name, m at level 100, k at level 200).
Notation "m '>>' k" := (bind m (fun _ => k))
  (at level 100, k at level 200, right associativity).

Definition exec {A} (m : M A) (w : World) : World := snd (m w).

(** ** Connection registry (websocket/index.ts) *)

(** A JavaScript [Set] keeps insertion order and holds no element twice. *)
Definition setAdd (ws : WsId) (members : list WsId) : list WsId :=
  if decide (ws ∈ members) then members else members ++ [ws].

Definition setDelete (ws : WsId) (members : list WsId) : list WsId :=
  filter (fun x => x ≠ ws) members.

Definition isOpen (w : World) (ws : WsId) : bool :=
  bool_decide (readyState w !! ws = Some RS_OPEN).

Definition leaveSession (ws : WsId) (sid : string) : M unit :=
  let* w := get in
  match sessionClients w !! sid with
  | Some members =>
      let members' := setDelete ws members in
      if decide (length members' = 0%nat)
      then modify (set_sessionClients (delete sid))
      else modify (set_sessionClients (<[sid := members']>))
  | None => ret tt
  end.

(** The sockets [clients.forEach] sends to. *)
Definition recipients (w : World) (sid : string) (exclude : option WsId) : list WsId :=
  match sessionClients w !! sid with
  | Some members =>
      filter (fun c => Some c ≠ exclude ∧ isOpen w c = true) members
  | None => []
  end.

Definition broadcastToSession (sid : string) (message : WsMessage)
    (exclude : option WsId) : M unit :=
  let* w := get in
  emit (EvBroadcast sid message exclude
        :: map (fun c => EvSend c message) (recipients w sid exclude)).

Definition sendError (ws : WsId) (code message : string) : M unit :=
  let* w := get in
  if isOpen w ws then emit [EvSend ws (ERROR code message)] else ret tt.

(** ** Session directory (Prisma) *)

(** The database calls a handler makes, in the order of the source. *)
Inductive DbCall :=
| JoinFindSession | JoinFindMessages
| SendFindSession | SendCreateMessage | SendFindHistory
| SendCreateAIMessage | SendUpdateSession.

(** [orderBy: { createdAt: "asc" }]: rows of equal [createdAt] stay in
    the order of their insertion. *)
Fixpoint insertByCreatedAt (m : ChatMessage) (rows : list ChatMessage) : list ChatMessage :=
  match rows with
  | [] => [m]
  | x :: rest =>
      if createdAt m <? createdAt x then m :: x :: rest
      else x :: insertByCreatedAt m rest
  end.

Definition orderByCreatedAtAsc (rows : list ChatMessage) : list ChatMessage :=
  foldl (fun acc m => insertByCreatedAt m acc) [] rows.

(** [prisma.chatMessage.findMany({ where: { sessionId }, orderBy, take })]:
    [take: n] keeps the first [n] rows of the ordered result. *)
Definition findManyMessages (sid : string) (limit : option nat)
    (table : list ChatMessage) : list ChatMessage :=
  let rows := orderByCreatedAtAsc (filter (fun m => cm_sessionId m = sid) table) in
  match limit with
  | Some n => take n rows
  | None => rows
  end.

(** ** Rate limiter (lib/redis.ts) *)

Record RateLimitResult := mkRateLimitResult {
  allowed : bool;
  remaining : Z;
  resetIn : Z
}.

Definition zsetOf (store : gmap string RedisKey) (key : string) : gmap Member Z :=
  match store !! key with
  | Some k => zset k
  | None => ∅
  end.

(** ZREMRANGEBYSCORE key -inf max: drops the members whose score is at most
    [max]. *)
Definition zremrangebyscore (max : Z) (s : gmap Member Z) : gmap Member Z :=
  filter (fun e => max < e.2) s.

(** The four commands of the transaction, applied to one key. *)
Definition rateLimitTransaction (now : Z) (random : string) (windowSeconds : Z)
    (s : gmap Member Z) : Z * RedisKey :=
  let windowStart := now - windowSeconds * 1000 in
  let kept := zremrangebyscore windowStart s in
  let count := Z.of_nat (size kept) in
  (count, mkRedisKey (<[(now, random) := now]> kept) (now + windowSeconds * 1000)).

(** [execFails]: [multi.exec()] rejects, or resolves to [null] and the
    function throws itself.  Otherwise every command of the transaction
    succeeds on the key, which only this function writes. *)
Definition checkRateLimit (key : string) (limit windowSeconds : Z)
    (now : Z) (random : string) (execFails : bool) : M RateLimitResult :=
  let redisKey := "ratelimit:" +:+ key in
  if execFails then throw
  else
    let* w := get in
    let '(count, k) :=
      rateLimitTransaction now random windowSeconds (zsetOf (redis w) redisKey) in
    modify (set_redis (<[redisKey := k]>)) >>
    ret (mkRateLimitResult (count <? limit) (Z.max 0 (limit - count - 1)) windowSeconds).

(** ** What the environment decides during one handler run *)

(** The outcome of the [fetch] in [getAIResponse]. *)
Inductive FetchOutcome :=
| FetchRejected                        (* fetch() rejects *)
| FetchNotOk (body : string)           (* !response.ok *)
| FetchBadJson                         (* response.json() rejects *)
| FetchJson (text : option string).    (* data.choices?.[0]?.message?.content *)

Record Env := mkEnv {
  e_now : Z;                      (* Date.now() in checkRateLimit *)
  e_random : string;              (* Math.random() in the member name *)
  e_redisFails : bool;            (* multi.exec() rejects or yields null *)
  e_dbFails : DbCall -> bool;     (* the Prisma call rejects *)
  e_messageId : string;           (* column defaults of the sender's row *)
  e_messageCreatedAt : Z;
  e_aiMessageId : string;         (* column defaults of the reply's row *)
  e_aiMessageCreatedAt : Z;
  e_fetch : FetchOutcome;
  e_updatedAt : Z                 (* new Date() *)
}.

Definition dbCall (env : Env) (c : DbCall) : M unit :=
  if e_dbFails env c then throw else ret tt.

Definition findUniqueSession (env : Env) (c : DbCall) (id : string) : M (option ChatSession) :=
  dbCall env c >>
  let* w := get in
  ret (chatSession w !! id).

Definition findMany (env : Env) (c : DbCall) (sid : string) (limit : option nat)
    : M (list ChatMessage) :=
  dbCall env c >>
  let* w := get in
  ret (findManyMessages sid limit (chatMessage w)).

Definition createMessage (env : Env) (c : DbCall) (row : ChatMessage) : M ChatMessage :=
  dbCall env c >>
  modify (set_chatMessage (fun table => table ++ [row])) >>
  ret row.

Definition withUpdatedAt (t : Z) (s : ChatSession) : ChatSession :=
  mkChatSession (cs_id s) (visitorId s) (visitorName s) (status s) (cs_createdAt s) t.

(** [prisma.chatSession.update] rejects when no row has the id. *)
Definition updateSession (env : Env) (c : DbCall) (id : string) (t : Z) : M unit :=
  dbCall env c >>
  let* w := get in
  match chatSession w !! id with
  | Some s => modify (set_chatSession (<[id := withUpdatedAt t s]>))
  | None => throw
  end.

(** A [string] holds the UTF-8 bytes of a JavaScript string, as they come
    in a frame or a request body.  [s.length], which zod's [min] and [max]
    test, counts UTF-16 code units: one for every character of one, two or
    three bytes, two for a character of four bytes.  A continuation byte
    (10xxxxxx) starts no character. *)
Definition codeUnits (c : ascii) : nat :=
  let n := nat_of_ascii c in
  if (n <? 128)%nat then 1%nat
  else if (n <? 192)%nat then 0%nat
  else if (n <? 240)%nat then 1%nat
  else 2%nat.

Fixpoint utf16Length (s : string) : nat :=
  match s with
  | EmptyString => 0%nat
  | String c rest => (codeUnits c + utf16Length rest)%nat
  end.

(** JavaScript truthiness of a [string | null | undefined]. *)
Definition truthy (s : option string) : bool :=
  match s with
  | Some s => negb (String.eqb s "")
  | None => false
  end.

Definition toLowerCase (r : MessageRole) : AIRole :=
  match r with
  | USER => ai_user
  | ASSISTANT => ai_assistant
  | SYSTEM => ai_system
  end.

Definition setSessionId (ws : WsId) (v : option string) : M unit :=
  modify (set_clients (alter (fun st => mkClientState v (isAdmin st) (ip st)) ws)).

Definition setIsAdmin (ws : WsId) (v : bool) : M unit :=
  modify (set_clients (alter (fun st => mkClientState (sessionId st) v (ip st)) ws)).

(** ** The handlers *)

(** What the handlers take from outside the files embedded here:
    [env.ADMIN_API_KEY] (config/env.ts), the text of the [SYSTEM_PROMPT]
    constant of lib/ai.ts, zod's test behind [z.string().uuid()] and the
    digits JavaScript writes a number with ([Number.prototype.toString]). *)
Class Config := mkConfig {
  ADMIN_API_KEY : string;
  SYSTEM_PROMPT : string;
  isUuid : string -> bool;
  numberToString : Z -> string
}.

Section Server.

Context {cfg : Config}.

(** *** Payload schemas (packages/shared) *)

Record WsJoinSessionData := mkWsJoinSessionData {
  j_sessionId : string;
  j_isAdmin : option bool;
  j_adminKey : option string
}.

(** [z.boolean().optional()] and [z.string().optional()] accept a missing
    property and a value of the type, nothing else. *)
Definition optionalBoolean (v : option Json) : option (option bool) :=
  match v with
  | None => Some None
  | Some (JBool b) => Some (Some b)
  | Some _ => None
  end.

Definition optionalString (v : option Json) : option (option string) :=
  match v with
  | None => Some None
  | Some (JStr s) => Some (Some s)
  | Some _ => None
  end.

Definition WsJoinSessionSchema_safeParse (payload : option Json) : option WsJoinSessionData :=
  match payload with
  | Some (JObj fields) =>
      match jsonGet "sessionId" fields with
      | Some (JStr s) =>
          if isUuid s then
            match optionalBoolean (jsonGet "isAdmin" fields),
                  optionalString (jsonGet "adminKey" fields) with
            | Some a, Some k => Some (mkWsJoinSessionData s a k)
            | _, _ => None
            end
          else None
      | _ => None
      end
  | _ => None
  end.

(** [content: z.string().min(1).max(4000)] *)
Definition WsSendMessageSchema_safeParse (payload : option Json) : option string :=
  match payload with
  | Some (JObj fields) =>
      match jsonGet "content" fields with
      | Some (JStr s) =>
          if (1 <=? utf16Length s)%nat && (utf16Length s <=? 4000)%nat
          then Some s else None
      | _ => None
      end
  | _ => None
  end.

(** *** lib/ai.ts *)

Record AIResponse := mkAIResponse {
  aiContent : string;
  aiError : option string
}.

Definition getAIResponse (messages : list AIChatMessage) (outcome : FetchOutcome)
    : M AIResponse :=
  tryCatch
    (emit [EvFetch (mkAIChatMessage ai_system SYSTEM_PROMPT :: messages)] >>
     match outcome with
     | FetchRejected => throw
     | FetchNotOk _ => ret (mkAIResponse "" (Some "Failed to get AI response"))
     | FetchBadJson => throw
     | FetchJson text =>
         if truthy text
         then ret (mkAIResponse (default "" text) None)
         else ret (mkAIResponse "" (Some "Empty AI response"))
     end)
    (ret (mkAIResponse "" (Some "AI service unavailable"))).

(** *** websocket/index.ts *)

(** In the handlers [state] is the record stored under [ws] in [clients]:
    reads use the record [handleMessage] found, assignments update the
    stored record.  No handler reads a field after assigning it. *)

(** [handleJoinSession] from "Verify session exists" to its end. *)
Definition joinVerified (ws : WsId) (state : ClientState) (sid : string)
    (env : Env) : M unit :=
  let* session := findUniqueSession env JoinFindSession sid in
  match session with
  | None => sendError ws "SESSION_NOT_FOUND" "Chat session not found"
  | Some session =>
      (* Leave previous session if any *)
      (if truthy (sessionId state)
       then leaveSession ws (default "" (sessionId state))
       else ret tt) >>
      (* Join new session *)
      setSessionId ws (Some sid) >>
      modify (set_sessionClients
                (fun sc => <[sid := setAdd ws (default [] (sc !! sid))]> sc)) >>
      (* Send session history *)
      let* messages := findMany env JoinFindMessages sid None in
      emit [EvSend ws (SESSION_JOINED session messages)]
  end.

Definition handleJoinSession (ws : WsId) (state : ClientState)
    (payload : option Json) (env : Env) : M unit :=
  match WsJoinSessionSchema_safeParse payload with
  | None => sendError ws "VALIDATION_ERROR" "Invalid join session payload"
  | Some data =>
      (* Verify admin key if claiming admin *)
      if default false (j_isAdmin data) then
        if negb (truthy (j_adminKey data))
           || negb (bool_decide (j_adminKey data = Some ADMIN_API_KEY))
        then sendError ws "UNAUTHORIZED" "Invalid admin key"
        else setIsAdmin ws true >> joinVerified ws state (j_sessionId data) env
      else joinVerified ws state (j_sessionId data) env
  end.

(** The block of [handleSendMessage] under "If user message, get AI
    response". *)
Definition aiReply (sid : string) (env : Env) : M unit :=
  (* Get conversation history *)
  let* history := findMany env SendFindHistory sid (Some 20%nat) in
  (* Broadcast typing indicator *)
  broadcastToSession sid (TYPING_START false) None >>
  let* aiResult :=
    getAIResponse
      (map (fun m => mkAIChatMessage (toLowerCase (role m)) (content m)) history)
      (e_fetch env) in
  (* Stop typing indicator *)
  broadcastToSession sid (TYPING_STOP false) None >>
  if truthy (Some (aiContent aiResult)) then
    let* aiMessage :=
      createMessage env SendCreateAIMessage
        (mkChatMessage (e_aiMessageId env) sid ASSISTANT (aiContent aiResult)
                       (e_aiMessageCreatedAt env)) in
    broadcastToSession sid (AI_RESPONSE aiMessage) None
  else ret tt.

(** The row [handleSendMessage] writes for the sender. *)
Definition senderRow (state : ClientState) (sid text : string) (env : Env) : ChatMessage :=
  mkChatMessage (e_messageId env) sid
                (if isAdmin state then ASSISTANT else USER)
                (if isAdmin state then "[Marin]: " +:+ text else text)
                (e_messageCreatedAt env).

(** [handleSendMessage] from "Save message" to its end. *)
Definition saveMessage (state : ClientState) (sid text : string) (env : Env) : M unit :=
  let* message := createMessage env SendCreateMessage (senderRow state sid text env) in
  (* Broadcast to all clients in session *)
  broadcastToSession sid (MESSAGE_RECEIVED message) None >>
  (* If user message, get AI response *)
  (if negb (isAdmin state) then aiReply sid env else ret tt) >>
  (* Update session timestamp *)
  updateSession env SendUpdateSession sid (e_updatedAt env).

Definition handleSendMessage (ws : WsId) (state : ClientState)
    (payload : option Json) (env : Env) : M unit :=
  if negb (truthy (sessionId state)) then
    sendError ws "NOT_IN_SESSION" "You must join a session first"
  else
    let sid := default "" (sessionId state) in
    match WsSendMessageSchema_safeParse payload with
    | None => sendError ws "VALIDATION_ERROR" "Invalid message payload"
    | Some text =>
        (* Rate limit *)
        let rateKey := "ws-message:" +:+ ip state in
        let* rateResult :=
          checkRateLimit rateKey 30 60 (e_now env) (e_random env) (e_redisFails env) in
        if negb (allowed rateResult) then
          sendError ws "RATE_LIMITED" "Too many messages. Please slow down."
        else
          (* Verify session is still active *)
          let* session := findUniqueSession env SendFindSession sid in
          if negb (bool_decide (status <$> session = Some ACTIVE)) then
            sendError ws "SESSION_CLOSED" "This session has been closed"
          else saveMessage state sid text env
    end.

(** [message.type] and [message.payload]: reading a property of [null]
    throws, of any other non-object gives [undefined]. *)
Definition property (name : string) (message : Json) : M (option Json) :=
  match message with
  | JNull => throw
  | JObj fields => ret (jsonGet name fields)
  | _ => ret None
  end.

(** [ToString] of a parsed value, [None] when it throws a TypeError.  An
    array is joined with commas, [null] elements giving the empty string;
    an object is converted by the [toString] it has: the inherited one
    answers "[object Object]", an own property of that name is no function
    (nothing [JSON.parse] returns is), and so is an own [valueOf] or the
    object the inherited [valueOf] returns: the conversion throws. *)
Fixpoint toString (v : Json) : option string :=
  match v with
  | JNull => Some "null"
  | JBool b => Some (if b then "true" else "false")
  | JNum n => Some (numberToString n)
  | JStr s => Some s
  | JArr items =>
      String.concat ","
        <$> mapM (fun x => match x with JNull => Some "" | _ => toString x end) items
  | JObj fields =>
      match jsonGet "toString" fields with
      | Some _ => None
      | None => Some "[object Object]"
      end
  end.

(** [`${message.type}`] *)
Definition templateString (type : option Json) : option string :=
  match type with
  | None => Some "undefined"
  | Some v => toString v
  end.

Definition handleMessage (ws : WsId) (message : Json) (env : Env) : M unit :=
  let* w := get in
  match clients w !! ws with
  | None => ret tt
  | Some state =>
      let* type := property "type" message in
      let unknown :=
        match templateString type with
        | Some text =>
            sendError ws "UNKNOWN_MESSAGE_TYPE" ("Unknown message type: " +:+ text)
        | None => throw
        end in
      match type with
      | Some (JStr t) =>
          if decide (t = "JOIN_SESSION") then
            let* payload := property "payload" message in
            handleJoinSession ws state payload env
          else if decide (t = "LEAVE_SESSION") then
            if truthy (sessionId state) then
              leaveSession ws (default "" (sessionId state)) >>
              setSessionId ws None
            else ret tt
          else if decide (t = "SEND_MESSAGE") then
            let* payload := property "payload" message in
            handleSendMessage ws state payload env
          else if decide (t = "TYPING_START") then
            if truthy (sessionId state) then
              broadcastToSession (default "" (sessionId state))
                                 (TYPING_START (isAdmin state)) (Some ws)
            else ret tt
          else if decide (t = "TYPING_STOP") then
            if truthy (sessionId state) then
              broadcastToSession (default "" (sessionId state))
                                 (TYPING_STOP (isAdmin state)) (Some ws)
            else ret tt
          else unknown
      | _ => unknown
      end
  end.

(** [split(",")[0]] *)
Fixpoint firstSegment (s : string) : string :=
  match s with
  | EmptyString => EmptyString
  | String c rest =>
      if Ascii.eqb c ","%char then EmptyString else String c (firstSegment rest)
  end.

Definition clientIp (xForwardedFor remoteAddress : option string) : string :=
  let forwarded := firstSegment <$> xForwardedFor in
  if truthy forwarded then default "" forwarded
  else if truthy remoteAddress then default "" remoteAddress
  else "unknown".

(** [wss.on("connection")]: the server is handed a new socket, open. *)
Definition onConnection (xForwardedFor remoteAddress : option string) : M WsId :=
  let* w := get in
  let ws := nextWs w in
  modify (fun w => mkWorld (<[ws := mkClientState None false
                                     (clientIp xForwardedFor remoteAddress)]> (clients w))
                           (sessionClients w)
                           (<[ws := RS_OPEN]> (readyState w))
                           (S ws)
                           (chatSession w) (chatMessage w) (redis w) (trace w)) >>
  ret ws.

(** [ws.on("message")]: [data] is [None] when [JSON.parse] throws. *)
Definition onMessage (ws : WsId) (data : option Json) (env : Env) : M unit :=
  tryCatch
    (match data with
     | None => throw
     | Some message => handleMessage ws message env
     end)
    (sendError ws "INVALID_MESSAGE" "Failed to process message").

(** [ws.on("close")] *)
Definition onClose (ws : WsId) : M unit :=
  let* w := get in
  (match clients w !! ws with
   | Some state =>
       if truthy (sessionId state)
       then leaveSession ws (default "" (sessionId state))
       else ret tt
   | None => ret tt
   end) >>
  modify (set_clients (delete ws)).

(** ** The server as a transition system *)

Definition initialWorld : World := mkWorld ∅ ∅ ∅ 0%nat ∅ [] ∅ [].

(** The events delivered to the server, and [Outside]: what the HTTP
    routes, Redis and the transports change between two events. *)
Inductive Op :=
| Connection (xForwardedFor remoteAddress : option string)
| Message (ws : WsId) (data : option Json) (env : Env)
| Close (ws : WsId)
| Outside (sessions : gmap string ChatSession) (messages : list ChatMessage)
          (store : gmap string RedisKey) (ready : gmap WsId ReadyState).

Definition step (w : World) (op : Op) : World :=
  match op with
  | Connection xff remote => exec (onConnection xff remote) w
  | Message ws data env =>
      exec (onMessage ws data env) w
  | Close ws =>
      exec (onClose ws)
           (mkWorld (clients w) (sessionClients w) (<[ws := RS_CLOSED]> (readyState w))
                    (nextWs w) (chatSession w) (chatMessage w) (redis w) (trace w))
  | Outside sessions messages store ready =>
      mkWorld (clients w) (sessionClients w) ready (nextWs w)
              sessions messages store (trace w)
  end.

Definition run (w : World) (ops : list Op) : World := foldl step w ops.

End Server.

(** The events a run appended to the trace. *)
Definition newEvents (before after : World) : list Event :=
  drop (length (trace before)) (trace after).

(** ** Vocabulary of the properties *)

(** The envelope [{type: t, payload}] as [JSON.parse] returns it. *)
Definition hasType (t : string) (message : Json) : Prop :=
  exists fields, message = JObj fields /\ jsonGet "type" fields = Some (JStr t).

Definition payloadOf (message : Json) : option Json :=
  match message with
  | JObj fields => jsonGet "payload" fields
  | _ => None
  end.

(** The attempts recorded under [key] that a check at [now] still counts:
    those whose score lies after [now - windowSeconds * 1000]. *)
Definition attemptsInWindow (store : gmap string RedisKey) (key : string)
    (now windowSeconds : Z) : Z :=
  Z.of_nat (size (filter (fun e : Member * Z => now - windowSeconds * 1000 < e.2)
                         (zsetOf store ("ratelimit:" +:+ key)))).

(** The events one call of [broadcastToSession] appends. *)
Definition broadcastEvents (w : World) (sid : string) (m : WsMessage)
    (exclude : option WsId) : list Event :=
  EvBroadcast sid m exclude :: map (fun c => EvSend c m) (recipients w sid exclude).

Definition isTypingMessage (m : WsMessage) : bool :=
  match m with
  | TYPING_START _ | TYPING_STOP _ => true
  | _ => false
  end.

Definition isBroadcast (ev : Event) : bool :=
  match ev with EvBroadcast _ _ _ => true | _ => false end.

Definition isFetch (ev : Event) : bool :=
  match ev with EvFetch _ => true | _ => false end.

(** A typing indicator, as a broadcast call or as a frame on a socket. *)
Definition isTyping (ev : Event) : bool :=
  match ev with
  | EvSend _ m | EvBroadcast _ m _ => isTypingMessage m
  | EvFetch _ => false
  end.

Definition isErrorWithCode (c : string) (ev : Event) : bool :=
  match ev with
  | EvSend _ (ERROR c' _) => String.eqb c' c
  | _ => false
  end.

(** The registry invariant: no membership set is empty, a socket in the
    set of a session is a registered client bound to that session, a bound
    session id is a non-empty string, and every registered socket was
    handed out by the server. *)
Record registryOk (w : World) : Prop := mkRegistryOk {
  no_empty_set : forall sid members,
    sessionClients w !! sid = Some members -> members <> [];
  member_is_bound : forall sid members ws,
    sessionClients w !! sid = Some members -> ws ∈ members ->
    exists st, clients w !! ws = Some st /\ sessionId st = Some sid;
  bound_is_truthy : forall ws st,
    clients w !! ws = Some st -> sessionId st <> Some "";
  client_is_allocated : forall ws st,
    clients w !! ws = Some st -> (ws < nextWs w)%nat
}.

(** The world after the rate-limit transaction of a send by [state]. *)
Definition attemptRecorded (state : ClientState) (env : Env) (w : World) : World :=
  set_redis (<["ratelimit:" +:+ ("ws-message:" +:+ ip state) :=
               snd (rateLimitTransaction (e_now env) (e_random env) 60
                      (zsetOf (redis w) ("ratelimit:" +:+ ("ws-message:" +:+ ip state))))]>) w.

(** What [getAIResponse] returns for each outcome of the fetch. *)
Definition aiResultOf (outcome : FetchOutcome) : AIResponse :=
  match outcome with
  | FetchRejected | FetchBadJson => mkAIResponse "" (Some "AI service unavailable")
  | FetchNotOk _ => mkAIResponse "" (Some "Failed to get AI response")
  | FetchJson text =>
      if truthy text then mkAIResponse (default "" text) None
      else mkAIResponse "" (Some "Empty AI response")
  end.

(** The history [aiReply] hands to [getAIResponse]. *)
Definition historyFor (sid : string) (w : World) : list AIChatMessage :=
  map (fun m => mkAIChatMessage (toLowerCase (role m)) (content m))
      (findManyMessages sid (Some 20%nat) (chatMessage w)).



(** The guards of [handleSendMessage] all pass: the connection is bound to
    [sid], the payload parses to [text], Redis answers and counts fewer
    than 30 attempts in the window, and the session is found ACTIVE. *)
Record sendReachesSave {cfg : Config} (w : World) (state : ClientState)
    (payload : option Json) (env : Env) (sid text : string) : Prop := mkSendReachesSave {
  reach_bound : sessionId state = Some sid;
  reach_truthy : sid <> "";
  reach_valid : WsSendMessageSchema_safeParse payload = Some text;
  reach_redis : e_redisFails env = false;
  reach_allowed :
    attemptsInWindow (redis w) ("ws-message:" +:+ ip state) (e_now env) 60 < 30;
  reach_lookup : e_dbFails env SendFindSession = false;
  reach_active : status <$> chatSession w !! sid = Some ACTIVE
}.

(** An event that is neither a typing indicator nor a generator call. *)
Definition quiet (ev : Event) : Prop := isTyping ev = false /\ isFetch ev = false.

(** The registry after [if (state.sessionId) leaveSession(ws, state.sessionId)]. *)
Definition afterLeave (ws : WsId) (bound : option string) (w : World) : World :=
  if truthy bound then (leaveSession ws (default "" bound) w).2 else w.

(** The registry after the "Join new session" block. *)
Definition afterJoin (ws : WsId) (bound : option string) (sid : string) (w : World) : World :=
  set_sessionClients (fun sc => <[sid := setAdd ws (default [] (sc !! sid))]> sc)
    (set_clients (alter (fun st => mkClientState (Some sid) (isAdmin st) (ip st)) ws)
       (afterLeave ws bound w)).

(** A relation [R] between the world before and after a computation, for
    events satisfying [P]: it is reflexive and transitive, admits appending
    events that satisfy [P], appending a row to the message table and
    rewriting the session table; [P] holds of every frame that is not an
    error envelope, of every broadcast call and of every fetch. *)
Class Frame (P : Event -> Prop) (R : World -> World -> Prop) : Prop := mkFrame {
  frame_refl : forall w, R w w;
  frame_trans : forall a b c, R a b -> R b c -> R a c;
  frame_emit : forall w evs, Forall P evs -> R w (set_trace (fun t => t ++ evs) w);
  frame_append : forall w row, R w (set_chatMessage (fun t => t ++ [row]) w);
  frame_touch : forall w f, R w (set_chatSession f w);
  frame_frames : forall c m, (forall code text, m <> ERROR code text) -> P (EvSend c m);
  frame_calls : forall sid m x, P (EvBroadcast sid m x);
  frame_fetch : forall messages, P (EvFetch messages)
}.

(** [m] relates every world to the world it leaves. *)
Definition preserves (R : World -> World -> Prop) {A} (m : M A) : Prop :=
  forall w, R w (m w).2.

(** The registry and the transports are what they were. *)
Definition sameRegistry (w w' : World) : Prop :=
  clients w' = clients w /\ sessionClients w' = sessionClients w /\
  readyState w' = readyState w /\ nextWs w' = nextWs w.

Abbreviation keepsRegistry := (preserves sameRegistry).

(** A join that claims admin rights carries the configured key. *)
Definition adminClaimOk {cfg : Config} (data : WsJoinSessionData) : Prop :=
  default false (j_isAdmin data) = true ->
  truthy (j_adminKey data) = true /\ j_adminKey data = Some ADMIN_API_KEY.

(** The world in which [joinVerified] runs: the admin flag is already set
    when the join claimed it. *)
Definition adminMarked (ws : WsId) (data : WsJoinSessionData) (w : World) : World :=
  if default false (j_isAdmin data)
  then set_clients (alter (fun st => mkClientState (sessionId st) true (ip st)) ws) w
  else w.

(** The sorted set holds exactly the attempts of [past], each under its
    timestamp. *)
Definition recorded (s : gmap Member Z) (past : list Member) : Prop :=
  size s = length past /\
  forall m score, s !! m = Some score -> m ∈ past /\ score = m.1.

(** An event other than a RATE_LIMITED error envelope. *)
Definition notLimited (ev : Event) : Prop := isErrorWithCode "RATE_LIMITED" ev = false.

(** What the part of a send after the rate-limit check may do: it leaves
    the registry and Redis alone, only appends to the message table, and
    appends no RATE_LIMITED error to the trace. *)
Definition tame (w w' : World) : Prop :=
  sameRegistry w w' /\ redis w' = redis w /\
  (exists rows, chatMessage w' = chatMessage w ++ rows) /\
  (exists evs, trace w' = trace w ++ evs /\ Forall notLimited evs).

(** One SEND_MESSAGE delivery. *)
Record Send := mkSend {
  s_ws : WsId;
  s_message : Json;
  s_env : Env
}.

Definition sendOp (s : Send) : Op := Message (s_ws s) (Some (s_message s)) (s_env s).

Definition memberOf (s : Send) : Member := (e_now (s_env s), e_random (s_env s)).

(** A delivery that reaches the rate-limit check of a client at [address],
    with Redis answering. *)
Definition validSendFrom {cfg : Config} (address : string) (w : World) (s : Send) : Prop :=
  exists state sid text,
    clients w !! s_ws s = Some state /\ ip state = address /\
    sessionId state = Some sid /\ sid <> "" /\
    hasType "SEND_MESSAGE" (s_message s) /\
    WsSendMessageSchema_safeParse (payloadOf (s_message s)) = Some text /\
    e_redisFails (s_env s) = false.

Definition rateKeyOf (address : string) : string :=
  "ratelimit:" +:+ ("ws-message:" +:+ address).

(** ** A deployment to evaluate the handlers on *)

Module Sample.

Definition isHexDigit (c : ascii) : bool :=
  let n := nat_of_ascii c in
  (48 <=? n)%nat && (n <=? 57)%nat
  || (65 <=? n)%nat && (n <=? 70)%nat
  || (97 <=? n)%nat && (n <=? 102)%nat.

(** The rest of [s] after [n] hexadecimal digits. *)
Fixpoint hexDigits (n : nat) (s : string) : option string :=
  match n, s with
  | O, _ => Some s
  | S n, String c rest => if isHexDigit c then hexDigits n rest else None
  | S _, EmptyString => None
  end.

Definition afterHyphen (s : option string) : option string :=
  match s with
  | Some (String "-" rest) => Some rest
  | _ => None
  end.

(** Groups of 8, 4, 4, 4 and 12 hexadecimal digits between hyphens. *)
Definition uuidShaped (s : string) : bool :=
  bool_decide
    (afterHyphen (hexDigits 8 s) ≫= (fun s =>
     afterHyphen (hexDigits 4 s) ≫= (fun s =>
     afterHyphen (hexDigits 4 s) ≫= (fun s =>
     afterHyphen (hexDigits 4 s) ≫= hexDigits 12))) = Some "").

(** The sample writes a number in decimal digits. *)
Definition config : Config :=
  mkConfig "0123456789abcdef0123456789abcdef"
           "You are Marin's AI assistant."
           uuidShaped
           (fun n => pretty n).

Definition lobby : string := "11111111-1111-4111-8111-111111111111".
Definition attic : string := "22222222-2222-4222-8222-222222222222".

Definition lobbySession : ChatSession :=
  mkChatSession lobby "203.0.113.7" None ACTIVE 0 0.

Definition welcome : ChatMessage :=
  mkChatMessage "m-welcome" lobby ASSISTANT "Hi there! Welcome to Marin's Room." 0.

Definition envelope (type : string) (payload : list (string * Json)) : Json :=
  JObj [("type", JStr type); ("payload", JObj payload)].

Definition join (sid : string) : Json :=
  envelope "JOIN_SESSION" [("sessionId", JStr sid)].

Definition joinAsAdmin (sid : string) : Json :=
  envelope "JOIN_SESSION"
           [("sessionId", JStr sid); ("isAdmin", JBool true);
            ("adminKey", JStr "0123456789abcdef0123456789abcdef")].

Definition say (text : string) : Json :=
  envelope "SEND_MESSAGE" [("content", JStr text)].

Definition typing : Json := envelope "TYPING_START" [].

(** Nothing fails and the generator answers. *)
Definition calm (now : Z) : Env :=
  mkEnv now "0.5" false (fun _ => false)
        ("sent-" +:+ pretty now) now ("reply-" +:+ pretty now) (now + 1)
        (FetchJson (Some "hi there")) (now + 2).

(** Redis cannot be reached. *)
Definition redisDown (now : Z) : Env :=
  mkEnv now "0.5" true (fun _ => false)
        ("sent-" +:+ pretty now) now ("reply-" +:+ pretty now) (now + 1)
        (FetchJson (Some "hi there")) (now + 2).

(** The database rejects the write of the sender's row. *)
Definition createFails (now : Z) : Env :=
  mkEnv now "0.5" false (fun c => match c with SendCreateMessage => true | _ => false end)
        ("sent-" +:+ pretty now) now ("reply-" +:+ pretty now) (now + 1)
        (FetchJson (Some "hi there")) (now + 2).

(** One visitor connects; the directory holds the lobby with its welcome
    message. *)
Definition opened (messages : list ChatMessage) : list Op :=
  [Connection None (Some "203.0.113.7");
   Outside {[lobby := lobbySession]} messages ∅ {[0%nat := RS_OPEN]}].

Definition unbound : World := run (cfg := config) initialWorld (opened [welcome]).

Definition joined : World :=
  run (cfg := config) initialWorld (opened [welcome] ++ [Message 0%nat (Some (join lobby)) (calm 1000)]).

Definition joinedAsAdmin : World :=
  run (cfg := config) initialWorld
      (opened [welcome] ++ [Message 0%nat (Some (joinAsAdmin lobby)) (calm 1000)]).

(** The lobby after the directory dropped it. *)
Definition orphaned : World :=
  step (cfg := config) joined (Outside ∅ [] ∅ {[0%nat := RS_OPEN]}).

(** Twenty earlier messages, one per millisecond. *)
Definition earlier : list ChatMessage :=
  map (fun i => mkChatMessage ("m-" +:+ pretty i) lobby USER ("earlier " +:+ pretty i)
                              (Z.of_nat i))
      (seq 0 20).

Definition crowded : World :=
  run (cfg := config) initialWorld
      (opened earlier ++ [Message 0%nat (Some (join lobby)) (calm 1000)]).

(** Thirty-one sends of the visitor, one per second. *)
Definition burst : list Send :=
  map (fun i => mkSend 0 (say "hello") (calm (2000 + 1000 * Z.of_nat i))) (seq 0 31).

(** The client states of the worlds above. *)
Definition visitor : ClientState := mkClientState (Some lobby) false "203.0.113.7".
Definition stranger : ClientState := mkClientState None false "203.0.113.7".
Definition marin : ClientState := mkClientState (Some lobby) true "203.0.113.7".

End Sample.

(** ** Further vocabulary *)

(** An ERROR envelope on some socket. *)
Definition isError (ev : Event) : bool :=
  match ev with
  | EvSend _ (ERROR _ _) => true
  | _ => false
  end.

Definition notError (ev : Event) : Prop := isError ev = false.

(** The trace grew by events none of which is an ERROR envelope. *)
Definition grewCalmly (w w' : World) : Prop :=
  exists evs, trace w' = trace w ++ evs /\ Forall notError evs.

(** A computation appends events that are no ERROR envelopes and then at
    most one ERROR envelope, addressed to [ws]; when it appends one it does
    not throw. *)
Definition oneError (ws : WsId) {A} (m : M A) : Prop :=
  forall w, exists evs errs,
    trace (m w).2 = trace w ++ evs ++ errs /\
    Forall notError evs /\
    (errs = [] \/
     exists code text, errs = [EvSend ws (ERROR code text)] /\ exists a, (m w).1 = Done a).

(** The indicator a TYPING_START or TYPING_STOP envelope is relayed as. *)
Definition typingIndicator (t : string) (flag : bool) : WsMessage :=
  if decide (t = "TYPING_START") then TYPING_START flag else TYPING_STOP flag.


(** The records of the other connections are what they were, and the
    record of [ws] keeps its address and its admin flag. *)
Definition keepsFlags (ws : WsId) (w w' : World) : Prop :=
  (forall other, other <> ws -> clients w' !! other = clients w !! other) /\
  (forall st, clients w !! ws = Some st ->
     exists st', clients w' !! ws = Some st' /\
                 isAdmin st' = isAdmin st /\ ip st' = ip st).

(** The join carries the configured admin key together with the claim. *)
Definition presentsAdminKey {cfg : Config} (data : option Json) : Prop :=
  exists message d,
    data = Some message /\ hasType "JOIN_SESSION" message /\
    WsJoinSessionSchema_safeParse (payloadOf message) = Some d /\
    j_isAdmin d = Some true /\ j_adminKey d = Some ADMIN_API_KEY /\
    ADMIN_API_KEY <> "".

(** A membership set after [ws] left it: the set without [ws], or no set
    when that is empty. *)
Definition without (ws : WsId) (members : option (list WsId)) : option (list WsId) :=
  match members with
  | Some members =>
      if decide (length (setDelete ws members) = 0%nat) then None
      else Some (setDelete ws members)
  | None => None
  end.


(** The record of a connection after LEAVE_SESSION. *)
Definition unbind (st : ClientState) : ClientState :=
  mkClientState None (isAdmin st) (ip st).

(** The trace only grew. *)
Definition extends (w w' : World) : Prop :=
  exists evs, trace w' = trace w ++ evs.

(** Rows in ascending order of [createdAt]. *)
Definition ascending (rows : list ChatMessage) : Prop :=
  StronglySorted (fun a b => createdAt a <= createdAt b) rows.

(** The message table only gained rows at its end, and the session table
    holds the same sessions, each unchanged but for its [updatedAt]. *)
Definition tablesGrow (w w' : World) : Prop :=
  (exists rows, chatMessage w' = chatMessage w ++ rows) /\
  forall sid, withUpdatedAt 0 <$> chatSession w' !! sid
              = withUpdatedAt 0 <$> chatSession w !! sid.

(** An event the server itself handles: a connection, a frame, a close. *)
Definition isServerOp (op : Op) : bool :=
  match op with
  | Outside _ _ _ _ => false
  | _ => true
  end.

(** * The HTTP routes of the chat (routes/chat.ts) and their middleware *)

(** What the routes read of a request: [req.ip], [req.socket.remoteAddress],
    the header [x-admin-api-key], the body as [express.json()] left it
    ([None]: no body) and the path parameter [sessionId]. *)
Record Request := mkRequest {
  req_ip : option string;
  req_remoteAddress : option string;
  req_adminKey : option string;
  req_body : option Json;
  req_sessionId : string
}.

(** The JSON a route answers with.  [ErrorBody] is
    [{success: false, error: {code, message}}]; the [details] a validation
    error carries besides are left out.  The others are the [data] of a
    [{success: true, data}]. *)
Inductive ResponseBody :=
| ErrorBody (code message : string)
| SessionStarted (session : ChatSession)
| MessageSent (message : ChatMessage) (aiResponse : option ChatMessage)
| SessionMessages (session : ChatSession) (messages : list ChatMessage)
| Replied (message : ChatMessage)
| NoData.

(** The headers are those the rate limiter sets. *)
Record Response := mkResponse {
  res_status : Z;
  res_headers : list (string * Z);
  res_body : ResponseBody
}.

(** The database calls of the routes, in the order of the source. *)
Inductive HttpDbCall :=
| StartCreateSession | StartCreateMessage
| PostFindSession | PostCreateMessage | PostFindHistory
| PostCreateAIMessage | PostUpdateSession
| GetFindSession | GetFindMessages
| CloseFindSession | CloseUpdateSession
| ReplyFindSession | ReplyCreateMessage | ReplyUpdateSession.

(** What the environment decides during one request. *)
Record HttpEnv := mkHttpEnv {
  h_now : Z;                        (* Date.now() in checkRateLimit *)
  h_random : string;                (* Math.random() in the member name *)
  h_redisFails : bool;              (* multi.exec() rejects or yields null *)
  h_dbFails : HttpDbCall -> bool;   (* the Prisma call rejects *)
  h_uuid : string;                  (* uuidv4() *)
  h_sessionId : string;             (* column defaults of a new session *)
  h_sessionCreatedAt : Z;
  h_sessionUpdatedAt : Z;
  h_messageId : string;             (* column defaults of the first new row *)
  h_messageCreatedAt : Z;
  h_aiMessageId : string;           (* column defaults of the reply's row *)
  h_aiMessageCreatedAt : Z;
  h_fetch : FetchOutcome;
  h_updatedAt : Z;                  (* new Date() *)
  h_closedUpdatedAt : Z -> Z        (* [updatedAt] after the update that closes *)
}.

(** ** Prisma calls, by whether the call rejects *)

Definition findSession (fails : bool) (id : string) : M (option ChatSession) :=
  (if fails then throw else ret tt) >>
  let* w := get in
  ret (chatSession w !! id).

Definition findMessages (fails : bool) (sid : string) (limit : option nat)
    : M (list ChatMessage) :=
  (if fails then throw else ret tt) >>
  let* w := get in
  ret (findManyMessages sid limit (chatMessage w)).

Definition insertMessage (fails : bool) (row : ChatMessage) : M ChatMessage :=
  (if fails then throw else ret tt) >>
  modify (set_chatMessage (fun table => table ++ [row])) >>
  ret row.

(** [prisma.chatSession.create] rejects when the id is taken. *)
Definition insertSession (fails : bool) (row : ChatSession) : M ChatSession :=
  (if fails then throw else ret tt) >>
  let* w := get in
  match chatSession w !! cs_id row with
  | Some _ => throw
  | None => modify (set_chatSession (<[cs_id row := row]>)) >> ret row
  end.

(** [prisma.chatSession.update] rejects when no row has the id. *)
Definition changeSession (fails : bool) (id : string) (f : ChatSession -> ChatSession)
    : M unit :=
  (if fails then throw else ret tt) >>
  let* w := get in
  match chatSession w !! id with
  | Some s => modify (set_chatSession (<[id := f s]>))
  | None => throw
  end.

(** [data: { status: "CLOSED" }]; what the update does to [updatedAt] is
    the schema's, outside the files embedded here. *)
Definition closed (touch : Z -> Z) (s : ChatSession) : ChatSession :=
  mkChatSession (cs_id s) (visitorId s) (visitorName s) CLOSED (cs_createdAt s)
                (touch (updatedAt s)).

(** ** Middleware *)

(** [req.ip || req.socket.remoteAddress || "unknown"] *)
Definition requestAddress (req : Request) : string :=
  if truthy (req_ip req) then default "" (req_ip req)
  else if truthy (req_remoteAddress req) then default "" (req_remoteAddress req)
  else "unknown".

Record RateLimitOptions := mkRateLimitOptions {
  rl_limit : Z;
  rl_windowSeconds : Z;
  rl_keyPrefix : string
}.

Definition rateLimitHeaders (options : RateLimitOptions) (result : RateLimitResult)
    : list (string * Z) :=
  [("X-RateLimit-Limit", rl_limit options);
   ("X-RateLimit-Remaining", remaining result);
   ("X-RateLimit-Reset", resetIn result)].

Definition tooManyRequests (headers : list (string * Z)) : Response :=
  mkResponse 429 headers
             (ErrorBody "RATE_LIMIT_EXCEEDED" "Too many requests. Please try again later.").

(** [rateLimit(options)] (middleware/rateLimit.ts).  [next] is the rest of
    the route, run with the headers set so far; the [catch] of the
    middleware covers the check, not the rest of the route. *)
Definition rateLimit (options : RateLimitOptions) (req : Request) (env : HttpEnv)
    (next : list (string * Z) -> M Response) : M Response :=
  let ip := requestAddress req in
  let key := rl_keyPrefix options +:+ ":" +:+ ip in
  let* checked :=
    tryCatch
      (let* result :=
         checkRateLimit key (rl_limit options) (rl_windowSeconds options)
                        (h_now env) (h_random env) (h_redisFails env) in
       ret (Some result))
      (ret None) in
  match checked with
  | Some result =>
      let headers := rateLimitHeaders options result in
      if negb (allowed result) then ret (tooManyRequests headers)
      else next headers
  | None => next []
  end.

Definition validationError (headers : list (string * Z)) (message : string) : Response :=
  mkResponse 400 headers (ErrorBody "VALIDATION_ERROR" message).

(** [validateBody(schema)] and [validateParams(schema)]
    (middleware/validate.ts) *)
Definition validateBody {A} (schema : option Json -> option A) (req : Request)
    (headers : list (string * Z)) (next : A -> M Response) : M Response :=
  match schema (req_body req) with
  | None => ret (validationError headers "Invalid request body")
  | Some data => next data
  end.

Definition sessionNotFound (headers : list (string * Z)) : Response :=
  mkResponse 404 headers (ErrorBody "SESSION_NOT_FOUND" "Chat session not found").

Section Http.

Context {cfg : Config}.

(** [z.object({ sessionId: SessionIdSchema })] on [req.params] *)
Definition validateParams (req : Request) (headers : list (string * Z))
    (next : string -> M Response) : M Response :=
  if isUuid (req_sessionId req) then next (req_sessionId req)
  else ret (validationError headers "Invalid path parameters").

(** [requireAdmin] (middleware/admin.ts) *)
Definition requireAdmin (req : Request) (next : M Response) : M Response :=
  if negb (truthy (req_adminKey req))
     || negb (bool_decide (req_adminKey req = Some ADMIN_API_KEY))
  then ret (mkResponse 401 [] (ErrorBody "UNAUTHORIZED" "Invalid or missing admin API key"))
  else next.

(** *** Body schemas (packages/shared) *)

(** [visitorName: z.string().max(50).optional()] *)
Definition StartChatSessionSchema_safeParse (body : option Json) : option (option string) :=
  match body with
  | Some (JObj fields) =>
      match jsonGet "visitorName" fields with
      | None => Some None
      | Some (JStr s) => if (utf16Length s <=? 50)%nat then Some (Some s) else None
      | Some _ => None
      end
  | _ => None
  end.

(** [sessionId: z.string().uuid(), content: z.string().min(1).max(4000)] *)
Definition SendMessageSchema_safeParse (body : option Json) : option (string * string) :=
  match body with
  | Some (JObj fields) =>
      match jsonGet "sessionId" fields, jsonGet "content" fields with
      | Some (JStr sid), Some (JStr s) =>
          if isUuid sid && (1 <=? utf16Length s)%nat && (utf16Length s <=? 4000)%nat
          then Some (sid, s) else None
      | _, _ => None
      end
  | _ => None
  end.

(** *** routes/chat.ts *)

Definition welcomeText : string :=
  "Hi there! Welcome to Marin's Room. I'm an AI assistant here to help you. How can I assist you today?".

(** POST /chat/sessions *)
Definition startSession (req : Request) (env : HttpEnv) : M Response :=
  rateLimit (mkRateLimitOptions 5 60 "chat-start") req env (fun headers =>
  validateBody StartChatSessionSchema_safeParse req headers (fun name =>
  tryCatch
    (let visitor := if truthy (req_ip req) then default "" (req_ip req) else h_uuid env in
     let* session :=
       insertSession (h_dbFails env StartCreateSession)
         (mkChatSession (h_sessionId env) visitor name ACTIVE
                        (h_sessionCreatedAt env) (h_sessionUpdatedAt env)) in
     (* Add welcome message *)
     insertMessage (h_dbFails env StartCreateMessage)
       (mkChatMessage (h_messageId env) (cs_id session) ASSISTANT welcomeText
                      (h_messageCreatedAt env)) >>
     ret (mkResponse 200 headers (SessionStarted session)))
    (ret (mkResponse 500 headers
            (ErrorBody "SESSION_START_FAILED" "Failed to start chat session"))))).

(** The row POST /chat/messages writes for the request. *)
Definition postedRow (sid text : string) (env : HttpEnv) : ChatMessage :=
  mkChatMessage (h_messageId env) sid USER text (h_messageCreatedAt env).

(** The handler of POST /chat/messages, after the middleware. *)
Definition postMessageHandler (sid text : string) (env : HttpEnv)
    (headers : list (string * Z)) : M Response :=
  tryCatch
    ((* Verify session exists and is active *)
     let* session := findSession (h_dbFails env PostFindSession) sid in
     match session with
     | None => ret (sessionNotFound headers)
     | Some session =>
         if negb (bool_decide (status session = ACTIVE)) then
           ret (mkResponse 400 headers
                  (ErrorBody "SESSION_CLOSED" "This chat session has been closed"))
         else
           (* Save user message *)
           let* userMessage :=
             insertMessage (h_dbFails env PostCreateMessage) (postedRow sid text env) in
           (* Get conversation history for AI context *)
           let* history :=
             findMessages (h_dbFails env PostFindHistory) sid (Some 20%nat) in
           (* Get AI response *)
           let* aiResult :=
             getAIResponse
               (map (fun m => mkAIChatMessage (toLowerCase (role m)) (content m)) history)
               (h_fetch env) in
           let* aiMessage :=
             if truthy (Some (aiContent aiResult)) then
               let* row :=
                 insertMessage (h_dbFails env PostCreateAIMessage)
                   (mkChatMessage (h_aiMessageId env) sid ASSISTANT (aiContent aiResult)
                                  (h_aiMessageCreatedAt env)) in
               ret (Some row)
             else ret None in
           (* Update session timestamp *)
           changeSession (h_dbFails env PostUpdateSession) sid
                         (withUpdatedAt (h_updatedAt env)) >>
           ret (mkResponse 200 headers (MessageSent userMessage aiMessage))
     end)
    (ret (mkResponse 500 headers
            (ErrorBody "MESSAGE_SEND_FAILED" "Failed to send message"))).

(** POST /chat/messages *)
Definition postMessage (req : Request) (env : HttpEnv) : M Response :=
  rateLimit (mkRateLimitOptions 30 60 "chat-message") req env (fun headers =>
  validateBody SendMessageSchema_safeParse req headers (fun data =>
  postMessageHandler data.1 data.2 env headers)).

(** GET /chat/sessions/:sessionId/messages.  The handler has no
    [try]/[catch]: a rejected database call leaves the route without an
    answer of its own. *)
Definition getMessages (req : Request) (env : HttpEnv) : M Response :=
  validateParams req [] (fun sid =>
  let isAdmin := bool_decide (req_adminKey req <> None) in
  let* session := findSession (h_dbFails env GetFindSession) sid in
  match session with
  | None => ret (sessionNotFound [])
  | Some session =>
      (* Only admin can view other visitors' sessions *)
      let visitor := if truthy (req_ip req) then default "" (req_ip req) else "" in
      if negb isAdmin && negb (bool_decide (visitorId session = visitor)) then
        ret (mkResponse 403 []
               (ErrorBody "FORBIDDEN" "You can only view your own chat sessions"))
      else
        let* messages := findMessages (h_dbFails env GetFindMessages) sid None in
        ret (mkResponse 200 [] (SessionMessages session messages))
  end).

(** POST /chat/sessions/:sessionId/close *)
Definition closeSession (req : Request) (env : HttpEnv) : M Response :=
  requireAdmin req (
  validateParams req [] (fun sid =>
  let* session := findSession (h_dbFails env CloseFindSession) sid in
  match session with
  | None => ret (sessionNotFound [])
  | Some _ =>
      changeSession (h_dbFails env CloseUpdateSession) sid
                    (closed (h_closedUpdatedAt env)) >>
      ret (mkResponse 200 [] NoData)
  end)).

(** POST /chat/sessions/:sessionId/reply *)
Definition replyToSession (req : Request) (env : HttpEnv) : M Response :=
  requireAdmin req (
  validateParams req [] (fun sid =>
  validateBody WsSendMessageSchema_safeParse req [] (fun text =>
  let* session := findSession (h_dbFails env ReplyFindSession) sid in
  match session with
  | None => ret (sessionNotFound [])
  | Some _ =>
      (* Admin messages are marked as ASSISTANT for simplicity *)
      let* message :=
        insertMessage (h_dbFails env ReplyCreateMessage)
          (mkChatMessage (h_messageId env) sid ASSISTANT ("[Marin]: " +:+ text)
                         (h_messageCreatedAt env)) in
      changeSession (h_dbFails env ReplyUpdateSession) sid
                    (withUpdatedAt (h_updatedAt env)) >>
      ret (mkResponse 200 [] (Replied message))
  end))).

(** The five routes. *)
Inductive Route := StartSession | PostMessage | GetMessages | CloseSession | ReplyToSession.

Definition serve (route : Route) (req : Request) (env : HttpEnv) : M Response :=
  match route with
  | StartSession => startSession req env
  | PostMessage => postMessage req env
  | GetMessages => getMessages req env
  | CloseSession => closeSession req env
  | ReplyToSession => replyToSession req env
  end.

End Http.

(** ** Vocabulary of the HTTP properties *)

Definition isFrame (ev : Event) : bool :=
  match ev with
  | EvSend _ _ | EvBroadcast _ _ _ => true
  | EvFetch _ => false
  end.

(** What a request may do to the world: it leaves the registry alone,
    sends and broadcasts nothing, only appends to the message table, removes
    no session and reopens none. *)
Definition behindTheSockets (w w' : World) : Prop :=
  sameRegistry w w' /\
  (exists evs, trace w' = trace w ++ evs /\ Forall (fun ev => isFrame ev = false) evs) /\
  (exists rows, chatMessage w' = chatMessage w ++ rows) /\
  (forall sid s, chatSession w !! sid = Some s ->
     exists s', chatSession w' !! sid = Some s' /\
                (status s = CLOSED -> status s' = CLOSED)).

(** The attempts the HTTP limiter counts for a request. *)
Definition requestAttempts (w : World) (options : RateLimitOptions) (req : Request)
    (env : HttpEnv) : Z :=
  attemptsInWindow (redis w) (rl_keyPrefix options +:+ ":" +:+ requestAddress req)
                   (h_now env) (rl_windowSeconds options).

(** The world after the rate-limit transaction of a request. *)
Definition requestRecorded (options : RateLimitOptions) (req : Request) (env : HttpEnv)
    (w : World) : World :=
  (checkRateLimit (rl_keyPrefix options +:+ ":" +:+ requestAddress req)
                  (rl_limit options) (rl_windowSeconds options)
                  (h_now env) (h_random env) false w).2.

Module SampleHttp.

Import Sample.

(** Nothing fails and the generator answers. *)
Definition still (now : Z) : HttpEnv :=
  mkHttpEnv now "0.25" false (fun _ => false)
            "33333333-3333-4333-8333-333333333333"
            attic now now
            ("posted-" +:+ pretty now) now ("answer-" +:+ pretty now) (now + 1)
            (FetchJson (Some "hello back")) (now + 2) (fun _ => now + 3).

(** Redis cannot be reached. *)
Definition noRedis (now : Z) : HttpEnv :=
  mkHttpEnv now "0.25" true (fun _ => false)
            "33333333-3333-4333-8333-333333333333"
            attic now now
            ("posted-" +:+ pretty now) now ("answer-" +:+ pretty now) (now + 1)
            (FetchJson (Some "hello back")) (now + 2) (fun _ => now + 3).

Definition post (sid text : string) : Json :=
  JObj [("sessionId", JStr sid); ("content", JStr text)].

(** A request of the visitor of the lobby, and one from elsewhere. *)
Definition fromVisitor (body : option Json) (sid : string) : Request :=
  mkRequest (Some "203.0.113.7") (Some "10.0.0.1") None body sid.

Definition fromElsewhere (key : option string) (body : option Json) (sid : string) : Request :=
  mkRequest (Some "198.51.100.9") (Some "10.0.0.1") key body sid.

Definition fromMarin (body : option Json) (sid : string) : Request :=
  fromElsewhere (Some "0123456789abcdef0123456789abcdef") body sid.

(** The lobby after Marin closed it over HTTP. *)
Definition closedLobby : World :=
  exec (closeSession (cfg := config) (fromMarin None lobby) (still 1500)) joined.

End SampleHttp.

(** The options of the two limited routes. *)
Definition postLimit : RateLimitOptions := mkRateLimitOptions 30 60 "chat-message".
Definition startLimit : RateLimitOptions := mkRateLimitOptions 5 60 "chat-start".

(** The headers an allowed request of a route carries. *)
Definition allowedHeaders (options : RateLimitOptions) (count : Z) : list (string * Z) :=
  [("X-RateLimit-Limit", rl_limit options);
   ("X-RateLimit-Remaining", rl_limit options - count - 1);
   ("X-RateLimit-Reset", rl_windowSeconds options)].

(** ** More scenes on the sample deployment *)

Module Scenes.

Import Sample SampleHttp.

(** Two connections in the lobby: the visitor, and a guest who came
    through a proxy. *)
Definition pairOps : list Op :=
  [Connection None (Some "203.0.113.7");
   Connection (Some "198.51.100.9, 10.0.0.1") (Some "10.0.0.1");
   Outside {[lobby := lobbySession]} [welcome] ∅ {[0%nat := RS_OPEN; 1%nat := RS_OPEN]};
   Message 0%nat (Some (join lobby)) (calm 1000);
   Message 1%nat (Some (join lobby)) (calm 1100)].

Definition pair : World := run (cfg := config) initialWorld pairOps.


Definition joinedOps : list Op :=
  opened [welcome] ++ [Message 0%nat (Some (join lobby)) (calm 1000)].

(** The visitor has sent one message, at 2000. *)
Definition afterHello : World :=
  step (cfg := config) joined (Message 0%nat (Some (say "hello")) (calm 2000)).

(** Five requests to start a session from one address, one per second. *)
Definition fiveStarts : World :=
  foldl (fun w i => exec (startSession (fromVisitor (Some (JObj [])) "")
                                       (still (2000 + 1000 * Z.of_nat i))) w)
        joined (seq 0 5).

Definition leave : Json := envelope "LEAVE_SESSION" [].

Fixpoint copies (n : nat) (s : string) : string :=
  match n with
  | O => ""
  | S n => s +:+ copies n s
  end.

(** 2001 times the letter e with an acute accent, two bytes each: 4002
    bytes, 2001 code units. *)
Definition accented : string := copies 2001 (String "195" (String "169" "")).

(** 4001 times the letter a. *)
Definition tooLong : string := copies 4001 "a".


Definition joinWithKey (sid key : string) : Json :=
  envelope "JOIN_SESSION"
           [("sessionId", JStr sid); ("isAdmin", JBool true); ("adminKey", JStr key)].

End Scenes.

(** * Properties *)

Ltac monad_unfold :=
  unfold exec, bind, ret, get, modify, emit, throw, tryCatch in *; cbn [fst snd] in *.

Lemma newEvents_app (w w' : World) (evs : list Event) :
  trace w' = trace w ++ evs -> newEvents w w' = evs.
Proof.
  intros H. unfold newEvents. rewrite H. apply drop_app_length.
Qed.

Lemma newEvents_same (w w' : World) :
  trace w' = trace w -> newEvents w w' = [].
Proof.
  intros H. apply newEvents_app. rewrite H. symmetry. apply app_nil_r.
Qed.

Lemma sendError_run (ws : WsId) (c m : string) (w : World) :
  sendError ws c m w =
  (Done tt, if isOpen w ws then set_trace (fun t => t ++ [EvSend ws (ERROR c m)]) w else w).
Proof.
  unfold sendError. monad_unfold. destruct (isOpen w ws); reflexivity.
Qed.

(** *** What each primitive does to a world *)

Lemma bind_run {A B} (m : M A) (k : A -> M B) (w : World) :
  bind m k w = match m w with
               | (Done a, w') => k a w'
               | (Thrown, w') => (Thrown, w')
               end.
Proof. reflexivity. Qed.

Lemma tryCatch_run {A} (m h : M A) (w : World) :
  tryCatch m h w = match m w with
                   | (Done a, w') => (Done a, w')
                   | (Thrown, w') => h w'
                   end.
Proof. reflexivity. Qed.

Lemma findUniqueSession_run (env : Env) (c : DbCall) (id : string) (w : World) :
  findUniqueSession env c id w =
  if e_dbFails env c then (Thrown, w) else (Done (chatSession w !! id), w).
Proof.
  unfold findUniqueSession, dbCall. monad_unfold.
  destruct (e_dbFails env c); reflexivity.
Qed.

Lemma findMany_run (env : Env) (c : DbCall) (sid : string) (limit : option nat) (w : World) :
  findMany env c sid limit w =
  if e_dbFails env c then (Thrown, w)
  else (Done (findManyMessages sid limit (chatMessage w)), w).
Proof.
  unfold findMany, dbCall. monad_unfold.
  destruct (e_dbFails env c); reflexivity.
Qed.

Lemma createMessage_run (env : Env) (c : DbCall) (row : ChatMessage) (w : World) :
  createMessage env c row w =
  if e_dbFails env c then (Thrown, w)
  else (Done row, set_chatMessage (fun table => table ++ [row]) w).
Proof.
  unfold createMessage, dbCall. monad_unfold.
  destruct (e_dbFails env c); reflexivity.
Qed.

Lemma updateSession_run (env : Env) (c : DbCall) (id : string) (t : Z) (w : World) :
  updateSession env c id t w =
  if e_dbFails env c then (Thrown, w)
  else match chatSession w !! id with
       | Some s => (Done tt, set_chatSession (<[id := withUpdatedAt t s]>) w)
       | None => (Thrown, w)
       end.
Proof.
  unfold updateSession, dbCall. monad_unfold.
  destruct (e_dbFails env c); [reflexivity|].
  destruct (chatSession w !! id); reflexivity.
Qed.

Lemma broadcastToSession_run (sid : string) (m : WsMessage) (exclude : option WsId)
    (w : World) :
  broadcastToSession sid m exclude w =
  (Done tt, set_trace (fun t => t ++ broadcastEvents w sid m exclude) w).
Proof. reflexivity. Qed.

Lemma leaveSession_run (ws : WsId) (sid : string) (w : World) :
  leaveSession ws sid w =
  (Done tt,
   match sessionClients w !! sid with
   | Some members =>
       if decide (length (setDelete ws members) = 0%nat)
       then set_sessionClients (delete sid) w
       else set_sessionClients (<[sid := setDelete ws members]>) w
   | None => w
   end).
Proof.
  unfold leaveSession. monad_unfold.
  destruct (sessionClients w !! sid); [|reflexivity].
  destruct (decide _); reflexivity.
Qed.

(** Closes a goal about the default case of [handleMessage] with a fact
    [H] that holds for every type. *)
Ltac unknown_case H :=
  cbv beta iota zeta;
  lazymatch goal with
  | |- context [templateString ?t] => exact (H t)
  end.

Lemma truthy_Some (s : string) : s <> "" -> truthy (Some s) = true.
Proof.
  intros H. cbn. destruct (String.eqb_spec s ""); [contradiction | reflexivity].
Qed.

Lemma truthy_inv (o : option string) :
  truthy o = true -> exists s, o = Some s /\ s <> "".
Proof.
  destruct o as [s|]; cbn; [|discriminate].
  destruct (String.eqb_spec s ""); [discriminate|]. eauto.
Qed.

Lemma checkRateLimit_run (key : string) (limit windowSeconds now : Z) (random : string)
    (w : World) :
  checkRateLimit key limit windowSeconds now random false w =
  (Done (mkRateLimitResult
           (attemptsInWindow (redis w) key now windowSeconds <? limit)
           (Z.max 0 (limit - attemptsInWindow (redis w) key now windowSeconds - 1))
           windowSeconds),
   set_redis (<["ratelimit:" +:+ key :=
                snd (rateLimitTransaction now random windowSeconds
                       (zsetOf (redis w) ("ratelimit:" +:+ key)))]>) w).
Proof. reflexivity. Qed.

Lemma checkRateLimit_fails (key : string) (limit windowSeconds now : Z) (random : string)
    (w : World) :
  checkRateLimit key limit windowSeconds now random true w = (Thrown, w).
Proof. reflexivity. Qed.

Section Dispatch.

Context {cfg : Config}.

Lemma handleMessage_send (w : World) (ws : WsId) (state : ClientState)
    (message : Json) (env : Env) :
  clients w !! ws = Some state ->
  hasType "SEND_MESSAGE" message ->
  handleMessage ws message env w =
  handleSendMessage ws state (payloadOf message) env w.
Proof.
  intros Hst (fields & -> & Hty).
  unfold handleMessage, property. monad_unfold. rewrite Hst, Hty. reflexivity.
Qed.

Lemma handleMessage_join (w : World) (ws : WsId) (state : ClientState)
    (message : Json) (env : Env) :
  clients w !! ws = Some state ->
  hasType "JOIN_SESSION" message ->
  handleMessage ws message env w =
  handleJoinSession ws state (payloadOf message) env w.
Proof.
  intros Hst (fields & -> & Hty).
  unfold handleMessage, property. monad_unfold. rewrite Hst, Hty. reflexivity.
Qed.

(** A send by a bound connection with a valid payload, Redis answering:
    the attempt is recorded, then the count decides. *)
Lemma handleSendMessage_checked (w : World) (ws : WsId) (state : ClientState)
    (sid text : string) (payload : option Json) (env : Env) :
  sessionId state = Some sid -> sid <> "" ->
  WsSendMessageSchema_safeParse payload = Some text ->
  e_redisFails env = false ->
  handleSendMessage ws state payload env w =
  if attemptsInWindow (redis w) ("ws-message:" +:+ ip state) (e_now env) 60 <? 30
  then (let* session := findUniqueSession env SendFindSession sid in
        if negb (bool_decide (status <$> session = Some ACTIVE))
        then sendError ws "SESSION_CLOSED" "This session has been closed"
        else saveMessage state sid text env) (attemptRecorded state env w)
  else sendError ws "RATE_LIMITED" "Too many messages. Please slow down."
         (attemptRecorded state env w).
Proof.
  intros Hsid Hne Hparse Hredis.
  unfold handleSendMessage.
  rewrite Hsid, (truthy_Some sid Hne), Hparse, Hredis. cbn [negb default].
  unfold bind at 1. rewrite checkRateLimit_run. cbn [allowed].
  fold (attemptRecorded state env w).
  destruct (attemptsInWindow _ _ _ _ <? 30); reflexivity.
Qed.

End Dispatch.

Ltac new_events :=
  unfold newEvents, attemptRecorded;
  cbn [trace set_trace set_redis set_chatMessage set_chatSession];
  rewrite ?drop_app_length, ?drop_all.

Section SendErrors.

Context {cfg : Config}.

(** C9: a TYPING_START or TYPING_STOP envelope from a connection with no
    bound session leaves the whole world as it was: nothing is broadcast to
    any session, no error envelope goes back to the sender, no state
    changes. *)
Theorem typing_while_unbound_is_silent (w : World) (ws : WsId) (state : ClientState)
    (message : Json) (env : Env) (t : string) :
  clients w !! ws = Some state ->
  sessionId state = None ->
  hasType t message ->
  t = "TYPING_START" \/ t = "TYPING_STOP" ->
  onMessage ws (Some message) env w = (Done tt, w).
Proof.
  intros Hst Hsid (fields & -> & Hty) Ht.
  unfold onMessage, handleMessage, property.
  monad_unfold. rewrite Hst, Hty, Hsid. cbn.
  destruct Ht as [-> | ->]; reflexivity.
Qed.

(** C10: a send on a connection whose bound session is no longer in the
    directory persists nothing, broadcasts nothing and never answers
    SESSION_NOT_FOUND; when the payload is valid, the limiter answers and
    allows it and the lookup itself does not fail, the sender is sent one
    envelope, the error SESSION_CLOSED. *)
Theorem send_to_vanished_session (w : World) (ws : WsId) (state : ClientState)
    (sid : string) (message : Json) (env : Env) :
  clients w !! ws = Some state ->
  sessionId state = Some sid ->
  sid <> "" ->
  chatSession w !! sid = None ->
  hasType "SEND_MESSAGE" message ->
  let w' := exec (onMessage ws (Some message) env) w in
  chatMessage w' = chatMessage w /\
  Forall (fun ev => isBroadcast ev = false /\ isErrorWithCode "SESSION_NOT_FOUND" ev = false)
         (newEvents w w') /\
  (WsSendMessageSchema_safeParse (payloadOf message) <> None ->
   e_redisFails env = false ->
   attemptsInWindow (redis w) ("ws-message:" +:+ ip state) (e_now env) 60 < 30 ->
   e_dbFails env SendFindSession = false ->
   isOpen w ws = true ->
   newEvents w w' = [EvSend ws (ERROR "SESSION_CLOSED" "This session has been closed")]).
Proof.
  intros Hst Hsid Hne Hnone Hty w'. subst w'. unfold exec.
  destruct (onMessage ws (Some message) env w) as [o w'] eqn:Hrun. cbn [snd].
  unfold onMessage in Hrun. rewrite tryCatch_run in Hrun.
  rewrite (handleMessage_send w ws state message env Hst Hty) in Hrun.
  destruct (WsSendMessageSchema_safeParse (payloadOf message)) as [text|] eqn:Hparse.
  2:{ unfold handleSendMessage in Hrun.
      rewrite Hsid, (truthy_Some sid Hne), Hparse in Hrun. cbn [negb default] in Hrun.
      rewrite sendError_run in Hrun. injection Hrun as <- <-.
      destruct (isOpen w ws); new_events; repeat split; try done;
        repeat constructor. }
  destruct (e_redisFails env) eqn:Hredis.
  { unfold handleSendMessage in Hrun.
    rewrite Hsid, (truthy_Some sid Hne), Hparse, Hredis in Hrun.
    cbn [negb default] in Hrun.
    rewrite bind_run, checkRateLimit_fails, sendError_run in Hrun.
    injection Hrun as <- <-.
    destruct (isOpen w ws); new_events; repeat split; try done;
      repeat constructor. }
  rewrite (handleSendMessage_checked w ws state sid text _ env Hsid Hne Hparse Hredis) in Hrun.
  destruct (attemptsInWindow _ _ _ _ <? 30) eqn:Hcount.
  2:{ rewrite sendError_run in Hrun. injection Hrun as <- <-.
      apply Z.ltb_ge in Hcount.
      destruct (isOpen _ ws); new_events; repeat split; try done;
        repeat constructor; intros; lia. }
  rewrite bind_run, findUniqueSession_run in Hrun.
  destruct (e_dbFails env SendFindSession) eqn:Hdb.
  { rewrite sendError_run in Hrun. injection Hrun as <- <-.
    destruct (isOpen _ ws); new_events; repeat split; try done;
      repeat constructor. }
  cbn [chatSession attemptRecorded set_redis] in Hrun.
  rewrite Hnone in Hrun. cbn [fmap option_fmap option_map negb] in Hrun.
  rewrite bool_decide_eq_false_2 in Hrun by discriminate. cbn [negb] in Hrun.
  rewrite sendError_run in Hrun. injection Hrun as <- <-.
  destruct (isOpen _ ws) eqn:Hopen; new_events; repeat split; try done;
    repeat constructor.
Qed.

End SendErrors.

Section Replies.

Context {cfg : Config}.

Lemma getAIResponse_run (messages : list AIChatMessage) (outcome : FetchOutcome) (w : World) :
  getAIResponse messages outcome w =
  (Done (aiResultOf outcome),
   set_trace (fun t => t ++ [EvFetch (mkAIChatMessage ai_system SYSTEM_PROMPT :: messages)]) w).
Proof.
  unfold getAIResponse, aiResultOf. monad_unfold.
  destruct outcome as [| body | | text]; try reflexivity.
  destruct (truthy text); reflexivity.
Qed.


End Replies.

Section Reach.

Context {cfg : Config}.

Lemma handleSendMessage_reached (w : World) (ws : WsId) (state : ClientState)
    (payload : option Json) (env : Env) (sid text : string) :
  sendReachesSave w state payload env sid text ->
  handleSendMessage ws state payload env w =
  saveMessage state sid text env (attemptRecorded state env w).
Proof.
  intros [Hsid Hne Hparse Hredis Hcount Hdb Hact].
  rewrite (handleSendMessage_checked w ws state sid text payload env Hsid Hne Hparse Hredis).
  apply Z.ltb_lt in Hcount. rewrite Hcount.
  rewrite bind_run, findUniqueSession_run, Hdb.
  cbn [chatSession attemptRecorded set_redis]. rewrite Hact.
  rewrite bool_decide_eq_true_2 by reflexivity. reflexivity.
Qed.

(** When some guard does not pass, the handler persists nothing and at most
    one error envelope goes to the sender. *)
Lemma handleSendMessage_rejected (w : World) (ws : WsId) (state : ClientState)
    (message : Json) (env : Env) :
  clients w !! ws = Some state ->
  hasType "SEND_MESSAGE" message ->
  (forall sid text, ~ sendReachesSave w state (payloadOf message) env sid text) ->
  let w' := exec (onMessage ws (Some message) env) w in
  chatMessage w' = chatMessage w /\
  (newEvents w w' = [] \/
   exists code text, newEvents w w' = [EvSend ws (ERROR code text)]).
Proof.
  intros Hst Hty Hno w'. subst w'. unfold exec.
  destruct (onMessage ws (Some message) env w) as [o w'] eqn:Hrun. cbn [snd].
  unfold onMessage in Hrun. rewrite tryCatch_run in Hrun.
  rewrite (handleMessage_send w ws state message env Hst Hty) in Hrun.
  destruct (truthy (sessionId state)) eqn:Htr.
  2:{ unfold handleSendMessage in Hrun. rewrite Htr in Hrun. cbn [negb] in Hrun.
      rewrite sendError_run in Hrun. injection Hrun as <- <-.
      destruct (isOpen w ws); new_events; split; eauto. }
  destruct (truthy_inv _ Htr) as (sid & Hsid & Hne).
  destruct (WsSendMessageSchema_safeParse (payloadOf message)) as [text|] eqn:Hparse.
  2:{ unfold handleSendMessage in Hrun.
      rewrite Htr, Hparse in Hrun. cbn [negb] in Hrun.
      rewrite sendError_run in Hrun. injection Hrun as <- <-.
      destruct (isOpen w ws); new_events; split; eauto. }
  destruct (e_redisFails env) eqn:Hredis.
  { unfold handleSendMessage in Hrun.
    rewrite Htr, Hparse, Hredis in Hrun. cbn [negb] in Hrun.
    rewrite bind_run, checkRateLimit_fails, sendError_run in Hrun.
    injection Hrun as <- <-.
    destruct (isOpen w ws); new_events; split; eauto. }
  rewrite (handleSendMessage_checked w ws state sid text _ env Hsid Hne Hparse Hredis) in Hrun.
  destruct (attemptsInWindow _ _ _ _ <? 30) eqn:Hcount.
  2:{ rewrite sendError_run in Hrun. injection Hrun as <- <-.
      destruct (isOpen _ ws); new_events; split; eauto. }
  rewrite bind_run, findUniqueSession_run in Hrun.
  destruct (e_dbFails env SendFindSession) eqn:Hdb.
  { rewrite sendError_run in Hrun. injection Hrun as <- <-.
    destruct (isOpen _ ws); new_events; split; eauto. }
  destruct (bool_decide (status <$> chatSession (attemptRecorded state env w) !! sid = Some ACTIVE))
    eqn:Hact.
  { exfalso. apply (Hno sid text). constructor; try assumption.
    - by apply Z.ltb_lt.
    - by apply bool_decide_eq_true_1 in Hact. }
  cbn [negb] in Hrun.
  rewrite sendError_run in Hrun. injection Hrun as <- <-.
  destruct (isOpen _ ws); new_events; split; eauto.
Qed.

Lemma sendReachesSave_dec (w : World) (state : ClientState)
    (payload : option Json) (env : Env) :
  (exists sid text, sendReachesSave w state payload env sid text) \/
  (forall sid text, ~ sendReachesSave w state payload env sid text).
Proof.
  destruct (sessionId state) as [sid|] eqn:Hsid.
  2:{ right. intros ? ? [H]. congruence. }
  destruct (WsSendMessageSchema_safeParse payload) as [text|] eqn:Hparse.
  2:{ right. intros ? ? [? ? H]. congruence. }
  destruct (decide (sid = "")) as [->|Hne].
  { right. intros ? ? [H H']. congruence. }
  destruct (e_redisFails env) eqn:Hredis.
  { right. intros ? ? [? ? ? H]. congruence. }
  destruct (decide (attemptsInWindow (redis w) ("ws-message:" +:+ ip state) (e_now env) 60 < 30))
    as [Hc|Hc].
  2:{ right. intros sid' ? [H ? ? ? H']. replace sid' with sid in H' by congruence. contradiction. }
  destruct (e_dbFails env SendFindSession) eqn:Hdb.
  { right. intros ? ? [? ? ? ? ? H]. congruence. }
  destruct (decide (status <$> chatSession w !! sid = Some ACTIVE)) as [Ha|Ha].
  - left. exists sid, text. by constructor.
  - right. intros ? ? [H ? ? ? ? ? H']. congruence.
Qed.

Lemma saveMessage_run (state : ClientState) (sid text : string) (env : Env) (w : World) :
  saveMessage state sid text env w =
  if e_dbFails env SendCreateMessage then (Thrown, w)
  else
    let row := senderRow state sid text env in
    let w1 := set_trace (fun t => t ++ broadcastEvents w sid (MESSAGE_RECEIVED row) None)
                (set_chatMessage (fun table => table ++ [row]) w) in
    match (if negb (isAdmin state) then aiReply sid env else ret tt) w1 with
    | (Done _, w2) => updateSession env SendUpdateSession sid (e_updatedAt env) w2
    | (Thrown, w2) => (Thrown, w2)
    end.
Proof.
  unfold saveMessage. rewrite bind_run, createMessage_run.
  destruct (e_dbFails env SendCreateMessage); [reflexivity|].
  rewrite bind_run, broadcastToSession_run, bind_run. reflexivity.
Qed.

End Reach.

Lemma broadcastEvents_quiet (w : World) (sid : string) (m : WsMessage) (x : option WsId) :
  isTypingMessage m = false -> Forall quiet (broadcastEvents w sid m x).
Proof.
  intros Hm. unfold broadcastEvents. constructor; [by split|].
  apply Forall_forall. intros ev Hev. apply list_elem_of_fmap in Hev as (c & -> & _).
  by split.
Qed.

Lemma sendError_quiet (w : World) (ws : WsId) (c m : string) :
  Forall quiet (if isOpen w ws then [EvSend ws (ERROR c m)] else []).
Proof. destruct (isOpen w ws); repeat constructor. Qed.


(** The last step of a send and the catch-all of [onMessage]: the
    timestamp update appends at most the catch-all's error envelope and
    leaves the message table as it is. *)
Lemma updateSession_caught (ws : WsId) (env : Env) (sid : string) (wx : World) :
  exists tail,
    trace (tryCatch (updateSession env SendUpdateSession sid (e_updatedAt env))
                    (sendError ws "INVALID_MESSAGE" "Failed to process message") wx).2
      = trace wx ++ tail /\
    Forall quiet tail /\
    chatMessage (tryCatch (updateSession env SendUpdateSession sid (e_updatedAt env))
                   (sendError ws "INVALID_MESSAGE" "Failed to process message") wx).2
      = chatMessage wx.
Proof.
  rewrite tryCatch_run, updateSession_run.
  destruct (e_dbFails env SendUpdateSession).
  - rewrite sendError_run. cbn [snd].
    exists (if isOpen wx ws
            then [EvSend ws (ERROR "INVALID_MESSAGE" "Failed to process message")]
            else []).
    split; [|split; [apply sendError_quiet|]];
      destruct (isOpen wx ws); cbn; by rewrite ?app_nil_r.
  - destruct (chatSession wx !! sid).
    + exists []. cbn. by rewrite app_nil_r.
    + rewrite sendError_run. cbn [snd].
      exists (if isOpen wx ws
              then [EvSend ws (ERROR "INVALID_MESSAGE" "Failed to process message")]
              else []).
      split; [|split; [apply sendError_quiet|]];
        destruct (isOpen wx ws); cbn; by rewrite ?app_nil_r.
Qed.

Section Typing.

Context {cfg : Config}.

Lemma onMessage_send_reached (w : World) (ws : WsId) (state : ClientState)
    (message : Json) (env : Env) (sid text : string) :
  clients w !! ws = Some state ->
  hasType "SEND_MESSAGE" message ->
  sendReachesSave w state (payloadOf message) env sid text ->
  onMessage ws (Some message) env w =
  tryCatch (saveMessage state sid text env)
           (sendError ws "INVALID_MESSAGE" "Failed to process message")
           (attemptRecorded state env w).
Proof.
  intros Hst Hty Hreach. unfold onMessage. rewrite !tryCatch_run.
  rewrite (handleMessage_send w ws state message env Hst Hty).
  rewrite (handleSendMessage_reached w ws state _ env sid text Hreach). reflexivity.
Qed.


End Typing.

Section AdminAndFailures.

Context {cfg : Config}.

(** C8: a send by a connection whose admin flag is set makes no generator
    call and emits no typing indicator; it persists nothing, or exactly one
    row with role ASSISTANT whose content is the attribution marker followed
    by the submitted text; and when the guards pass (valid payload, under
    the limit, session ACTIVE) and the write succeeds, that row is persisted
    and broadcast as MESSAGE_RECEIVED. *)
Theorem admin_send_is_attributed (w : World) (ws : WsId) (state : ClientState)
    (message : Json) (env : Env) :
  clients w !! ws = Some state ->
  isAdmin state = true ->
  hasType "SEND_MESSAGE" message ->
  let w' := exec (onMessage ws (Some message) env) w in
  Forall quiet (newEvents w w') /\
  (chatMessage w' = chatMessage w \/
   exists sid text,
     sessionId state = Some sid /\
     WsSendMessageSchema_safeParse (payloadOf message) = Some text /\
     chatMessage w' =
       chatMessage w ++ [mkChatMessage (e_messageId env) sid ASSISTANT
                                       ("[Marin]: " +:+ text) (e_messageCreatedAt env)]) /\
  (forall sid text,
     sendReachesSave w state (payloadOf message) env sid text ->
     e_dbFails env SendCreateMessage = false ->
     let row := mkChatMessage (e_messageId env) sid ASSISTANT
                              ("[Marin]: " +:+ text) (e_messageCreatedAt env) in
     chatMessage w' = chatMessage w ++ [row] /\
     exists tail, newEvents w w' = broadcastEvents w sid (MESSAGE_RECEIVED row) None ++ tail).
Proof.
  intros Hst Hadm Hty w'.
  assert (Hrow : forall sid text,
    senderRow state sid text env =
    mkChatMessage (e_messageId env) sid ASSISTANT ("[Marin]: " +:+ text)
                  (e_messageCreatedAt env)).
  { intros. unfold senderRow. by rewrite Hadm. }
  destruct (sendReachesSave_dec w state (payloadOf message) env)
    as [(sid & text & Hreach) | Hno].
  2:{ destruct (handleSendMessage_rejected w ws state message env Hst Hty Hno)
        as [Hdb Hev]. fold w' in Hdb, Hev.
      split; [|split; [by left|]].
      - destruct Hev as [-> | (c & m & ->)]; repeat constructor.
      - intros sid text Hreach. by destruct (Hno sid text). }
  assert (Hrun : w' = (tryCatch (saveMessage state sid text env)
           (sendError ws "INVALID_MESSAGE" "Failed to process message")
           (attemptRecorded state env w)).2).
  { subst w'. unfold exec.
    by rewrite (onMessage_send_reached w ws state message env sid text Hst Hty Hreach). }
  rewrite tryCatch_run, saveMessage_run in Hrun.
  destruct (e_dbFails env SendCreateMessage) eqn:Hcreate.
  { rewrite sendError_run in Hrun. cbn [snd] in Hrun.
    split; [|split; [left|]].
    - rewrite Hrun. destruct (isOpen _ ws); new_events; repeat constructor.
    - rewrite Hrun. by destruct (isOpen _ ws).
    - discriminate. }
  cbv zeta in Hrun. rewrite Hadm, Hrow in Hrun. cbn [negb] in Hrun.
  unfold ret in Hrun. rewrite <- tryCatch_run in Hrun.
  set (row := mkChatMessage (e_messageId env) sid ASSISTANT ("[Marin]: " +:+ text)
                            (e_messageCreatedAt env)) in *.
  set (w1 := set_trace _ _) in Hrun.
  destruct (updateSession_caught ws env sid w1) as (tail & Htail & Hq & Hdb).
  rewrite <- Hrun in Htail, Hdb.
  assert (Hev : newEvents w w' =
                broadcastEvents w sid (MESSAGE_RECEIVED row) None ++ tail).
  { unfold newEvents. rewrite Htail. subst w1. new_events.
    by rewrite <- app_assoc, drop_app_length. }
  split; [|split].
  - rewrite Hev. apply Forall_app. split; [by apply broadcastEvents_quiet | done].
  - right. exists sid, text. split; [apply Hreach|]. split; [apply Hreach|].
    rewrite Hdb. reflexivity.
  - intros sid' text' Hreach' _.
    assert (sid' = sid) as ->.
    { destruct Hreach, Hreach'. congruence. }
    assert (text' = text) as ->.
    { destruct Hreach, Hreach'. congruence. }
    split; [rewrite Hdb; reflexivity | by exists tail].
Qed.

(** C6, as amended: when the sender's row cannot be written, nothing is
    persisted or broadcast and the catch-all of the message callback
    answers the sender, if its socket is open, with the one error envelope
    INVALID_MESSAGE. *)
Theorem persistence_failure_is_invalid_message (w : World) (ws : WsId)
    (state : ClientState) (message : Json) (env : Env) (sid text : string) :
  clients w !! ws = Some state ->
  hasType "SEND_MESSAGE" message ->
  sendReachesSave w state (payloadOf message) env sid text ->
  e_dbFails env SendCreateMessage = true ->
  let w' := exec (onMessage ws (Some message) env) w in
  chatMessage w' = chatMessage w /\
  newEvents w w' =
    if isOpen w ws
    then [EvSend ws (ERROR "INVALID_MESSAGE" "Failed to process message")]
    else [].
Proof.
  intros Hst Hty Hreach Hcreate w'. subst w'. unfold exec.
  rewrite (onMessage_send_reached w ws state message env sid text Hst Hty Hreach).
  rewrite tryCatch_run, saveMessage_run, Hcreate, sendError_run. cbn [snd].
  change (isOpen (attemptRecorded state env w) ws) with (isOpen w ws).
  destruct (isOpen w ws); new_events; by rewrite ?drop_all.
Qed.

(** What a send does when the limiter's store cannot be reached: the
    exception of [checkRateLimit] ends the handler, nothing is persisted or
    broadcast, and the catch-all answers INVALID_MESSAGE. *)
Lemma limiter_failure_is_invalid_message (w : World) (ws : WsId)
    (state : ClientState) (message : Json) (env : Env) (sid text : string) :
  clients w !! ws = Some state ->
  hasType "SEND_MESSAGE" message ->
  sessionId state = Some sid -> sid <> "" ->
  WsSendMessageSchema_safeParse (payloadOf message) = Some text ->
  e_redisFails env = true ->
  let w' := exec (onMessage ws (Some message) env) w in
  chatMessage w' = chatMessage w /\
  newEvents w w' =
    if isOpen w ws
    then [EvSend ws (ERROR "INVALID_MESSAGE" "Failed to process message")]
    else [].
Proof.
  intros Hst Hty Hsid Hne Hparse Hredis w'. subst w'. unfold exec, onMessage.
  rewrite tryCatch_run, (handleMessage_send w ws state message env Hst Hty).
  unfold handleSendMessage.
  rewrite Hsid, (truthy_Some sid Hne), Hparse, Hredis. cbn [negb default].
  rewrite bind_run, checkRateLimit_fails, sendError_run. cbn [snd].
  destruct (isOpen w ws); new_events; by rewrite ?drop_all.
Qed.

End AdminAndFailures.

(** ** The history window *)

Lemma insertByCreatedAt_length (m : ChatMessage) (rows : list ChatMessage) :
  length (insertByCreatedAt m rows) = S (length rows).
Proof.
  induction rows as [|x rest IH]; cbn; [done|].
  destruct (createdAt m <? createdAt x); cbn; by rewrite ?IH.
Qed.

Lemma insertByCreatedAt_Forall (P : ChatMessage -> Prop) (m : ChatMessage)
    (rows : list ChatMessage) :
  P m -> Forall P rows -> Forall P (insertByCreatedAt m rows).
Proof.
  intros Hm. induction 1 as [|x rest Hx Hrest IH]; cbn; [by repeat constructor|].
  destruct (createdAt m <? createdAt x); by repeat constructor.
Qed.

(** A row at least as late as every row of the list is put last. *)
Lemma insertByCreatedAt_latest (m : ChatMessage) (rows : list ChatMessage) :
  Forall (fun x => createdAt x <= createdAt m) rows ->
  insertByCreatedAt m rows = rows ++ [m].
Proof.
  induction 1 as [|x rest Hx Hrest IH]; cbn; [done|].
  destruct (Z.ltb_spec (createdAt m) (createdAt x)); [lia|]. by rewrite IH.
Qed.

Lemma orderByCreatedAtAsc_snoc (rows : list ChatMessage) (m : ChatMessage) :
  orderByCreatedAtAsc (rows ++ [m]) = insertByCreatedAt m (orderByCreatedAtAsc rows).
Proof. unfold orderByCreatedAtAsc. by rewrite foldl_app. Qed.

Lemma orderByCreatedAtAsc_length (rows : list ChatMessage) :
  length (orderByCreatedAtAsc rows) = length rows.
Proof.
  induction rows as [|m rows IH] using rev_ind; [done|].
  by rewrite orderByCreatedAtAsc_snoc, insertByCreatedAt_length, length_app, IH, Nat.add_1_r.
Qed.

Lemma orderByCreatedAtAsc_Forall (P : ChatMessage -> Prop) (rows : list ChatMessage) :
  Forall P rows -> Forall P (orderByCreatedAtAsc rows).
Proof.
  induction rows as [|m rows IH] using rev_ind; [done|].
  rewrite Forall_app, Forall_singleton. intros [Hrows Hm].
  rewrite orderByCreatedAtAsc_snoc. apply insertByCreatedAt_Forall; auto.
Qed.

(** Once a session holds twenty rows, a row written later does not enter
    the window of [take: 20]: the query answers as it did before. *)
Lemma findMany_ignores_later_row (sid : string) (table : list ChatMessage)
    (row : ChatMessage) :
  (20 <= length (filter (fun m => cm_sessionId m = sid) table))%nat ->
  Forall (fun m => cm_sessionId m = sid -> createdAt m <= createdAt row) table ->
  findManyMessages sid (Some 20%nat) (table ++ [row]) =
  findManyMessages sid (Some 20%nat) table.
Proof.
  intros Hfull Hlate. unfold findManyMessages. rewrite filter_app.
  destruct (decide (cm_sessionId row = sid)) as [Hrow|Hrow].
  - rewrite (filter_cons_True _ row []) by done. rewrite filter_nil.
    rewrite orderByCreatedAtAsc_snoc, insertByCreatedAt_latest.
    + rewrite take_app_le; [done|]. by rewrite orderByCreatedAtAsc_length.
    + apply orderByCreatedAtAsc_Forall, Forall_forall.
      intros m Hm. apply list_elem_of_filter in Hm as [Hsid Hin].
      rewrite Forall_forall in Hlate. by apply Hlate.
  - rewrite (filter_cons_False _ row []) by done. by rewrite filter_nil, app_nil_r.
Qed.

(** So the history [aiReply] reads after the sender's row was written is
    the history of the table without that row. *)
Lemma history_ignores_sent_row (sid : string) (w : World) (row : ChatMessage) :
  (20 <= length (filter (fun m => cm_sessionId m = sid) (chatMessage w)))%nat ->
  Forall (fun m => cm_sessionId m = sid -> createdAt m <= createdAt row) (chatMessage w) ->
  historyFor sid (set_chatMessage (fun table => table ++ [row]) w) = historyFor sid w.
Proof.
  intros Hfull Hlate. unfold historyFor. cbn [chatMessage set_chatMessage].
  by rewrite findMany_ignores_later_row.
Qed.

(** ** The registry *)

Lemma leave_if_bound_run (ws : WsId) (bound : option string) (w : World) :
  (if truthy bound then leaveSession ws (default "" bound) else ret tt) w =
  (Done tt, afterLeave ws bound w).
Proof.
  unfold afterLeave. destruct (truthy bound); [|reflexivity].
  by rewrite leaveSession_run.
Qed.

Lemma registryOk_frame (w w' : World) :
  registryOk w ->
  clients w' = clients w -> sessionClients w' = sessionClients w ->
  nextWs w' = nextWs w ->
  registryOk w'.
Proof.
  intros [H1 H2 H3 H4] Hc Hs Hn.
  constructor; rewrite ?Hc, ?Hs, ?Hn; assumption.
Qed.

Lemma setDelete_spec (ws x : WsId) (members : list WsId) :
  x ∈ setDelete ws members <-> x <> ws /\ x ∈ members.
Proof. unfold setDelete. by rewrite list_elem_of_filter. Qed.

Lemma setAdd_spec (ws x : WsId) (members : list WsId) :
  x ∈ setAdd ws members <-> x = ws \/ x ∈ members.
Proof.
  unfold setAdd. destruct (decide (ws ∈ members)).
  - split; [by right | intros [-> | ?]; assumption].
  - rewrite elem_of_app, list_elem_of_singleton. tauto.
Qed.

Lemma setAdd_nonempty (ws : WsId) (members : list WsId) : setAdd ws members <> [].
Proof.
  intros H. assert (Hin : ws ∈ setAdd ws members) by (apply setAdd_spec; by left).
  rewrite H in Hin. by apply not_elem_of_nil in Hin.
Qed.

(** After the conditional leave no set holds the socket, no set is empty,
    and every set is a subset of what it was. *)
Lemma afterLeave_spec (ws : WsId) (st : ClientState) (w : World) :
  registryOk w ->
  clients w !! ws = Some st ->
  let wl := afterLeave ws (sessionId st) w in
  clients wl = clients w /\ nextWs wl = nextWs w /\
  forall s members,
    sessionClients wl !! s = Some members ->
    members <> [] /\ (ws ∉ members) /\
    exists orig, sessionClients w !! s = Some orig /\ forall x, x ∈ members -> x ∈ orig.
Proof.
  intros [Hne Hbound Htruthy Halloc] Hst wl. subst wl. unfold afterLeave.
  assert (Hfree : forall s orig,
            sessionId st <> Some s -> sessionClients w !! s = Some orig -> ws ∉ orig).
  { intros s orig Hs Hlook Hin.
    destruct (Hbound s orig ws Hlook Hin) as (st' & Hst' & Hsid). congruence. }
  destruct (truthy (sessionId st)) eqn:Htr.
  2:{ split; [done|]. split; [done|]. intros s members Hlook.
      split; [by eapply Hne|]. split; [|by eauto].
      eapply Hfree; [|exact Hlook].
      destruct (sessionId st) as [old|] eqn:Hold; [|done].
      intros [= ->]. cbn in Htr.
      destruct (String.eqb_spec s ""); [|discriminate]. subst s.
      by apply (Htruthy ws st Hst). }
  destruct (truthy_inv _ Htr) as (old & Hold & Holdne). rewrite Hold. cbn [default from_option id].
  rewrite leaveSession_run. cbn [snd].
  destruct (sessionClients w !! old) as [orig|] eqn:Horig.
  2:{ split; [done|]. split; [done|]. intros s members Hlook.
      split; [by eapply Hne|]. split; [|by eauto].
      eapply Hfree; [|exact Hlook]. rewrite Hold. intros [= ->]. congruence. }
  destruct (decide (length (setDelete ws orig) = 0%nat)) as [Hlen|Hlen].
  - split; [done|]. split; [done|]. intros s members. cbn.
    destruct (decide (s = old)) as [->|Hs].
    + by rewrite lookup_delete_eq.
    + rewrite lookup_delete_ne by done. intros Hlook.
      split; [by eapply Hne|]. split; [|by eauto].
      eapply Hfree; [|exact Hlook]. rewrite Hold. congruence.
  - split; [done|]. split; [done|]. intros s members. cbn.
    destruct (decide (s = old)) as [->|Hs].
    + rewrite lookup_insert_eq. intros [= <-].
      split; [by intros Habs; rewrite Habs in Hlen|].
      split; [rewrite setDelete_spec; tauto|].
      exists orig. split; [done|]. intros x Hx. by apply setDelete_spec in Hx as [_ ?].
    + rewrite lookup_insert_ne by done. intros Hlook.
      split; [by eapply Hne|]. split; [|by eauto].
      eapply Hfree; [|exact Hlook]. rewrite Hold. congruence.
Qed.

Lemma registryOk_afterJoin (ws : WsId) (st : ClientState) (sid : string) (w : World) :
  registryOk w ->
  clients w !! ws = Some st ->
  sid <> "" ->
  registryOk (afterJoin ws (sessionId st) sid w).
Proof.
  intros Hok Hst Hsid.
  destruct (afterLeave_spec ws st w Hok Hst) as (Hc & Hn & Hsets).
  destruct Hok as [Hne Hbound Htruthy Halloc].
  unfold afterJoin.
  set (wl := afterLeave ws (sessionId st) w) in *.
  constructor; cbn [sessionClients clients nextWs set_sessionClients set_clients].
  - intros s members. destruct (decide (s = sid)) as [->|Hs].
    + rewrite lookup_insert_eq. intros [= <-]. apply setAdd_nonempty.
    + rewrite lookup_insert_ne by done. intros Hlook. by apply (Hsets s members).
  - intros s members x. rewrite Hc. destruct (decide (s = sid)) as [->|Hs].
    + rewrite lookup_insert_eq. intros [= <-]. rewrite setAdd_spec.
      intros [-> | Hx].
      * rewrite lookup_alter_eq, Hst. cbn. eauto.
      * destruct (sessionClients wl !! sid) as [members|] eqn:Hlook;
          [|by apply not_elem_of_nil in Hx].
        cbn in Hx. destruct (Hsets sid members Hlook) as (_ & Hfree & orig & Horig & Hsub).
        assert (x <> ws) by congruence.
        rewrite lookup_alter_ne by done. eapply Hbound; eauto.
    + rewrite lookup_insert_ne by done. intros Hlook Hx.
      destruct (Hsets s members Hlook) as (_ & Hfree & orig & Horig & Hsub).
      assert (x <> ws) by congruence.
      rewrite lookup_alter_ne by done. eapply Hbound; eauto.
  - intros x st'. rewrite Hc. destruct (decide (x = ws)) as [->|Hx].
    + rewrite lookup_alter_eq, Hst. cbn. intros [= <-]. cbn. congruence.
    + rewrite lookup_alter_ne by done. apply Htruthy.
  - intros x st'. rewrite Hc, Hn. destruct (decide (x = ws)) as [->|Hx].
    + intros _. by eapply Halloc.
    + rewrite lookup_alter_ne by done. apply Halloc.
Qed.


(** LEAVE_SESSION on a bound connection. *)
Lemma registryOk_unbind (ws : WsId) (st : ClientState) (w : World) :
  registryOk w ->
  clients w !! ws = Some st ->
  registryOk (set_clients (alter (fun st => mkClientState None (isAdmin st) (ip st)) ws)
                (afterLeave ws (sessionId st) w)).
Proof.
  intros Hok Hst.
  destruct (afterLeave_spec ws st w Hok Hst) as (Hc & Hn & Hsets).
  destruct Hok as [Hne Hbound Htruthy Halloc].
  set (wl := afterLeave ws (sessionId st) w) in *.
  constructor; cbn [sessionClients clients nextWs set_sessionClients set_clients].
  - intros s members Hlook. by apply (Hsets s members).
  - intros s members x Hlook Hx. rewrite Hc.
    destruct (Hsets s members Hlook) as (_ & Hfree & orig & Horig & Hsub).
    assert (x <> ws) by congruence.
    rewrite lookup_alter_ne by done. eapply Hbound; eauto.
  - intros x st'. rewrite Hc. destruct (decide (x = ws)) as [->|Hx].
    + rewrite lookup_alter_eq, Hst. cbn. by intros [= <-].
    + rewrite lookup_alter_ne by done. apply Htruthy.
  - intros x st'. rewrite Hc, Hn. destruct (decide (x = ws)) as [->|Hx].
    + intros _. by eapply Halloc.
    + rewrite lookup_alter_ne by done. apply Halloc.
Qed.

(** The close callback. *)
Lemma registryOk_forget (ws : WsId) (st : ClientState) (w : World) :
  registryOk w ->
  clients w !! ws = Some st ->
  registryOk (set_clients (delete ws) (afterLeave ws (sessionId st) w)).
Proof.
  intros Hok Hst.
  destruct (afterLeave_spec ws st w Hok Hst) as (Hc & Hn & Hsets).
  destruct Hok as [Hne Hbound Htruthy Halloc].
  set (wl := afterLeave ws (sessionId st) w) in *.
  constructor; cbn [sessionClients clients nextWs set_sessionClients set_clients].
  - intros s members Hlook. by apply (Hsets s members).
  - intros s members x Hlook Hx. rewrite Hc.
    destruct (Hsets s members Hlook) as (_ & Hfree & orig & Horig & Hsub).
    assert (x <> ws) by congruence.
    rewrite lookup_delete_ne by done. eapply Hbound; eauto.
  - intros x st'. rewrite Hc. destruct (decide (x = ws)) as [->|Hx].
    + by rewrite lookup_delete_eq.
    + rewrite lookup_delete_ne by done. apply Htruthy.
  - intros x st'. rewrite Hc, Hn. destruct (decide (x = ws)) as [->|Hx].
    + by rewrite lookup_delete_eq.
    + rewrite lookup_delete_ne by done. apply Halloc.
Qed.

Lemma registryOk_setIsAdmin (ws : WsId) (v : bool) (w : World) :
  registryOk w ->
  registryOk (set_clients (alter (fun st => mkClientState (sessionId st) v (ip st)) ws) w).
Proof.
  intros [Hne Hbound Htruthy Halloc].
  constructor; cbn [sessionClients clients nextWs set_sessionClients set_clients].
  - done.
  - intros s members x Hlook Hx.
    destruct (Hbound s members x Hlook Hx) as (st & Hst & Hsid).
    destruct (decide (x = ws)) as [->|Hne'].
    + rewrite lookup_alter_eq, Hst. cbn. eauto.
    + rewrite lookup_alter_ne by done. eauto.
  - intros x st'. destruct (decide (x = ws)) as [->|Hx].
    + rewrite lookup_alter_eq.
      destruct (clients w !! ws) as [st|] eqn:Hst; [|done].
      cbn. intros [= <-]. cbn. by eapply Htruthy.
    + rewrite lookup_alter_ne by done. apply Htruthy.
  - intros x st'. destruct (decide (x = ws)) as [->|Hx].
    + rewrite lookup_alter_eq.
      destruct (clients w !! ws) as [st|] eqn:Hst; [|done].
      intros _. by eapply Halloc.
    + rewrite lookup_alter_ne by done. apply Halloc.
Qed.

Lemma registryOk_connection (xff remote : option string) (w : World) :
  registryOk w -> registryOk (exec (onConnection xff remote) w).
Proof.
  intros [Hne Hbound Htruthy Halloc]. unfold exec, onConnection. monad_unfold.
  constructor; cbn [sessionClients clients nextWs].
  - done.
  - intros s members x Hlook Hx.
    destruct (Hbound s members x Hlook Hx) as (st & Hst & Hsid).
    assert (x <> nextWs w) by (apply Halloc in Hst; lia).
    rewrite lookup_insert_ne by done. eauto.
  - intros x st'. destruct (decide (x = nextWs w)) as [->|Hx].
    + rewrite lookup_insert_eq. by intros [= <-].
    + rewrite lookup_insert_ne by done. apply Htruthy.
  - intros x st'. destruct (decide (x = nextWs w)) as [->|Hx].
    + intros _. lia.
    + rewrite lookup_insert_ne by done. intros Hst. apply Halloc in Hst. lia.
Qed.

Lemma registryOk_close (ws : WsId) (w : World) :
  registryOk w ->
  registryOk (exec (onClose ws)
                (mkWorld (clients w) (sessionClients w) (<[ws := RS_CLOSED]> (readyState w))
                         (nextWs w) (chatSession w) (chatMessage w) (redis w) (trace w))).
Proof.
  intros Hok. set (wc := mkWorld _ _ _ _ _ _ _ _).
  assert (Hokc : registryOk wc) by (by eapply registryOk_frame).
  unfold exec, onClose. rewrite bind_run. unfold get. rewrite bind_run.
  change (clients wc) with (clients w).
  destruct (clients w !! ws) as [st|] eqn:Hst.
  - rewrite leave_if_bound_run. cbn [snd modify].
    by apply registryOk_forget.
  - cbn. eapply registryOk_frame; [exact Hok| |done|done]. cbn.
    by apply delete_id.
Qed.

(** *** Frame conditions of the handlers *)

Section Frames.

Context {P : Event -> Prop} (R : World -> World -> Prop) `{!Frame P R}.



Lemma preserves_ret {A} (a : A) : preserves R (ret a).
Proof. intros w. apply (frame_refl (P:=P)). Qed.

Lemma preserves_throw {A} : preserves R (@throw A).
Proof. intros w. apply (frame_refl (P:=P)). Qed.

Lemma preserves_bind {A B} (m : M A) (k : A -> M B) :
  preserves R m -> (forall a, preserves R (k a)) -> preserves R (bind m k).
Proof.
  intros Hm Hk w. rewrite bind_run. specialize (Hm w).
  destruct (m w) as [[a|] w1]; cbn [snd] in *; [|done].
  eapply (frame_trans (P:=P)); [exact Hm | apply Hk].
Qed.

Lemma preserves_tryCatch {A} (m h : M A) :
  preserves R m -> preserves R h -> preserves R (tryCatch m h).
Proof.
  intros Hm Hh w. rewrite tryCatch_run. specialize (Hm w).
  destruct (m w) as [[a|] w1]; cbn [snd] in *; [done|].
  eapply (frame_trans (P:=P)); [exact Hm | apply Hh].
Qed.

Lemma preserves_sendError (ws : WsId) (c m : string) :
  P (EvSend ws (ERROR c m)) -> preserves R (sendError ws c m).
Proof.
  intros HP w. rewrite sendError_run. cbn [snd].
  destruct (isOpen w ws); [|apply (frame_refl (P:=P))]. apply frame_emit. by constructor.
Qed.

Lemma preserves_broadcastToSession (sid : string) (m : WsMessage) (x : option WsId) :
  P (EvBroadcast sid m x) -> (forall c, P (EvSend c m)) ->
  preserves R (broadcastToSession sid m x).
Proof.
  intros HB HS w. rewrite broadcastToSession_run. cbn [snd]. apply frame_emit.
  unfold broadcastEvents. constructor; [done|].
  apply Forall_forall. intros ev Hev. by apply list_elem_of_fmap in Hev as (c & -> & _).
Qed.

Lemma preserves_findUniqueSession (env : Env) (c : DbCall) (id : string) :
  preserves R (findUniqueSession env c id).
Proof.
  intros w. rewrite findUniqueSession_run. destruct (e_dbFails env c); apply (frame_refl (P:=P)).
Qed.

Lemma preserves_findMany (env : Env) (c : DbCall) (sid : string) (limit : option nat) :
  preserves R (findMany env c sid limit).
Proof.
  intros w. rewrite findMany_run. destruct (e_dbFails env c); apply (frame_refl (P:=P)).
Qed.

Lemma preserves_createMessage (env : Env) (c : DbCall) (row : ChatMessage) :
  preserves R (createMessage env c row).
Proof.
  intros w. rewrite createMessage_run.
  destruct (e_dbFails env c); [apply (frame_refl (P:=P)) | apply (frame_append (P:=P))].
Qed.

Lemma preserves_updateSession (env : Env) (c : DbCall) (id : string) (t : Z) :
  preserves R (updateSession env c id t).
Proof.
  intros w. rewrite updateSession_run. destruct (e_dbFails env c); [apply (frame_refl (P:=P))|].
  destruct (chatSession w !! id); [apply (frame_touch (P:=P)) | apply (frame_refl (P:=P))].
Qed.

Context {cfg : Config}.

Lemma preserves_getAIResponse (messages : list AIChatMessage) (outcome : FetchOutcome) :
  preserves R (getAIResponse messages outcome).
Proof.
  intros w. rewrite getAIResponse_run. cbn [snd]. apply frame_emit.
  constructor; [apply frame_fetch | constructor].
Qed.

Lemma preserves_aiReply (sid : string) (env : Env) : preserves R (aiReply sid env).
Proof.
  unfold aiReply.
  apply preserves_bind; [apply preserves_findMany | intros history].
  apply preserves_bind; [apply preserves_broadcastToSession;
                          [apply frame_calls | intros c; by apply frame_frames] | intros _].
  apply preserves_bind; [apply preserves_getAIResponse | intros aiResult].
  apply preserves_bind; [apply preserves_broadcastToSession;
                          [apply frame_calls | intros c; by apply frame_frames] | intros _].
  destruct (truthy _); [|apply preserves_ret].
  apply preserves_bind; [apply preserves_createMessage | intros aiMessage].
  apply preserves_broadcastToSession; [apply frame_calls | intros c; by apply frame_frames].
Qed.

Lemma preserves_saveMessage (state : ClientState) (sid text : string) (env : Env) :
  preserves R (saveMessage state sid text env).
Proof.
  unfold saveMessage.
  apply preserves_bind; [apply preserves_createMessage | intros message].
  apply preserves_bind; [apply preserves_broadcastToSession;
                          [apply frame_calls | intros c; by apply frame_frames] | intros _].
  apply preserves_bind; [|intros _; apply preserves_updateSession].
  destruct (negb (isAdmin state)); [apply preserves_aiReply | apply preserves_ret].
Qed.

(** [handleSendMessage] after the rate-limit check. *)
Lemma preserves_send_checked (ws : WsId) (state : ClientState) (sid text : string)
    (env : Env) :
  P (EvSend ws (ERROR "SESSION_CLOSED" "This session has been closed")) ->
  preserves R (let* session := findUniqueSession env SendFindSession sid in
             if negb (bool_decide (status <$> session = Some ACTIVE))
             then sendError ws "SESSION_CLOSED" "This session has been closed"
             else saveMessage state sid text env).
Proof.
  intros HP. apply preserves_bind; [apply preserves_findUniqueSession | intros session].
  destruct (negb _); [by apply preserves_sendError | apply preserves_saveMessage].
Qed.

End Frames.

Lemma sameRegistry_refl (w : World) : sameRegistry w w.
Proof. by repeat split. Qed.

Lemma sameRegistry_trans (a b c : World) :
  sameRegistry a b -> sameRegistry b c -> sameRegistry a c.
Proof.
  intros (H1 & H2 & H3 & H4) (G1 & G2 & G3 & G4).
  repeat split; congruence.
Qed.

#[global] Instance sameRegistry_frame : Frame (fun _ => True) sameRegistry.
Proof.
  constructor; try done.
  - apply sameRegistry_trans.
Qed.

Lemma keeps_sendError (ws : WsId) (c m : string) : keepsRegistry (sendError ws c m).
Proof. by apply (preserves_sendError sameRegistry). Qed.

Lemma keeps_broadcastToSession (sid : string) (m : WsMessage) (x : option WsId) :
  keepsRegistry (broadcastToSession sid m x).
Proof. by apply (preserves_broadcastToSession sameRegistry). Qed.

Lemma keeps_checkRateLimit (key : string) (limit window now : Z) (random : string)
    (fails : bool) :
  keepsRegistry (checkRateLimit key limit window now random fails).
Proof. intros w. destruct fails; by repeat split. Qed.

Section RegistryOfHandlers.

Context {cfg : Config}.

Lemma keeps_handleSendMessage (ws : WsId) (state : ClientState)
    (payload : option Json) (env : Env) :
  keepsRegistry (handleSendMessage ws state payload env).
Proof.
  unfold handleSendMessage.
  destruct (negb (truthy (sessionId state))); [apply keeps_sendError|].
  destruct (WsSendMessageSchema_safeParse payload) as [text|]; [|apply keeps_sendError].
  apply (preserves_bind sameRegistry); [apply keeps_checkRateLimit | intros rateResult].
  destruct (negb (allowed rateResult)); [apply keeps_sendError|].
  by apply (preserves_send_checked sameRegistry).
Qed.

End RegistryOfHandlers.

Lemma afterLeave_rest (ws : WsId) (bound : option string) (w : World) :
  chatSession (afterLeave ws bound w) = chatSession w /\
  chatMessage (afterLeave ws bound w) = chatMessage w /\
  redis (afterLeave ws bound w) = redis w /\
  trace (afterLeave ws bound w) = trace w /\
  readyState (afterLeave ws bound w) = readyState w /\
  clients (afterLeave ws bound w) = clients w.
Proof.
  unfold afterLeave. destruct (truthy bound); [|done].
  rewrite leaveSession_run. cbn [snd].
  destruct (sessionClients w !! default "" bound); [|done].
  by destruct (decide _).
Qed.

Section RegistryInvariant.

Context {cfg : Config}.

(** zod's uuid test rejects the empty string. *)
Hypothesis uuid_nonempty : isUuid "" = false.

Lemma safeParse_join_uuid (payload : option Json) (data : WsJoinSessionData) :
  WsJoinSessionSchema_safeParse payload = Some data -> j_sessionId data <> "".
Proof.
  unfold WsJoinSessionSchema_safeParse. intros H.
  destruct payload as [[| | | | |fields]|]; try discriminate.
  destruct (jsonGet "sessionId" fields) as [[| | |s| |]|]; try discriminate.
  destruct (isUuid s) eqn:Hs; [|discriminate].
  destruct (optionalBoolean (jsonGet "isAdmin" fields)); [|discriminate].
  destruct (optionalString (jsonGet "adminKey" fields)); [|discriminate].
  injection H as <-. cbn. intros ->. congruence.
Qed.

Lemma joinVerified_run (ws : WsId) (state : ClientState) (sid : string) (env : Env)
    (w : World) :
  joinVerified ws state sid env w =
  if e_dbFails env JoinFindSession then (Thrown, w)
  else match chatSession w !! sid with
       | None => sendError ws "SESSION_NOT_FOUND" "Chat session not found" w
       | Some session =>
           let wj := afterJoin ws (sessionId state) sid w in
           if e_dbFails env JoinFindMessages then (Thrown, wj)
           else (Done tt,
                 set_trace (fun t => t ++ [EvSend ws (SESSION_JOINED session
                                             (findManyMessages sid None (chatMessage w)))])
                           wj)
       end.
Proof.
  unfold joinVerified. rewrite bind_run, findUniqueSession_run.
  destruct (e_dbFails env JoinFindSession); [reflexivity|].
  destruct (chatSession w !! sid) as [session|]; [|reflexivity].
  rewrite bind_run, leave_if_bound_run, !bind_run. unfold setSessionId, modify.
  rewrite !bind_run, findMany_run. fold (afterJoin ws (sessionId state) sid w).
  destruct (e_dbFails env JoinFindMessages); [reflexivity|].
  unfold emit, modify. do 3 f_equal.
  unfold afterJoin. cbn [chatMessage set_sessionClients set_clients].
  by destruct (afterLeave_rest ws (sessionId state) w) as (_ & -> & _).
Qed.

Lemma registryOk_joinVerified (ws : WsId) (state st : ClientState) (sid : string)
    (env : Env) (w : World) :
  registryOk w ->
  clients w !! ws = Some st -> sessionId st = sessionId state ->
  sid <> "" ->
  registryOk (joinVerified ws state sid env w).2.
Proof.
  intros Hok Hst Hsame Hsid. rewrite joinVerified_run.
  destruct (e_dbFails env JoinFindSession); [done|].
  destruct (chatSession w !! sid) as [session|].
  - pose proof (registryOk_afterJoin ws st sid w Hok Hst Hsid) as Hj.
    rewrite Hsame in Hj. cbv zeta.
    destruct (e_dbFails env JoinFindMessages); [done|].
    by eapply registryOk_frame.
  - eapply registryOk_frame; [exact Hok | apply keeps_sendError..].
Qed.

Lemma registryOk_handleJoinSession (ws : WsId) (state : ClientState)
    (payload : option Json) (env : Env) (w : World) :
  registryOk w ->
  clients w !! ws = Some state ->
  registryOk (handleJoinSession ws state payload env w).2.
Proof.
  intros Hok Hst. unfold handleJoinSession.
  destruct (WsJoinSessionSchema_safeParse payload) as [data|] eqn:Hparse.
  2:{ eapply registryOk_frame; [exact Hok | apply keeps_sendError..]. }
  pose proof (safeParse_join_uuid payload data Hparse) as Hsid.
  destruct (default false (j_isAdmin data)).
  - destruct (negb (truthy (j_adminKey data)) || _).
    + eapply registryOk_frame; [exact Hok | apply keeps_sendError..].
    + rewrite bind_run. unfold setIsAdmin, modify.
      apply (registryOk_joinVerified ws state
               (mkClientState (sessionId state) true (ip state))).
      * by apply registryOk_setIsAdmin.
      * cbn. by rewrite lookup_alter_eq, Hst.
      * done.
      * done.
  - by apply (registryOk_joinVerified ws state state).
Qed.

Lemma registryOk_handleMessage (ws : WsId) (message : Json) (env : Env) (w : World) :
  registryOk w -> registryOk (handleMessage ws message env w).2.
Proof.
  intros Hok. unfold handleMessage. rewrite bind_run. unfold get.
  destruct (clients w !! ws) as [state|] eqn:Hst; [|done].
  assert (Hframe : forall m : M unit, keepsRegistry m -> registryOk (m w).2).
  { intros m Hm. eapply registryOk_frame; [exact Hok | apply Hm..]. }
  assert (Hunknown : forall type,
            registryOk ((match templateString type with
                         | Some text =>
                             sendError ws "UNKNOWN_MESSAGE_TYPE"
                                       ("Unknown message type: " +:+ text)
                         | None => throw
                         end) w).2).
  { intros type. destruct (templateString type); [|done].
    apply (Hframe (sendError _ _ _)); apply keeps_sendError. }
  rewrite bind_run.
  destruct message as [| b | n | s | items | fields]; cbn [property];
    try exact (Hunknown None); [done|].
  unfold ret.
  destruct (jsonGet "type" fields) as [[| | |t| |]|];
    try unknown_case Hunknown.
  repeat case_decide.
  - rewrite bind_run. by apply registryOk_handleJoinSession.
  - destruct (truthy (sessionId state)) eqn:Htr; [|done].
    rewrite bind_run.
    pose proof (registryOk_unbind ws state w Hok Hst) as Hu.
    unfold afterLeave in Hu. rewrite Htr in Hu.
    rewrite leaveSession_run in *. exact Hu.
  - rewrite bind_run. apply (Hframe (handleSendMessage _ _ _ _)).
    apply keeps_handleSendMessage.
  - destruct (truthy (sessionId state)); [|done].
    apply (Hframe (broadcastToSession _ _ _)). apply keeps_broadcastToSession.
  - destruct (truthy (sessionId state)); [|done].
    apply (Hframe (broadcastToSession _ _ _)). apply keeps_broadcastToSession.
  - unknown_case Hunknown.
Qed.

Lemma registryOk_onMessage (ws : WsId) (data : option Json) (env : Env) (w : World) :
  registryOk w -> registryOk (exec (onMessage ws data env) w).
Proof.
  intros Hok. unfold exec, onMessage. rewrite tryCatch_run.
  destruct data as [message|].
  - pose proof (registryOk_handleMessage ws message env w Hok) as Hm.
    destruct (handleMessage ws message env w) as [[[]|] w1]; cbn [snd] in *; [done|].
    eapply registryOk_frame; [exact Hm | apply keeps_sendError..].
  - eapply registryOk_frame; [exact Hok | apply keeps_sendError..].
Qed.

Lemma registryOk_step (w : World) (op : Op) : registryOk w -> registryOk (step w op).
Proof.
  intros Hok. destruct op as [xff remote | ws data env | ws | sessions messages store ready].
  - by apply registryOk_connection.
  - by apply registryOk_onMessage.
  - by apply registryOk_close.
  - by eapply registryOk_frame.
Qed.

Lemma registryOk_initial : registryOk initialWorld.
Proof. constructor; intros *; cbn; by rewrite lookup_empty. Qed.

Lemma registryOk_run (ops : list Op) (w : World) : registryOk w -> registryOk (run w ops).
Proof.
  revert w. induction ops as [|op ops IH]; intros w Hok; [done|].
  cbn. apply IH. by apply registryOk_step.
Qed.

End RegistryInvariant.

Section Joins.

Context {cfg : Config}.

Lemma onMessage_join_verified (w : World) (ws : WsId) (state : ClientState)
    (message : Json) (env : Env) (data : WsJoinSessionData) :
  clients w !! ws = Some state ->
  hasType "JOIN_SESSION" message ->
  WsJoinSessionSchema_safeParse (payloadOf message) = Some data ->
  adminClaimOk data ->
  onMessage ws (Some message) env w =
  tryCatch (joinVerified ws state (j_sessionId data) env)
           (sendError ws "INVALID_MESSAGE" "Failed to process message")
           (adminMarked ws data w).
Proof.
  intros Hst Hty Hparse Hadmin. unfold onMessage. rewrite !tryCatch_run.
  rewrite (handleMessage_join w ws state message env Hst Hty).
  unfold handleJoinSession, adminMarked. rewrite Hparse.
  unfold adminClaimOk in Hadmin.
  destruct (default false (j_isAdmin data)); [|reflexivity].
  destruct Hadmin as [Htr Hkey]; [done|].
  rewrite Htr, bool_decide_eq_true_2 by done. cbn [negb orb].
  by rewrite bind_run.
Qed.

Lemma adminMarked_lookup (ws : WsId) (data : WsJoinSessionData) (state : ClientState)
    (w : World) :
  clients w !! ws = Some state ->
  clients (adminMarked ws data w) !! ws =
  Some (mkClientState (sessionId state) (isAdmin state || default false (j_isAdmin data))
                      (ip state)).
Proof.
  intros Hst. unfold adminMarked. destruct (default false (j_isAdmin data)).
  - cbn. rewrite lookup_alter_eq, Hst. cbn. by rewrite orb_true_r.
  - rewrite Hst, orb_false_r. by destruct state.
Qed.

End Joins.

Section JoinTheorems.

Context {cfg : Config}.

(** C2, as amended: a join whose payload is valid and whose admin claim,
    if any, carries the configured key, to a session the directory does
    not hold, sends SESSION_NOT_FOUND to the caller (when its socket is
    open) and nothing else; the bound session id of the connection, its
    address and every membership set stay as they were, and so does every
    other connection.  The admin flag is never cleared; it is set when the
    join claimed admin rights. *)
Theorem join_missing_session (w : World) (ws : WsId) (state : ClientState)
    (message : Json) (env : Env) (data : WsJoinSessionData) :
  clients w !! ws = Some state ->
  hasType "JOIN_SESSION" message ->
  WsJoinSessionSchema_safeParse (payloadOf message) = Some data ->
  adminClaimOk data ->
  e_dbFails env JoinFindSession = false ->
  chatSession w !! j_sessionId data = None ->
  let w' := exec (onMessage ws (Some message) env) w in
  newEvents w w' =
    (if isOpen w ws
     then [EvSend ws (ERROR "SESSION_NOT_FOUND" "Chat session not found")]
     else []) /\
  sessionClients w' = sessionClients w /\
  clients w' !! ws =
    Some (mkClientState (sessionId state)
                        (isAdmin state || default false (j_isAdmin data))
                        (ip state)) /\
  (forall other, other <> ws -> clients w' !! other = clients w !! other) /\
  chatSession w' = chatSession w /\ chatMessage w' = chatMessage w.
Proof.
  intros Hst Hty Hparse Hadmin Hdb Hnone w'. subst w'. unfold exec.
  rewrite (onMessage_join_verified w ws state message env data Hst Hty Hparse Hadmin).
  rewrite tryCatch_run, joinVerified_run, Hdb.
  assert (Hsess : chatSession (adminMarked ws data w) = chatSession w).
  { unfold adminMarked. by destruct (default false (j_isAdmin data)). }
  rewrite Hsess, Hnone, sendError_run. cbn [snd].
  assert (Hopen : isOpen (adminMarked ws data w) ws = isOpen w ws).
  { unfold adminMarked. by destruct (default false (j_isAdmin data)). }
  rewrite Hopen.
  pose proof (adminMarked_lookup ws data state w Hst) as Hlook.
  assert (Hother : forall other, other <> ws ->
            clients (adminMarked ws data w) !! other = clients w !! other).
  { intros other Hne. unfold adminMarked.
    destruct (default false (j_isAdmin data)); [|done].
    cbn. by rewrite lookup_alter_ne. }
  assert (Hrest : sessionClients (adminMarked ws data w) = sessionClients w /\
                  chatMessage (adminMarked ws data w) = chatMessage w /\
                  trace (adminMarked ws data w) = trace w).
  { unfold adminMarked. by destruct (default false (j_isAdmin data)). }
  destruct Hrest as (Hsc & Hcm & Htrace).
  destruct (isOpen w ws); cbn [sessionClients clients chatSession chatMessage set_trace];
    repeat split; try done.
  - apply newEvents_app. cbn. by rewrite Htrace.
  - by apply newEvents_same.
Qed.

(** zod's uuid test rejects the empty string. *)
Hypothesis uuid_nonempty : isUuid "" = false.


End JoinTheorems.

(** ** The rate limiter *)

Lemma recorded_empty : recorded ∅ [].
Proof. split; [done|]. intros m score. by rewrite lookup_empty. Qed.

(** A check whose window still holds every earlier attempt counts them all
    and adds its own. *)
Lemma rateLimitTransaction_in_window (now : Z) (random : string) (windowSeconds : Z)
    (s : gmap Member Z) (past : list Member) :
  recorded s past ->
  (forall m, m ∈ past -> now - windowSeconds * 1000 < m.1) ->
  (now, random) ∉ past ->
  (rateLimitTransaction now random windowSeconds s).1 = Z.of_nat (length past) /\
  recorded (zset (rateLimitTransaction now random windowSeconds s).2)
           (past ++ [(now, random)]).
Proof.
  intros [Hsize Hmem] Hwin Hfresh. unfold rateLimitTransaction, zremrangebyscore.
  cbn [fst snd zset].
  assert (Hkeep : filter (fun e : Member * Z => now - windowSeconds * 1000 < e.2) s = s).
  { apply map_filter_id. intros m score Hlook. cbn.
    destruct (Hmem m score Hlook) as [Hin ->]. by apply Hwin. }
  rewrite Hkeep. split; [by rewrite Hsize|]. split.
  - rewrite length_app, map_size_insert_None; [cbn; lia|].
    destruct (s !! (now, random)) as [score|] eqn:Hlook; [|done].
    by destruct (Hmem _ _ Hlook) as [Hin _].
  - intros m score. destruct (decide (m = (now, random))) as [->|Hne].
    + rewrite lookup_insert_eq. intros [= <-]. split; [|done].
      apply elem_of_app. right. by apply list_elem_of_singleton.
    + rewrite lookup_insert_ne by done. intros Hlook.
      destruct (Hmem m score Hlook) as [Hin ->]. split; [|done].
      apply elem_of_app. by left.
Qed.

Lemma tame_refl (w : World) : tame w w.
Proof.
  split; [apply sameRegistry_refl|]. split; [done|].
  split; exists []; by rewrite app_nil_r.
Qed.

Lemma tame_trans (a b c : World) : tame a b -> tame b c -> tame a c.
Proof.
  intros (H1 & H2 & (r1 & H3) & (e1 & H4 & H5)) (G1 & G2 & (r2 & G3) & (e2 & G4 & G5)).
  split; [by eapply sameRegistry_trans|]. split; [congruence|]. split.
  - exists (r1 ++ r2). by rewrite G3, H3, app_assoc.
  - exists (e1 ++ e2). rewrite G4, H4, app_assoc. split; [done|]. by apply Forall_app.
Qed.

Lemma tame_emit (w : World) (evs : list Event) :
  Forall notLimited evs -> tame w (set_trace (fun t => t ++ evs) w).
Proof.
  intros H. split; [by repeat split|]. split; [done|]. split.
  - exists []. cbn. by rewrite app_nil_r.
  - by exists evs.
Qed.

Lemma tame_append (w : World) (row : ChatMessage) :
  tame w (set_chatMessage (fun t => t ++ [row]) w).
Proof.
  split; [by repeat split|]. split; [done|]. split.
  - by exists [row].
  - exists []. cbn. by rewrite app_nil_r.
Qed.

Lemma tame_touch (w : World) (f : gmap string ChatSession -> gmap string ChatSession) :
  tame w (set_chatSession f w).
Proof.
  split; [by repeat split|]. split; [done|].
  split; exists []; cbn; by rewrite app_nil_r.
Qed.

#[global] Instance tame_frame : Frame notLimited tame.
Proof.
  constructor; try done.
  - apply tame_refl.
  - apply tame_trans.
  - apply tame_emit.
  - apply tame_append.
  - apply tame_touch.
  - intros c m H. destruct m; try done. by destruct (H code message).
Qed.

Section RateLimitedSends.

Context {cfg : Config}.

Lemma tame_after_create (ws : WsId) (state : ClientState) (sid : string)
    (row : ChatMessage) (env : Env) (w : World) :
  tame w (tryCatch
            (broadcastToSession sid (MESSAGE_RECEIVED row) None >>
             (if negb (isAdmin state) then aiReply sid env else ret tt) >>
             updateSession env SendUpdateSession sid (e_updatedAt env))
            (sendError ws "INVALID_MESSAGE" "Failed to process message") w).2.
Proof.
  apply (preserves_tryCatch tame); [|by apply (preserves_sendError tame)].
  apply (preserves_bind tame);
    [by apply (preserves_broadcastToSession tame) | intros _].
  apply (preserves_bind tame); [|intros _; apply (preserves_updateSession tame)].
  destruct (negb (isAdmin state)); [|apply (preserves_ret tame)].
  apply (preserves_aiReply tame).
Qed.

Lemma send_step (w : World) (s : Send) (state : ClientState) (sid text : string) :
  clients w !! s_ws s = Some state ->
  sessionId state = Some sid -> sid <> "" ->
  hasType "SEND_MESSAGE" (s_message s) ->
  WsSendMessageSchema_safeParse (payloadOf (s_message s)) = Some text ->
  e_redisFails (s_env s) = false ->
  let w' := step w (sendOp s) in
  let count := attemptsInWindow (redis w) ("ws-message:" +:+ ip state) (e_now (s_env s)) 60 in
  sameRegistry w w' /\
  zsetOf (redis w') (rateKeyOf (ip state)) =
    zset (rateLimitTransaction (e_now (s_env s)) (e_random (s_env s)) 60
            (zsetOf (redis w) (rateKeyOf (ip state)))).2 /\
  (count < 30 ->
     Forall notLimited (newEvents w w') /\
     (e_dbFails (s_env s) SendFindSession = false ->
      e_dbFails (s_env s) SendCreateMessage = false ->
      status <$> chatSession w !! sid = Some ACTIVE ->
      exists rows, chatMessage w' =
                   chatMessage w ++ senderRow state sid text (s_env s) :: rows)) /\
  (30 <= count ->
     chatMessage w' = chatMessage w /\
     newEvents w w' =
       if isOpen w (s_ws s)
       then [EvSend (s_ws s) (ERROR "RATE_LIMITED" "Too many messages. Please slow down.")]
       else []).
Proof.
  intros Hst Hsid Hne Hty Hparse Hredis w' count.
  destruct s as [ws message env]. cbn [s_ws s_message s_env] in *.
  assert (Hstored : zsetOf (redis (attemptRecorded state env w)) (rateKeyOf (ip state)) =
            zset (rateLimitTransaction (e_now env) (e_random env) 60
                    (zsetOf (redis w) (rateKeyOf (ip state)))).2).
  { unfold attemptRecorded, rateKeyOf, zsetOf at 1. cbn [redis set_redis].
    by rewrite lookup_insert_eq. }
  assert (Hrun : w' = (tryCatch (handleSendMessage ws state (payloadOf message) env)
                         (sendError ws "INVALID_MESSAGE" "Failed to process message") w).2).
  { subst w'. unfold step, sendOp, exec, onMessage. cbn [s_ws s_message s_env].
    rewrite !tryCatch_run.
    by rewrite (handleMessage_send w ws state message env Hst Hty). }
  rewrite tryCatch_run,
    (handleSendMessage_checked w ws state sid text _ env Hsid Hne Hparse Hredis) in Hrun.
  fold count in Hrun.
  destruct (count <? 30) eqn:Hcount.
  - apply Z.ltb_lt in Hcount. rewrite <- tryCatch_run in Hrun.
    assert (Htame : tame (attemptRecorded state env w) w').
    { rewrite Hrun.
      apply (preserves_tryCatch tame); [|by apply (preserves_sendError tame)].
      by apply (preserves_send_checked tame). }
    destruct Htame as (Hreg & Hred & _ & (evs & Htrace & Hevs)).
    split; [exact Hreg|]. split; [by rewrite Hred|]. split; [|lia].
    intros _. split.
    { by rewrite (newEvents_app w w' evs) by exact Htrace. }
    intros Hdb Hcreate Hact.
    rewrite tryCatch_run, bind_run, findUniqueSession_run, Hdb in Hrun.
    cbn [chatSession attemptRecorded set_redis] in Hrun. rewrite Hact in Hrun.
    rewrite bool_decide_eq_true_2 in Hrun by done. cbn [negb] in Hrun.
    unfold saveMessage in Hrun. rewrite bind_run, createMessage_run, Hcreate in Hrun.
    rewrite <- tryCatch_run in Hrun.
    match type of Hrun with
    | _ = (tryCatch _ _ ?w1).2 =>
        pose proof (tame_after_create ws state sid (senderRow state sid text env) env w1)
          as (_ & _ & (rows & Hrows) & _)
    end.
    rewrite <- Hrun in Hrows. exists rows. rewrite Hrows. cbn. by rewrite <- app_assoc.
  - apply Z.ltb_ge in Hcount. rewrite sendError_run in Hrun. cbn [snd] in Hrun.
    change (isOpen (attemptRecorded state env w) ws) with (isOpen w ws) in Hrun.
    split; [|split; [|split; [lia|]]].
    + rewrite Hrun. by destruct (isOpen w ws).
    + rewrite Hrun. by destruct (isOpen w ws).
    + intros _. rewrite Hrun. destruct (isOpen w ws); new_events; by rewrite ?drop_all.
Qed.

End RateLimitedSends.

Section RateLimitTheorem.

Context {cfg : Config}.

Lemma run_app (w : World) (ops1 ops2 : list Op) :
  run w (ops1 ++ ops2) = run (run w ops1) ops2.
Proof. apply foldl_app. Qed.

(** The attempts of a run of sends that all fall in one window are all in
    the sorted set of the client's key, and the registry is as before. *)
Lemma sends_recorded (address : string) (w : World) (sends : list Send) :
  Forall (validSendFrom address w) sends ->
  zsetOf (redis w) (rateKeyOf address) = ∅ ->
  NoDup (memberOf <$> sends) ->
  Forall (fun s => Forall (fun s' => e_now (s_env s') - 60 * 1000 < e_now (s_env s)) sends)
         sends ->
  forall k, (k <= length sends)%nat ->
    sameRegistry w (run w (sendOp <$> take k sends)) /\
    recorded (zsetOf (redis (run w (sendOp <$> take k sends))) (rateKeyOf address))
             (memberOf <$> take k sends).
Proof.
  intros Hvalid Hempty Hdistinct Hwindow.
  induction k as [|k IH]; intros Hk.
  { rewrite take_0. cbn. split; [apply sameRegistry_refl|].
    rewrite Hempty. apply recorded_empty. }
  destruct (lookup_lt_is_Some_2 sends k) as [s Hs]; [lia|].
  destruct IH as [Hreg Hrec]; [lia|].
  rewrite (take_S_r sends k s Hs), !fmap_app, run_app.
  set (wk := run w (sendOp <$> take k sends)) in *.
  cbn [fmap list_fmap run foldl].
  assert (Hin : s ∈ sends) by (by eapply list_elem_of_lookup_2).
  rewrite Forall_forall in Hvalid.
  destruct (Hvalid s Hin) as (state & sid & text & Hst & Hip & Hsid & Hne & Hty & Hparse & Hredis).
  destruct Hreg as (Hclients & Hrest).
  rewrite <- Hclients in Hst.
  destruct (send_step wk s state sid text Hst Hsid Hne Hty Hparse Hredis)
    as (Hreg' & Hstored & _).
  rewrite Hip in Hstored.
  split.
  { eapply sameRegistry_trans; [|exact Hreg']. by split. }
  rewrite Hstored.
  apply rateLimitTransaction_in_window; [exact Hrec| |].
  - intros m Hm. apply list_elem_of_fmap in Hm as (s' & -> & Hs').
    apply elem_of_take in Hs' as (i & Hs' & _).
    rewrite Forall_forall in Hwindow. specialize (Hwindow s' (list_elem_of_lookup_2 _ _ _ Hs')).
    rewrite Forall_forall in Hwindow. by apply (Hwindow s Hin).
  - rewrite <- (take_drop_middle sends k s Hs), fmap_app in Hdistinct.
    apply NoDup_app in Hdistinct as (_ & Hfresh & _).
    intros Hm. apply (Hfresh _ Hm). cbn. apply list_elem_of_here.
Qed.

(** C4: a check that Redis answers records its attempt whatever the
    answer, and allows it exactly when fewer than [limit] recorded attempts
    lie inside the window that ends at [now].  Hence, of the sends one
    client address makes within one window of 60 seconds, starting with no
    attempt on record, each of the first 30 is let through (no RATE_LIMITED
    error; its row is written when the session is found ACTIVE and the
    database answers) and every later one is answered RATE_LIMITED alone,
    with nothing persisted and nothing broadcast. *)
Theorem sliding_window_limit
    (key : string) (limit windowSeconds now : Z) (random : string) (w0 : World)
    (address : string) (w : World) (sends : list Send) (k : nat) (s : Send) :
  Forall (validSendFrom address w) sends ->
  zsetOf (redis w) (rateKeyOf address) = ∅ ->
  NoDup (memberOf <$> sends) ->
  Forall (fun s => Forall (fun s' => e_now (s_env s') - 60 * 1000 < e_now (s_env s)) sends)
         sends ->
  sends !! k = Some s ->
  (let r := checkRateLimit key limit windowSeconds now random false w0 in
   (exists result,
      r.1 = Done result /\
      allowed result = (attemptsInWindow (redis w0) key now windowSeconds <? limit)) /\
   zsetOf (redis r.2) ("ratelimit:" +:+ key) !! (now, random) = Some now) /\
  (let wk := run w (sendOp <$> take k sends) in
   let wk' := step wk (sendOp s) in
   exists state sid text,
     clients wk !! s_ws s = Some state /\ ip state = address /\
     sessionId state = Some sid /\
     WsSendMessageSchema_safeParse (payloadOf (s_message s)) = Some text /\
     ((k < 30)%nat ->
        Forall notLimited (newEvents wk wk') /\
        (e_dbFails (s_env s) SendFindSession = false ->
         e_dbFails (s_env s) SendCreateMessage = false ->
         status <$> chatSession wk !! sid = Some ACTIVE ->
         exists rows, chatMessage wk' =
                      chatMessage wk ++ senderRow state sid text (s_env s) :: rows)) /\
     ((30 <= k)%nat ->
        chatMessage wk' = chatMessage wk /\
        newEvents wk wk' =
          if isOpen wk (s_ws s)
          then [EvSend (s_ws s)
                  (ERROR "RATE_LIMITED" "Too many messages. Please slow down.")]
          else [])).
Proof.
  intros Hvalid Hempty Hdistinct Hwindow Hs. split.
  { cbv zeta. rewrite checkRateLimit_run. cbn [fst snd]. split; [by eexists|].
    unfold zsetOf at 1. cbn [redis set_redis]. rewrite lookup_insert_eq.
    unfold rateLimitTransaction. cbn [snd zset]. by rewrite lookup_insert_eq. }
  intros wk wk'.
  assert (Hk : (k <= length sends)%nat).
  { apply lookup_lt_Some in Hs. lia. }
  destruct (sends_recorded address w sends Hvalid Hempty Hdistinct Hwindow k Hk)
    as [Hreg [Hsize Hmem]].
  fold wk in Hreg, Hsize, Hmem.
  assert (Hin : s ∈ sends) by (by eapply list_elem_of_lookup_2).
  pose proof Hvalid as Hvalid'. rewrite Forall_forall in Hvalid'.
  destruct (Hvalid' s Hin)
    as (state & sid & text & Hst & Hip & Hsid & Hne & Hty & Hparse & Hredis).
  destruct Hreg as (Hclients & Hrest). rewrite <- Hclients in Hst.
  exists state, sid, text. repeat (split; [done|]).
  destruct (send_step wk s state sid text Hst Hsid Hne Hty Hparse Hredis)
    as (_ & _ & Hallowed & Hlimited).
  assert (Hcount : attemptsInWindow (redis wk) ("ws-message:" +:+ ip state)
                     (e_now (s_env s)) 60 = Z.of_nat k).
  { unfold attemptsInWindow. rewrite Hip. fold (rateKeyOf address).
    rewrite map_filter_id.
    - rewrite Hsize, length_fmap, length_take. f_equal. lia.
    - intros m score Hlook. cbn. destruct (Hmem m score Hlook) as [Hm ->].
      apply list_elem_of_fmap in Hm as (s' & -> & Hs').
      apply elem_of_take in Hs' as (i & Hs' & _).
      rewrite Forall_forall in Hwindow.
      specialize (Hwindow s' (list_elem_of_lookup_2 _ _ _ Hs')).
      rewrite Forall_forall in Hwindow. by apply (Hwindow s Hin). }
  rewrite Hcount in Hallowed, Hlimited. split.
  - intros Hlt. apply Hallowed. lia.
  - intros Hge. apply Hlimited. lia.
Qed.

End RateLimitTheorem.

(** * Further properties of the WebSocket server *)

Lemma recipients_spec (w : World) (sid : string) (exclude : option WsId) (c : WsId) :
  c ∈ recipients w sid exclude <->
  exists members,
    sessionClients w !! sid = Some members /\ c ∈ members /\
    Some c <> exclude /\ isOpen w c = true.
Proof.
  unfold recipients. destruct (sessionClients w !! sid) as [members|].
  - rewrite list_elem_of_filter. split.
    + intros [[H1 H2] H3]. by exists members.
    + intros (members' & [= <-] & H1 & H2 & H3). done.
  - split; [by intros H%not_elem_of_nil | by intros (members' & [=] & _)].
Qed.

Lemma sendError_world (ws : WsId) (c t : string) (w : World) :
  let w' := (sendError ws c t w).2 in
  sameRegistry w w' /\ redis w' = redis w /\ chatMessage w' = chatMessage w /\
  chatSession w' = chatSession w /\
  newEvents w w' = if isOpen w ws then [EvSend ws (ERROR c t)] else [].
Proof.
  rewrite sendError_run. cbn [snd].
  destruct (isOpen w ws); repeat split; new_events; by rewrite ?drop_all.
Qed.

Section MoreSends.

Context {cfg : Config}.

(** X1: a SEND_MESSAGE from a connection that is bound to no session is
    answered NOT_IN_SESSION (when the socket is open) and nothing else
    happens: no row is written, the registry is as before and no attempt is
    charged to the rate limiter. *)
Theorem send_while_unbound (w : World) (ws : WsId) (state : ClientState)
    (message : Json) (env : Env) :
  clients w !! ws = Some state ->
  truthy (sessionId state) = false ->
  hasType "SEND_MESSAGE" message ->
  let w' := exec (onMessage ws (Some message) env) w in
  sameRegistry w w' /\ redis w' = redis w /\ chatMessage w' = chatMessage w /\
  chatSession w' = chatSession w /\
  newEvents w w' =
    if isOpen w ws
    then [EvSend ws (ERROR "NOT_IN_SESSION" "You must join a session first")]
    else [].
Proof.
  intros Hst Hsid Hty w'. subst w'. unfold exec, onMessage.
  rewrite tryCatch_run, (handleMessage_send w ws state message env Hst Hty).
  unfold handleSendMessage. rewrite Hsid. cbn [negb].
  pose proof (sendError_world ws "NOT_IN_SESSION" "You must join a session first" w) as H.
  cbv zeta in H. rewrite sendError_run in *. exact H.
Qed.

(** X2: a SEND_MESSAGE of a bound connection whose content is the empty
    string or longer than 4000 UTF-16 code units (the length of a
    JavaScript string, which is what the schema tests) is answered
    VALIDATION_ERROR and nothing else happens; the check comes before the
    rate limiter, so the rejected message costs no attempt.  A content of 1
    to 4000 code units passes the schema unchanged, however many bytes it
    takes. *)
Theorem send_content_out_of_bounds (w : World) (ws : WsId) (state : ClientState)
    (sid : string) (fields payload : list (string * Json)) (s : string) (env : Env) :
  clients w !! ws = Some state ->
  sessionId state = Some sid -> sid <> "" ->
  jsonGet "type" fields = Some (JStr "SEND_MESSAGE") ->
  jsonGet "payload" fields = Some (JObj payload) ->
  jsonGet "content" payload = Some (JStr s) ->
  let w' := exec (onMessage ws (Some (JObj fields)) env) w in
  (WsSendMessageSchema_safeParse (Some (JObj payload)) = Some s <->
   (1 <= utf16Length s <= 4000)%nat) /\
  (utf16Length s = 0%nat \/ (4000 < utf16Length s)%nat ->
   sameRegistry w w' /\ redis w' = redis w /\ chatMessage w' = chatMessage w /\
   chatSession w' = chatSession w /\
   newEvents w w' =
     if isOpen w ws
     then [EvSend ws (ERROR "VALIDATION_ERROR" "Invalid message payload")]
     else []).
Proof.
  intros Hst Hsid Hne Hty Hpayload Hcontent w'.
  assert (Hparse : WsSendMessageSchema_safeParse (Some (JObj payload)) =
            if (1 <=? utf16Length s)%nat && (utf16Length s <=? 4000)%nat
            then Some s else None).
  { unfold WsSendMessageSchema_safeParse. by rewrite Hcontent. }
  split.
  - rewrite Hparse.
    destruct (Nat.leb_spec 1 (utf16Length s)), (Nat.leb_spec (utf16Length s) 4000);
      cbn; split; (done || lia || (intros; exfalso; lia)).
  - intros Hbad. subst w'. unfold exec, onMessage.
    rewrite tryCatch_run.
    rewrite (handleMessage_send w ws state (JObj fields) env Hst) by (by eexists).
    unfold handleSendMessage. rewrite Hsid, (truthy_Some sid Hne). cbn [negb payloadOf].
    rewrite Hpayload, Hparse.
    replace ((1 <=? utf16Length s)%nat && (utf16Length s <=? 4000)%nat) with false.
    2:{ symmetry. apply andb_false_iff.
        destruct Hbad; [left; apply Nat.leb_gt | right; apply Nat.leb_gt]; lia. }
    pose proof (sendError_world ws "VALIDATION_ERROR" "Invalid message payload" w) as H.
    cbv zeta in H. rewrite sendError_run in *. exact H.
Qed.

Lemma send_closed_run (w : World) (ws : WsId) (state : ClientState)
    (sid text : string) (session : ChatSession) (message : Json) (env : Env) :
  clients w !! ws = Some state ->
  sessionId state = Some sid -> sid <> "" ->
  hasType "SEND_MESSAGE" message ->
  WsSendMessageSchema_safeParse (payloadOf message) = Some text ->
  e_redisFails env = false ->
  attemptsInWindow (redis w) ("ws-message:" +:+ ip state) (e_now env) 60 < 30 ->
  e_dbFails env SendFindSession = false ->
  chatSession w !! sid = Some session ->
  status session = CLOSED ->
  onMessage ws (Some message) env w =
  sendError ws "SESSION_CLOSED" "This session has been closed" (attemptRecorded state env w).
Proof.
  intros Hst Hsid Hne Hty Hparse Hredis Hcount Hdb Hsession Hclosed.
  unfold onMessage.
  rewrite tryCatch_run, (handleMessage_send w ws state message env Hst Hty).
  rewrite (handleSendMessage_checked w ws state sid text _ env Hsid Hne Hparse Hredis).
  apply Z.ltb_lt in Hcount. rewrite Hcount.
  rewrite bind_run, findUniqueSession_run, Hdb.
  cbn [chatSession attemptRecorded set_redis]. rewrite Hsession. cbn [fmap option_fmap option_map].
  rewrite Hclosed, bool_decide_eq_false_2 by discriminate. cbn [negb].
  by rewrite sendError_run.
Qed.

(** X3: a send that reaches the session check of a session whose status
    is CLOSED is answered SESSION_CLOSED whatever the admin flag of the
    sender; nothing is persisted, broadcast or fetched, the session row is
    untouched, and the attempt stays charged to the sender's address. *)
Theorem send_to_closed_session (w : World) (ws : WsId) (state : ClientState)
    (sid text : string) (session : ChatSession) (message : Json) (env : Env) :
  clients w !! ws = Some state ->
  sessionId state = Some sid -> sid <> "" ->
  hasType "SEND_MESSAGE" message ->
  WsSendMessageSchema_safeParse (payloadOf message) = Some text ->
  e_redisFails env = false ->
  attemptsInWindow (redis w) ("ws-message:" +:+ ip state) (e_now env) 60 < 30 ->
  e_dbFails env SendFindSession = false ->
  chatSession w !! sid = Some session ->
  status session = CLOSED ->
  let w' := exec (onMessage ws (Some message) env) w in
  chatMessage w' = chatMessage w /\ chatSession w' = chatSession w /\
  newEvents w w' =
    (if isOpen w ws
     then [EvSend ws (ERROR "SESSION_CLOSED" "This session has been closed")]
     else []) /\
  zsetOf (redis w') (rateKeyOf (ip state)) !! (e_now env, e_random env) = Some (e_now env).
Proof.
  intros Hst Hsid Hne Hty Hparse Hredis Hcount Hdb Hsession Hclosed w'.
  subst w'. unfold exec.
  rewrite (send_closed_run w ws state sid text session message env
             Hst Hsid Hne Hty Hparse Hredis Hcount Hdb Hsession Hclosed).
  rewrite sendError_run. cbn [snd].
  change (isOpen (attemptRecorded state env w) ws) with (isOpen w ws).
  assert (Hrec : zsetOf (redis (attemptRecorded state env w)) (rateKeyOf (ip state))
                   !! (e_now env, e_random env) = Some (e_now env)).
  { unfold attemptRecorded, rateKeyOf, zsetOf. cbn [redis set_redis].
    rewrite lookup_insert_eq. unfold rateLimitTransaction. cbn [snd zset].
    by rewrite lookup_insert_eq. }
  destruct (isOpen w ws); repeat split; try done; new_events; by rewrite ?drop_all.
Qed.

End MoreSends.

(** ** At most one error envelope per delivery *)

Lemma grewCalmly_same (w w' : World) : trace w' = trace w -> grewCalmly w w'.
Proof. intros H. exists []. by rewrite H, app_nil_r. Qed.

Lemma grewCalmly_trans (a b c : World) : grewCalmly a b -> grewCalmly b c -> grewCalmly a c.
Proof.
  intros (e1 & H1 & F1) (e2 & H2 & F2). exists (e1 ++ e2).
  rewrite H2, H1, <- app_assoc. split; [done | by apply Forall_app].
Qed.

#[global] Instance grewCalmly_frame : Frame notError grewCalmly.
Proof.
  constructor.
  - intros w. by apply grewCalmly_same.
  - apply grewCalmly_trans.
  - intros w evs H. by exists evs.
  - intros w row. by apply grewCalmly_same.
  - intros w f. by apply grewCalmly_same.
  - intros c m H. destruct m; try done. by destruct (H code message).
  - done.
  - done.
Qed.

Lemma oneError_calm (ws : WsId) {A} (m : M A) : preserves grewCalmly m -> oneError ws m.
Proof.
  intros H w. destruct (H w) as (evs & Ht & Hf).
  exists evs, []. rewrite app_nil_r. auto.
Qed.

Lemma oneError_sendError (ws : WsId) (c t : string) : oneError ws (sendError ws c t).
Proof.
  intros w. rewrite sendError_run. destruct (isOpen w ws); cbn [fst snd].
  - exists [], [EvSend ws (ERROR c t)]. split; [done|]. split; [constructor|].
    right. exists c, t. split; [done | by exists tt].
  - exists [], []. rewrite app_nil_r. split; [done|]. split; [constructor | by left].
Qed.

Lemma oneError_bind (ws : WsId) {A B} (m : M A) (k : A -> M B) :
  preserves grewCalmly m -> (forall a, oneError ws (k a)) -> oneError ws (bind m k).
Proof.
  intros Hm Hk w. rewrite bind_run. specialize (Hm w).
  destruct (m w) as [[a|] w1]; cbn [snd] in Hm; destruct Hm as (e1 & Ht1 & Hf1).
  - destruct (Hk a w1) as (e2 & errs & Ht2 & Hf2 & Herr).
    exists (e1 ++ e2), errs. rewrite Ht2, Ht1, <- !app_assoc.
    split; [done|]. split; [by apply Forall_app | done].
  - exists e1, []. cbn [snd]. rewrite app_nil_r. auto.
Qed.

Lemma oneError_tryCatch (ws : WsId) (m : M unit) (c t : string) :
  oneError ws m -> oneError ws (tryCatch m (sendError ws c t)).
Proof.
  intros Hm w. rewrite tryCatch_run. specialize (Hm w).
  destruct (m w) as [[x|] w1]; cbn [fst snd] in Hm.
  - exact Hm.
  - destruct Hm as (evs & errs & Ht & Hf & [->|(c' & t' & _ & x & Hx)]); [|done].
    rewrite app_nil_r in Ht. rewrite sendError_run.
    destruct (isOpen w1 ws); cbn [fst snd].
    + exists evs, [EvSend ws (ERROR c t)]. cbn [trace set_trace]. rewrite Ht.
      split; [by rewrite <- app_assoc|]. split; [done|].
      right. exists c, t. split; [done | by exists tt].
    + exists evs, []. rewrite app_nil_r. auto.
Qed.

Lemma calm_checkRateLimit (key : string) (limit window now : Z) (random : string)
    (fails : bool) :
  preserves grewCalmly (checkRateLimit key limit window now random fails).
Proof.
  intros w. destruct fails.
  - rewrite checkRateLimit_fails. by apply grewCalmly_same.
  - rewrite checkRateLimit_run. by apply grewCalmly_same.
Qed.

Lemma calm_leave_if_bound (ws : WsId) (bound : option string) :
  preserves grewCalmly (if truthy bound then leaveSession ws (default "" bound) else ret tt).
Proof.
  intros w. rewrite leave_if_bound_run. cbn [snd].
  apply grewCalmly_same. apply (afterLeave_rest ws bound w).
Qed.

Section OneError.

Context {cfg : Config}.

Lemma oneError_handleSendMessage (ws : WsId) (state : ClientState)
    (payload : option Json) (env : Env) :
  oneError ws (handleSendMessage ws state payload env).
Proof.
  unfold handleSendMessage.
  destruct (negb (truthy (sessionId state))); [apply oneError_sendError|].
  destruct (WsSendMessageSchema_safeParse payload); [|apply oneError_sendError].
  apply oneError_bind; [apply calm_checkRateLimit|]. intros r.
  destruct (negb (allowed r)); [apply oneError_sendError|].
  apply oneError_bind; [apply (preserves_findUniqueSession grewCalmly)|]. intros session.
  destruct (negb _); [apply oneError_sendError|].
  apply oneError_calm, (preserves_saveMessage grewCalmly).
Qed.

Lemma calm_joined (ws : WsId) (state : ClientState) (sid : string) (env : Env)
    (session : ChatSession) :
  preserves grewCalmly
    ((if truthy (sessionId state)
      then leaveSession ws (default "" (sessionId state))
      else ret tt) >>
     setSessionId ws (Some sid) >>
     modify (set_sessionClients
               (fun sc => <[sid := setAdd ws (default [] (sc !! sid))]> sc)) >>
     let* messages := findMany env JoinFindMessages sid None in
     emit [EvSend ws (SESSION_JOINED session messages)]).
Proof.
  apply (preserves_bind grewCalmly); [apply calm_leave_if_bound|]. intros _.
  apply (preserves_bind grewCalmly); [intros w; by apply grewCalmly_same|]. intros _.
  apply (preserves_bind grewCalmly); [intros w; by apply grewCalmly_same|]. intros _.
  apply (preserves_bind grewCalmly); [apply (preserves_findMany grewCalmly)|]. intros messages.
  intros w. unfold emit, modify. cbn [snd]. eexists. split; [done|].
  by constructor.
Qed.

Lemma oneError_joinVerified (ws : WsId) (state : ClientState) (sid : string) (env : Env) :
  oneError ws (joinVerified ws state sid env).
Proof.
  unfold joinVerified.
  apply oneError_bind; [apply (preserves_findUniqueSession grewCalmly)|].
  intros [session|]; [|apply oneError_sendError].
  apply oneError_calm, calm_joined.
Qed.

Lemma oneError_handleJoinSession (ws : WsId) (state : ClientState)
    (payload : option Json) (env : Env) :
  oneError ws (handleJoinSession ws state payload env).
Proof.
  unfold handleJoinSession.
  destruct (WsJoinSessionSchema_safeParse payload) as [data|]; [|apply oneError_sendError].
  destruct (default false (j_isAdmin data)); [|apply oneError_joinVerified].
  destruct (_ || _); [apply oneError_sendError|].
  apply oneError_bind; [intros w; by apply grewCalmly_same|]. intros _.
  apply oneError_joinVerified.
Qed.

Lemma calm_property (name : string) (message : Json) :
  preserves grewCalmly (property name message).
Proof. intros w. destruct message; by apply grewCalmly_same. Qed.

Lemma calm_typing (state : ClientState) (m : WsMessage) (x : option WsId) :
  isTypingMessage m = true ->
  preserves grewCalmly
    (if truthy (sessionId state)
     then broadcastToSession (default "" (sessionId state)) m x
     else ret tt).
Proof.
  intros Hm. destruct (truthy (sessionId state)).
  - apply (preserves_broadcastToSession grewCalmly); [done|]. intros c. by destruct m.
  - intros w. by apply grewCalmly_same.
Qed.

Lemma oneError_handleMessage (ws : WsId) (message : Json) (env : Env) :
  oneError ws (handleMessage ws message env).
Proof.
  unfold handleMessage.
  apply oneError_bind; [intros w; by apply grewCalmly_same|]. intros w0.
  destruct (clients w0 !! ws) as [state|];
    [|apply oneError_calm; intros w; by apply grewCalmly_same].
  apply oneError_bind; [apply calm_property|]. intros type.
  assert (Hunknown : forall type,
            oneError ws (match templateString type with
                         | Some text =>
                             sendError ws "UNKNOWN_MESSAGE_TYPE"
                                       ("Unknown message type: " +:+ text)
                         | None => throw
                         end)).
  { intros type'. destruct (templateString type'); [apply oneError_sendError|].
    apply oneError_calm. intros w. by apply grewCalmly_same. }
  destruct type as [[| | |t| |]|]; try unknown_case Hunknown.
  repeat case_decide.
  - apply oneError_bind; [apply calm_property|]. intros payload.
    apply oneError_handleJoinSession.
  - apply oneError_calm. destruct (truthy (sessionId state)) eqn:Hb.
    + apply (preserves_bind grewCalmly).
      * pose proof (calm_leave_if_bound ws (sessionId state)) as Hl. by rewrite Hb in Hl.
      * intros _ w. by apply grewCalmly_same.
    + intros w. by apply grewCalmly_same.
  - apply oneError_bind; [apply calm_property|]. intros payload.
    apply oneError_handleSendMessage.
  - by apply oneError_calm, calm_typing.
  - by apply oneError_calm, calm_typing.
  - unknown_case Hunknown.
Qed.

(** X4: whatever a client sends, the server answers one delivery with at
    most one ERROR envelope; it goes to the socket the delivery came from
    and is the last thing the delivery produces. *)
Theorem at_most_one_error_per_delivery (w : World) (ws : WsId) (data : option Json)
    (env : Env) :
  exists evs errs,
    newEvents w (exec (onMessage ws data env) w) = evs ++ errs /\
    Forall (fun ev => isError ev = false) evs /\
    (errs = [] \/ exists code text, errs = [EvSend ws (ERROR code text)]).
Proof.
  assert (H : oneError ws (onMessage ws data env)).
  { unfold onMessage. apply oneError_tryCatch. destruct data.
    - apply oneError_handleMessage.
    - apply oneError_calm. intros w1. by apply grewCalmly_same. }
  destruct (H w) as (evs & errs & Ht & Hf & Herr).
  exists evs, errs. split; [by apply newEvents_app|]. split; [done|].
  destruct Herr as [->|(c & t & -> & _)]; [by left | right; eauto].
Qed.

End OneError.

Section Relay.

Context {cfg : Config}.

(** X5: a TYPING_START or TYPING_STOP envelope from a connection bound to
    a session is relayed, flagged with the sender's admin flag, to exactly
    the other members of the session whose socket is open, never back to the
    sender; nothing is stored, counted or looked up. *)
Theorem typing_is_relayed_to_the_others (w : World) (ws : WsId) (state : ClientState)
    (sid : string) (message : Json) (env : Env) (t : string) :
  clients w !! ws = Some state ->
  sessionId state = Some sid -> sid <> "" ->
  hasType t message ->
  t = "TYPING_START" \/ t = "TYPING_STOP" ->
  let indicator := typingIndicator t (isAdmin state) in
  onMessage ws (Some message) env w =
    (Done tt,
     set_trace (fun tr => tr ++ EvBroadcast sid indicator (Some ws)
                             :: map (fun c => EvSend c indicator) (recipients w sid (Some ws)))
               w) /\
  (forall c, c ∈ recipients w sid (Some ws) <->
             c <> ws /\ isOpen w c = true /\
             exists members, sessionClients w !! sid = Some members /\ c ∈ members).
Proof.
  intros Hst Hsid Hne (fields & -> & Hty) Ht indicator. split.
  - unfold onMessage. rewrite tryCatch_run. unfold handleMessage.
    rewrite bind_run. cbn [get]. rewrite Hst, bind_run. cbn [property ret]. rewrite Hty.
    rewrite Hsid, (truthy_Some sid Hne). cbn [default from_option id].
    subst indicator. unfold typingIndicator.
    destruct Ht as [-> | ->]; repeat (case_decide; try done);
      by rewrite broadcastToSession_run.
  - intros c. rewrite recipients_spec. split.
    + intros (members & Hm & Hc & Hx & Ho). split; [congruence|]. eauto.
    + intros (Hx & Ho & members & Hm & Hc). exists members. repeat split; try done.
      congruence.
Qed.

(** X6: a JOIN_SESSION that claims admin rights without the configured
    key, or with an empty key, is answered UNAUTHORIZED before any lookup:
    the connection keeps its binding and its admin flag, the registry and
    the tables are untouched, also when the session exists. *)
Theorem join_with_wrong_admin_key (w : World) (ws : WsId) (state : ClientState)
    (message : Json) (env : Env) (data : WsJoinSessionData) :
  clients w !! ws = Some state ->
  hasType "JOIN_SESSION" message ->
  WsJoinSessionSchema_safeParse (payloadOf message) = Some data ->
  j_isAdmin data = Some true ->
  j_adminKey data <> Some ADMIN_API_KEY \/ j_adminKey data = Some "" ->
  let w' := exec (onMessage ws (Some message) env) w in
  sameRegistry w w' /\ redis w' = redis w /\ chatMessage w' = chatMessage w /\
  chatSession w' = chatSession w /\
  newEvents w w' =
    if isOpen w ws then [EvSend ws (ERROR "UNAUTHORIZED" "Invalid admin key")] else [].
Proof.
  intros Hst Hty Hparse Hclaim Hkey w'. subst w'. unfold exec, onMessage.
  rewrite tryCatch_run, (handleMessage_join w ws state message env Hst Hty).
  unfold handleJoinSession. rewrite Hparse, Hclaim. cbn [default from_option id].
  replace (negb (truthy (j_adminKey data))
           || negb (bool_decide (j_adminKey data = Some ADMIN_API_KEY))) with true.
  2:{ symmetry. apply orb_true_iff. destruct Hkey as [Hkey | ->].
      - right. by rewrite bool_decide_eq_false_2.
      - by left. }
  pose proof (sendError_world ws "UNAUTHORIZED" "Invalid admin key" w) as H.
  cbv zeta in H. rewrite sendError_run in *. exact H.
Qed.


End Relay.

(** ** The admin flag *)

Lemma keepsFlags_same (ws : WsId) (w w' : World) :
  clients w' = clients w -> keepsFlags ws w w'.
Proof. intros H. unfold keepsFlags. rewrite H. split; [done|]. intros st Hst. eauto. Qed.

Lemma keepsFlags_trans (ws : WsId) (a b c : World) :
  keepsFlags ws a b -> keepsFlags ws b c -> keepsFlags ws a c.
Proof.
  intros [H1 H2] [H3 H4]. split.
  - intros other Ho. by rewrite H3, H1.
  - intros st Hst. destruct (H2 st Hst) as (st1 & Hst1 & Ha1 & Hi1).
    destruct (H4 st1 Hst1) as (st2 & Hst2 & Ha2 & Hi2).
    exists st2. split; [done|]. split; congruence.
Qed.

#[global] Instance keepsFlags_frame (ws : WsId) : Frame (fun _ => True) (keepsFlags ws).
Proof.
  constructor; try done.
  - intros w. by apply keepsFlags_same.
  - apply keepsFlags_trans.
  - intros w evs _. by apply keepsFlags_same.
  - intros w row. by apply keepsFlags_same.
  - intros w f. by apply keepsFlags_same.
Qed.

Lemma keepsFlags_setSessionId (ws : WsId) (v : option string) (w : World) :
  keepsFlags ws w (setSessionId ws v w).2.
Proof.
  unfold keepsFlags, setSessionId, modify. cbn [snd clients set_clients]. split.
  - intros other Ho. by rewrite lookup_alter_ne.
  - intros st Hst. rewrite lookup_alter_eq, Hst. cbn. eauto.
Qed.

Section AdminFlag.

Context {cfg : Config}.

Lemma keepsFlags_joinVerified (ws : WsId) (state : ClientState) (sid : string) (env : Env) :
  preserves (keepsFlags ws) (joinVerified ws state sid env).
Proof.
  unfold joinVerified.
  apply (preserves_bind (keepsFlags ws)); [apply (preserves_findUniqueSession (keepsFlags ws))|].
  intros [session|]; [|by apply (preserves_sendError (keepsFlags ws))].
  apply (preserves_bind (keepsFlags ws)).
  { intros w. rewrite leave_if_bound_run. cbn [snd].
    apply keepsFlags_same. apply (afterLeave_rest ws (sessionId state) w). }
  intros _. apply (preserves_bind (keepsFlags ws)); [intros w; apply keepsFlags_setSessionId|].
  intros _. apply (preserves_bind (keepsFlags ws)); [intros w; by apply keepsFlags_same|].
  intros _. apply (preserves_bind (keepsFlags ws)); [apply (preserves_findMany (keepsFlags ws))|].
  intros messages w. by apply keepsFlags_same.
Qed.

Lemma handleJoinSession_flags (ws : WsId) (state : ClientState) (message : Json)
    (env : Env) (w : World) :
  hasType "JOIN_SESSION" message ->
  let w' := (handleJoinSession ws state (payloadOf message) env w).2 in
  keepsFlags ws w w' \/
  (presentsAdminKey (Some message) /\
   keepsFlags ws (set_clients (alter (fun st => mkClientState (sessionId st) true (ip st)) ws) w)
              w').
Proof.
  intros Hty w'. subst w'. unfold handleJoinSession.
  destruct (WsJoinSessionSchema_safeParse (payloadOf message)) as [data|] eqn:Hparse;
    [|left; by apply (preserves_sendError (keepsFlags ws))].
  destruct (j_isAdmin data) as [[]|] eqn:Hclaim; cbn [default from_option id];
    try (left; apply keepsFlags_joinVerified).
  destruct (truthy (j_adminKey data)) eqn:Htruthy; cbn [negb orb];
    [|left; by apply (preserves_sendError (keepsFlags ws))].
  case_bool_decide as Hkey; cbn [negb];
    [|left; by apply (preserves_sendError (keepsFlags ws))].
  right. split.
  - exists message, data. repeat split; try done.
    intros Hempty. rewrite Hkey, Hempty in Htruthy. done.
  - rewrite bind_run. unfold setIsAdmin, modify. apply keepsFlags_joinVerified.
Qed.

Lemma handleMessage_flags (ws : WsId) (state : ClientState) (message : Json)
    (env : Env) (w : World) :
  clients w !! ws = Some state ->
  let w' := (handleMessage ws message env w).2 in
  keepsFlags ws w w' \/
  (presentsAdminKey (Some message) /\
   keepsFlags ws (set_clients (alter (fun st => mkClientState (sessionId st) true (ip st)) ws) w)
              w').
Proof.
  intros Hst w'. subst w'. unfold handleMessage.
  rewrite bind_run. cbn [get]. rewrite Hst, bind_run.
  assert (Hunknown : forall type,
            keepsFlags ws w ((match templateString type with
                              | Some text =>
                                  sendError ws "UNKNOWN_MESSAGE_TYPE"
                                            ("Unknown message type: " +:+ text)
                              | None => throw
                              end) w).2).
  { intros type. destruct (templateString type); [|by apply keepsFlags_same].
    by apply (preserves_sendError (keepsFlags ws)). }
  destruct message as [|b|n|s|l|fields]; cbn [property ret throw];
    try (left; unknown_case Hunknown);
    [left; by apply keepsFlags_same|].
  cbv zeta.
  destruct (jsonGet "type" fields) as [[|b|n|t|l|f]|] eqn:Hty;
    try (left; unknown_case Hunknown).
  repeat case_decide; subst.
  - rewrite bind_run. cbn [property ret].
    apply (handleJoinSession_flags ws state (JObj fields) env w). by eexists.
  - left. destruct (truthy (sessionId state)) eqn:Hb; [|by apply keepsFlags_same].
    rewrite bind_run, leaveSession_run.
    eapply keepsFlags_trans; [|apply keepsFlags_setSessionId].
    apply keepsFlags_same. by destruct (sessionClients w !! _); [case_decide|].
  - left. rewrite bind_run. cbn [property ret].
    destruct (keeps_handleSendMessage ws state (jsonGet "payload" fields) env w) as [Hc _].
    by apply keepsFlags_same.
  - left. destruct (truthy (sessionId state)); [|by apply keepsFlags_same].
    by apply (preserves_broadcastToSession (keepsFlags ws)).
  - left. destruct (truthy (sessionId state)); [|by apply keepsFlags_same].
    by apply (preserves_broadcastToSession (keepsFlags ws)).
  - left. unknown_case Hunknown.
Qed.

(** X8: one delivery from [ws] leaves the records of all other
    connections as they were, never changes the address recorded for [ws]
    and never clears its admin flag; the flag is raised only by a
    JOIN_SESSION that claims admin rights and carries the configured,
    non-empty key. *)
Theorem admin_flag_needs_the_key (w : World) (ws : WsId) (state : ClientState)
    (data : option Json) (env : Env) :
  clients w !! ws = Some state ->
  let w' := exec (onMessage ws data env) w in
  (forall other, other <> ws -> clients w' !! other = clients w !! other) /\
  exists state',
    clients w' !! ws = Some state' /\ ip state' = ip state /\
    (isAdmin state = true -> isAdmin state' = true) /\
    (isAdmin state = false -> isAdmin state' = true -> presentsAdminKey data).
Proof.
  intros Hst w'.
  assert (H : keepsFlags ws w w' \/
              (presentsAdminKey data /\
               keepsFlags ws
                 (set_clients (alter (fun st => mkClientState (sessionId st) true (ip st)) ws) w)
                 w')).
  { subst w'. unfold exec, onMessage. rewrite tryCatch_run.
    destruct data as [message|].
    - pose proof (handleMessage_flags ws state message env w Hst) as H. cbv zeta in H.
      destruct (handleMessage ws message env w) as [[[]|] w1]; cbn [snd] in *; [exact H|].
      destruct H as [H | [Hk H]]; [left | right; split; [done|]];
        (eapply keepsFlags_trans; [exact H|]);
        by apply (preserves_sendError (keepsFlags ws)).
    - left. cbn [throw]. by apply (preserves_sendError (keepsFlags ws)). }
  destruct H as [[Ho Hown] | [Hkey [Ho Hown]]].
  - split; [done|]. destruct (Hown state Hst) as (st' & Hst' & Ha & Hi).
    exists st'. repeat split; try done; congruence.
  - split.
    + intros other Hne. rewrite Ho by done. cbn [clients set_clients].
      by rewrite lookup_alter_ne.
    + specialize (Hown (mkClientState (sessionId state) true (ip state))).
      cbn [clients set_clients] in Hown. rewrite lookup_alter_eq, Hst in Hown.
      destruct (Hown eq_refl) as (st' & Hst' & Ha & Hi).
      exists st'. repeat split; try done.
Qed.

End AdminFlag.

(** ** Leaving, closing and the membership sets *)

Lemma setDelete_absent (ws : WsId) (members : list WsId) :
  ws ∉ members -> setDelete ws members = members.
Proof.
  unfold setDelete. induction members as [|x rest IH]; [done|].
  rewrite not_elem_of_cons. intros [Hx Hrest].
  rewrite filter_cons_True by congruence. by rewrite IH.
Qed.

Lemma afterLeave_sets (ws : WsId) (st : ClientState) (w : World) :
  registryOk w ->
  clients w !! ws = Some st ->
  forall s, sessionClients (afterLeave ws (sessionId st) w) !! s
            = without ws (sessionClients w !! s).
Proof.
  intros [Hne Hbound Htruthy Halloc] Hst s.
  assert (Hfree : forall s orig,
            sessionId st <> Some s -> sessionClients w !! s = Some orig ->
            without ws (Some orig) = Some orig).
  { intros s' orig Hs Hlook.
    assert (Hin : ws ∉ orig).
    { intros Hin. destruct (Hbound s' orig ws Hlook Hin) as (st' & Hst' & Hsid). congruence. }
    unfold without. rewrite (setDelete_absent ws orig Hin).
    destruct (decide (length orig = 0%nat)) as [Hlen|]; [|done].
    apply nil_length_inv in Hlen. by apply Hne in Hlook. }
  unfold afterLeave.
  destruct (truthy (sessionId st)) eqn:Htr.
  2:{ destruct (sessionClients w !! s) as [orig|] eqn:Hlook; [|done].
      symmetry. apply (Hfree s); [|done].
      destruct (sessionId st) as [old|] eqn:Hold; [|done].
      intros [= ->]. cbn in Htr.
      destruct (String.eqb_spec s ""); [|discriminate]. subst s.
      by apply (Htruthy ws st Hst). }
  destruct (truthy_inv _ Htr) as (old & Hold & Holdne). rewrite Hold.
  cbn [default from_option id]. rewrite leaveSession_run. cbn [snd].
  destruct (decide (s = old)) as [->|Hs].
  - destruct (sessionClients w !! old) as [orig|] eqn:Horig; [|by rewrite Horig].
    unfold without. destruct (decide (length (setDelete ws orig) = 0%nat)); cbn.
    + by rewrite lookup_delete_eq.
    + by rewrite lookup_insert_eq.
  - assert (Hrest : sessionClients w !! s = without ws (sessionClients w !! s)).
    { destruct (sessionClients w !! s) as [orig|] eqn:Hlook; [|done].
      symmetry. apply (Hfree s); [|done]. rewrite Hold. congruence. }
    destruct (sessionClients w !! old) as [orig|] eqn:Horig; [|done].
    destruct (decide (length (setDelete ws orig) = 0%nat)); cbn.
    + by rewrite lookup_delete_ne.
    + by rewrite lookup_insert_ne.
Qed.









Section Roster.

Context {cfg : Config}.






Hypothesis uuid_nonempty : isUuid "" = false.



End Roster.

Section LeaveAndClose.

Context {cfg : Config}.

Lemma handleMessage_leave (w : World) (ws : WsId) (state : ClientState)
    (message : Json) (env : Env) :
  clients w !! ws = Some state ->
  hasType "LEAVE_SESSION" message ->
  handleMessage ws message env w =
  (Done tt,
   if truthy (sessionId state)
   then set_clients (alter unbind ws) (afterLeave ws (sessionId state) w)
   else w).
Proof.
  intros Hst (fields & -> & Hty). unfold handleMessage.
  rewrite bind_run. cbn [get]. rewrite Hst, bind_run. cbn [property ret]. rewrite Hty.
  repeat (case_decide; try done).
  unfold afterLeave. destruct (truthy (sessionId state)); [|done].
  by rewrite bind_run, leaveSession_run.
Qed.

(** X10: LEAVE_SESSION is silent.  In a world whose registry is
    consistent it clears the binding of the connection and keeps its admin
    flag and address; every membership set loses the socket and a set left
    empty is dropped, so the other members stay where they were; nobody is
    notified, nothing is stored, and leaving again changes nothing. *)
Theorem leave_unbinds_silently (w : World) (ws : WsId) (state : ClientState)
    (message : Json) (env : Env) :
  registryOk w ->
  clients w !! ws = Some state ->
  hasType "LEAVE_SESSION" message ->
  let w' := exec (onMessage ws (Some message) env) w in
  clients w' !! ws = Some (unbind state) /\
  (forall other, other <> ws -> clients w' !! other = clients w !! other) /\
  (forall sid, sessionClients w' !! sid = without ws (sessionClients w !! sid)) /\
  (forall sid members, sessionClients w' !! sid = Some members -> ws ∉ members) /\
  trace w' = trace w /\ chatMessage w' = chatMessage w /\
  chatSession w' = chatSession w /\ redis w' = redis w /\
  exec (onMessage ws (Some message) env) w' = w'.
Proof.
  intros Hok Hst Hty w'.
  assert (Hw' : w' = if truthy (sessionId state)
                     then set_clients (alter unbind ws) (afterLeave ws (sessionId state) w)
                     else w).
  { subst w'. unfold exec, onMessage.
    by rewrite tryCatch_run, (handleMessage_leave w ws state message env Hst Hty). }
  pose proof (afterLeave_sets ws state w Hok Hst) as Hsets.
  destruct (afterLeave_rest ws (sessionId state) w) as (Hcs & Hcm & Hr & Ht & _ & Hc).
  assert (Hnone : truthy (sessionId state) = false -> sessionId state = None).
  { destruct (sessionId state) as [old|] eqn:Hold; [|done]. cbn.
    destruct (String.eqb_spec old ""); [|done]. subst old.
    by destruct (bound_is_truthy _ Hok ws state Hst). }
  assert (Hlook : clients w' !! ws = Some (unbind state)).
  { rewrite Hw'. destruct (truthy (sessionId state)) eqn:Htr.
    - cbn [clients set_clients]. by rewrite Hc, lookup_alter_eq, Hst.
    - rewrite Hst. unfold unbind. rewrite <- (Hnone eq_refl). by destruct state. }
  assert (Hsets' : forall sid, sessionClients w' !! sid = without ws (sessionClients w !! sid)).
  { intros sid. rewrite <- Hsets, Hw'. unfold afterLeave.
    by destruct (truthy (sessionId state)). }
  split; [done|]. split.
  { intros other Ho. rewrite Hw'. destruct (truthy (sessionId state)); [|done].
    cbn [clients set_clients]. by rewrite Hc, lookup_alter_ne. }
  split; [done|]. split.
  { intros sid members. rewrite Hsets'. unfold without.
    destruct (sessionClients w !! sid) as [orig|]; [|done].
    destruct (decide _); [done|]. intros [= <-]. rewrite setDelete_spec. tauto. }
  repeat split; try (rewrite Hw'; by destruct (truthy (sessionId state))).
  unfold exec, onMessage.
  by rewrite tryCatch_run, (handleMessage_leave w' ws (unbind state) message env Hlook Hty).
Qed.


End LeaveAndClose.

(** ** The history a join receives *)

Lemma insertByCreatedAt_perm (m : ChatMessage) (rows : list ChatMessage) :
  insertByCreatedAt m rows ≡ₚ m :: rows.
Proof.
  induction rows as [|x rest IH]; [done|]. cbn.
  destruct (createdAt m <? createdAt x); [done|].
  rewrite IH. apply Permutation_swap.
Qed.

Lemma orderByCreatedAtAsc_perm (rows : list ChatMessage) :
  orderByCreatedAtAsc rows ≡ₚ rows.
Proof.
  induction rows as [|m rows IH] using rev_ind; [done|].
  rewrite orderByCreatedAtAsc_snoc, insertByCreatedAt_perm, IH.
  by rewrite Permutation_cons_append.
Qed.

Lemma insertByCreatedAt_ascending (m : ChatMessage) (rows : list ChatMessage) :
  ascending rows -> ascending (insertByCreatedAt m rows).
Proof.
  unfold ascending. induction rows as [|x rest IH]; intros Hs.
  - repeat constructor.
  - apply StronglySorted_inv in Hs as [Hrest Hx]. cbn.
    destruct (Z.ltb_spec (createdAt m) (createdAt x)).
    + constructor; [by constructor|]. constructor; [lia|].
      eapply Forall_impl; [exact Hx|]. cbn. intros; lia.
    + constructor; [by apply IH|].
      apply insertByCreatedAt_Forall; [lia | done].
Qed.

Lemma orderByCreatedAtAsc_ascending (rows : list ChatMessage) :
  ascending (orderByCreatedAtAsc rows).
Proof.
  induction rows as [|m rows IH] using rev_ind; [constructor|].
  rewrite orderByCreatedAtAsc_snoc. by apply insertByCreatedAt_ascending.
Qed.

Section JoinHistory.

Context {cfg : Config}.

(** X12: a join of an existing session, with the database answering,
    sends exactly one frame, SESSION_JOINED, to the joining socket whether
    or not anyone else is in the session: it carries the session row and the
    whole history of the session, every stored message of that session and
    no other, in ascending order of creation, with no limit on their
    number.  Nothing is stored or counted. *)
Theorem join_sends_whole_history (w : World) (ws : WsId) (state : ClientState)
    (message : Json) (env : Env) (data : WsJoinSessionData) (session : ChatSession) :
  clients w !! ws = Some state ->
  hasType "JOIN_SESSION" message ->
  WsJoinSessionSchema_safeParse (payloadOf message) = Some data ->
  adminClaimOk data ->
  e_dbFails env JoinFindSession = false ->
  e_dbFails env JoinFindMessages = false ->
  chatSession w !! j_sessionId data = Some session ->
  let w' := exec (onMessage ws (Some message) env) w in
  exists history,
    newEvents w w' = [EvSend ws (SESSION_JOINED session history)] /\
    history ≡ₚ filter (fun m => cm_sessionId m = j_sessionId data) (chatMessage w) /\
    ascending history /\
    chatMessage w' = chatMessage w /\ chatSession w' = chatSession w /\
    redis w' = redis w.
Proof.
  intros Hst Hty Hparse Hadmin Hfind Hmany Hsession w'. subst w'.
  unfold exec.
  rewrite (onMessage_join_verified w ws state message env data Hst Hty Hparse Hadmin).
  rewrite tryCatch_run, joinVerified_run, Hfind.
  assert (Hmarked : chatSession (adminMarked ws data w) = chatSession w /\
                    chatMessage (adminMarked ws data w) = chatMessage w /\
                    redis (adminMarked ws data w) = redis w /\
                    trace (adminMarked ws data w) = trace w).
  { unfold adminMarked. by destruct (default false (j_isAdmin data)). }
  destruct Hmarked as (Hcs & Hcm & Hr & Ht).
  rewrite Hcs, Hsession, Hmany. cbv zeta. cbn [snd].
  exists (findManyMessages (j_sessionId data) None (chatMessage w)).
  unfold afterJoin.
  destruct (afterLeave_rest ws (sessionId state) (adminMarked ws data w))
    as (Hcs' & Hcm' & Hr' & Ht' & _).
  split.
  { apply newEvents_app. cbn [trace set_trace set_sessionClients set_clients].
    by rewrite Ht', Ht, Hcm. }
  split; [apply orderByCreatedAtAsc_perm|].
  split; [apply orderByCreatedAtAsc_ascending|].
  cbn [chatMessage chatSession redis set_trace set_sessionClients set_clients].
  by rewrite Hcs', Hcm', Hr', Hcs, Hcm, Hr.
Qed.

End JoinHistory.

(** ** What a send delivers *)

Lemma extends_same (w w' : World) : trace w' = trace w -> extends w w'.
Proof. intros H. exists []. by rewrite H, app_nil_r. Qed.

#[global] Instance extends_frame : Frame (fun _ => True) extends.
Proof.
  constructor; try done.
  - intros w. by apply extends_same.
  - intros a b c [e1 H1] [e2 H2]. exists (e1 ++ e2). by rewrite H2, H1, <- app_assoc.
  - intros w evs _. by exists evs.
  - intros w row. by apply extends_same.
  - intros w f. by apply extends_same.
Qed.


Section Delivery.

Context {cfg : Config}.



Hypothesis uuid_nonempty : isUuid "" = false.


End Delivery.


Section VisitorSend.

Context {cfg : Config}.


End VisitorSend.

(** ** What the server does to the tables *)

Lemma tablesGrow_same (w w' : World) :
  chatMessage w' = chatMessage w -> chatSession w' = chatSession w -> tablesGrow w w'.
Proof.
  intros Hm Hs. split; [exists []; by rewrite Hm, app_nil_r | by rewrite Hs].
Qed.

Lemma tablesGrow_trans (a b c : World) : tablesGrow a b -> tablesGrow b c -> tablesGrow a c.
Proof.
  intros [[r1 H1] S1] [[r2 H2] S2]. split.
  - exists (r1 ++ r2). by rewrite H2, H1, <- app_assoc.
  - intros sid. by rewrite S2, S1.
Qed.

Lemma grow_ret {A} (a : A) : preserves tablesGrow (ret a).
Proof. intros w. by apply tablesGrow_same. Qed.

Lemma grow_bind {A B} (m : M A) (k : A -> M B) :
  preserves tablesGrow m -> (forall a, preserves tablesGrow (k a)) ->
  preserves tablesGrow (bind m k).
Proof.
  intros Hm Hk w. rewrite bind_run. specialize (Hm w).
  destruct (m w) as [[a|] w1]; [|exact Hm].
  eapply tablesGrow_trans; [exact Hm | apply Hk].
Qed.

Lemma grow_tryCatch {A} (m h : M A) :
  preserves tablesGrow m -> preserves tablesGrow h -> preserves tablesGrow (tryCatch m h).
Proof.
  intros Hm Hh w. rewrite tryCatch_run. specialize (Hm w).
  destruct (m w) as [[a|] w1]; [exact Hm|].
  eapply tablesGrow_trans; [exact Hm | apply Hh].
Qed.

Lemma grow_sendError (ws : WsId) (c t : string) : preserves tablesGrow (sendError ws c t).
Proof. intros w. rewrite sendError_run. by destruct (isOpen w ws); apply tablesGrow_same. Qed.

Lemma grow_broadcastToSession (sid : string) (m : WsMessage) (x : option WsId) :
  preserves tablesGrow (broadcastToSession sid m x).
Proof. intros w. rewrite broadcastToSession_run. by apply tablesGrow_same. Qed.

Lemma grow_findUniqueSession (env : Env) (c : DbCall) (id : string) :
  preserves tablesGrow (findUniqueSession env c id).
Proof.
  intros w. rewrite findUniqueSession_run. by destruct (e_dbFails env c); apply tablesGrow_same.
Qed.

Lemma grow_findMany (env : Env) (c : DbCall) (sid : string) (limit : option nat) :
  preserves tablesGrow (findMany env c sid limit).
Proof.
  intros w. rewrite findMany_run. by destruct (e_dbFails env c); apply tablesGrow_same.
Qed.

Lemma grow_createMessage (env : Env) (c : DbCall) (row : ChatMessage) :
  preserves tablesGrow (createMessage env c row).
Proof.
  intros w. rewrite createMessage_run. destruct (e_dbFails env c); [by apply tablesGrow_same|].
  split; [by exists [row] | done].
Qed.

Lemma grow_updateSession (env : Env) (c : DbCall) (id : string) (t : Z) :
  preserves tablesGrow (updateSession env c id t).
Proof.
  intros w. rewrite updateSession_run. destruct (e_dbFails env c); [by apply tablesGrow_same|].
  destruct (chatSession w !! id) as [s|] eqn:Hs; [|by apply tablesGrow_same].
  split; [exists []; cbn; by rewrite app_nil_r|].
  intros sid. cbn [snd chatSession set_chatSession].
  destruct (decide (sid = id)) as [->|Hne].
  - by rewrite lookup_insert_eq, Hs.
  - by rewrite lookup_insert_ne.
Qed.

Lemma grow_checkRateLimit (key : string) (limit window now : Z) (random : string)
    (fails : bool) :
  preserves tablesGrow (checkRateLimit key limit window now random fails).
Proof.
  intros w. destruct fails.
  - rewrite checkRateLimit_fails. by apply tablesGrow_same.
  - rewrite checkRateLimit_run. by apply tablesGrow_same.
Qed.

Section Tables.

Context {cfg : Config}.

Lemma grow_getAIResponse (messages : list AIChatMessage) (outcome : FetchOutcome) :
  preserves tablesGrow (getAIResponse messages outcome).
Proof. intros w. rewrite getAIResponse_run. by apply tablesGrow_same. Qed.

Lemma grow_aiReply (sid : string) (env : Env) : preserves tablesGrow (aiReply sid env).
Proof.
  unfold aiReply.
  apply grow_bind; [apply grow_findMany|]. intros history.
  apply grow_bind; [apply grow_broadcastToSession|]. intros _.
  apply grow_bind; [apply grow_getAIResponse|]. intros aiResult.
  apply grow_bind; [apply grow_broadcastToSession|]. intros _.
  destruct (truthy _); [|apply grow_ret].
  apply grow_bind; [apply grow_createMessage|]. intros aiMessage.
  apply grow_broadcastToSession.
Qed.

Lemma grow_handleSendMessage (ws : WsId) (state : ClientState)
    (payload : option Json) (env : Env) :
  preserves tablesGrow (handleSendMessage ws state payload env).
Proof.
  unfold handleSendMessage.
  destruct (negb (truthy (sessionId state))); [apply grow_sendError|].
  destruct (WsSendMessageSchema_safeParse payload); [|apply grow_sendError].
  apply grow_bind; [apply grow_checkRateLimit|]. intros r.
  destruct (negb (allowed r)); [apply grow_sendError|].
  apply grow_bind; [apply grow_findUniqueSession|]. intros session.
  destruct (negb _); [apply grow_sendError|].
  unfold saveMessage.
  apply grow_bind; [apply grow_createMessage|]. intros row.
  apply grow_bind; [apply grow_broadcastToSession|]. intros _.
  apply grow_bind; [destruct (negb (isAdmin state)); [apply grow_aiReply | apply grow_ret]|].
  intros _. apply grow_updateSession.
Qed.

Lemma grow_joinVerified (ws : WsId) (state : ClientState) (sid : string) (env : Env) :
  preserves tablesGrow (joinVerified ws state sid env).
Proof.
  intros w. rewrite joinVerified_run.
  destruct (e_dbFails env JoinFindSession); [by apply tablesGrow_same|].
  destruct (chatSession w !! sid); [|apply grow_sendError].
  cbv zeta. unfold afterJoin.
  destruct (afterLeave_rest ws (sessionId state) w) as (Hcs & Hcm & _).
  by destruct (e_dbFails env JoinFindMessages); apply tablesGrow_same.
Qed.

Lemma grow_handleJoinSession (ws : WsId) (state : ClientState)
    (payload : option Json) (env : Env) :
  preserves tablesGrow (handleJoinSession ws state payload env).
Proof.
  unfold handleJoinSession.
  destruct (WsJoinSessionSchema_safeParse payload) as [data|]; [|apply grow_sendError].
  destruct (default false (j_isAdmin data)); [|apply grow_joinVerified].
  destruct (_ || _); [apply grow_sendError|].
  apply grow_bind; [intros w; by apply tablesGrow_same|]. intros _.
  apply grow_joinVerified.
Qed.

Lemma grow_handleMessage (ws : WsId) (message : Json) (env : Env) :
  preserves tablesGrow (handleMessage ws message env).
Proof.
  unfold handleMessage.
  apply grow_bind; [intros w; by apply tablesGrow_same|]. intros w0.
  destruct (clients w0 !! ws) as [state|]; [|apply grow_ret].
  assert (Hprop : forall name, preserves tablesGrow (property name message)).
  { intros name w. destruct message; by apply tablesGrow_same. }
  apply grow_bind; [apply Hprop|]. intros type.
  assert (Hunknown : forall type,
            preserves tablesGrow (match templateString type with
                                  | Some text =>
                                      sendError ws "UNKNOWN_MESSAGE_TYPE"
                                                ("Unknown message type: " +:+ text)
                                  | None => throw
                                  end)).
  { intros type'. destruct (templateString type'); [apply grow_sendError|].
    intros w. by apply tablesGrow_same. }
  destruct type as [[| | |t| |]|]; try unknown_case Hunknown.
  repeat case_decide.
  - apply grow_bind; [apply Hprop|]. intros payload. apply grow_handleJoinSession.
  - destruct (truthy (sessionId state)) eqn:Hb; [|apply grow_ret].
    apply grow_bind.
    + intros w. pose proof (leave_if_bound_run ws (sessionId state) w) as Hl.
      rewrite Hb in Hl. rewrite Hl. cbn [snd].
      destruct (afterLeave_rest ws (sessionId state) w) as (Hcs & Hcm & _).
      by apply tablesGrow_same.
    + intros _ w. by apply tablesGrow_same.
  - apply grow_bind; [apply Hprop|]. intros payload. apply grow_handleSendMessage.
  - destruct (truthy (sessionId state)); [apply grow_broadcastToSession | apply grow_ret].
  - destruct (truthy (sessionId state)); [apply grow_broadcastToSession | apply grow_ret].
  - unknown_case Hunknown.
Qed.

(** X15: handling a connection, a frame or a close, the server never
    removes or rewrites a stored message (the message table only gains rows
    at its end) and never creates, removes, closes or reopens a session: the
    session table keeps its sessions, each unchanged but for its
    [updatedAt]. *)
Theorem server_only_appends_messages (w : World) (op : Op) :
  isServerOp op = true ->
  let w' := step w op in
  (exists rows, chatMessage w' = chatMessage w ++ rows) /\
  (forall sid, withUpdatedAt 0 <$> chatSession w' !! sid
               = withUpdatedAt 0 <$> chatSession w !! sid) /\
  (forall sid, status <$> chatSession w' !! sid = status <$> chatSession w !! sid).
Proof.
  intros Hop w'.
  assert (H : tablesGrow w w').
  { subst w'. destruct op as [xff remote | ws data env | ws | sessions messages store ready];
      [| | |done].
    - by apply tablesGrow_same.
    - cbn [step]. unfold exec, onMessage.
      apply (grow_tryCatch _ _); [|apply grow_sendError].
      destruct data; [apply grow_handleMessage | intros w0; by apply tablesGrow_same].
    - cbn [step]. set (wc := mkWorld _ _ _ _ _ _ _ _).
      apply (tablesGrow_trans w wc); [by apply tablesGrow_same|].
      unfold exec, onClose. rewrite bind_run. unfold get. rewrite bind_run.
      destruct (clients wc !! ws) as [st|].
      + rewrite leave_if_bound_run. cbn [snd modify].
        destruct (afterLeave_rest ws (sessionId st) wc) as (Hcs & Hcm & _).
        by apply tablesGrow_same.
      + by apply tablesGrow_same. }
  destruct H as [Hrows Hsessions]. split; [done|]. split; [done|].
  intros sid. specialize (Hsessions sid).
  destruct (chatSession w' !! sid) as [s'|], (chatSession w !! sid) as [s|];
    cbn in *; try done.
  injection Hsessions. intros. by f_equal.
Qed.

End Tables.

(** * Further properties of the rate limiter *)

Lemma zsetOf_after_check (key : string) (limit windowSeconds now : Z) (random : string)
    (w : World) :
  zsetOf (redis (checkRateLimit key limit windowSeconds now random false w).2)
         ("ratelimit:" +:+ key)
  = <[(now, random) := now]>
      (zremrangebyscore (now - windowSeconds * 1000) (zsetOf (redis w) ("ratelimit:" +:+ key))).
Proof.
  rewrite checkRateLimit_run. cbn [snd redis set_redis]. unfold zsetOf at 1.
  by rewrite lookup_insert_eq.
Qed.

(** X16: every attempt is counted, the refused ones too.  With Redis
    answering, [checkRateLimit] allows the attempt exactly when fewer than
    [limit] attempts lie in the window; [remaining] is never negative, is 0
    for a refused attempt and [limit - count - 1] for an allowed one;
    [resetIn] is always the whole window; and the attempt itself is in the
    window of an immediate re-check, so a client that keeps sending while
    refused stays refused. *)
Theorem every_attempt_is_counted (key : string) (limit windowSeconds now : Z)
    (random : string) (w : World) :
  0 < windowSeconds ->
  zsetOf (redis w) ("ratelimit:" +:+ key) !! (now, random) = None ->
  let r := checkRateLimit key limit windowSeconds now random false w in
  let count := attemptsInWindow (redis w) key now windowSeconds in
  exists result,
    r.1 = Done result /\
    (allowed result = true <-> count < limit) /\
    0 <= remaining result /\
    (allowed result = false -> remaining result = 0) /\
    (allowed result = true -> remaining result = limit - count - 1) /\
    resetIn result = windowSeconds /\
    attemptsInWindow (redis r.2) key now windowSeconds = count + 1.
Proof.
  intros Hw Hfresh r count. eexists. split; [reflexivity|]. cbn [allowed remaining resetIn].
  fold count.
  assert (Hbounds : forall c,
            ((c <? limit) = true <-> c < limit) /\ 0 <= Z.max 0 (limit - c - 1) /\
            ((c <? limit) = false -> Z.max 0 (limit - c - 1) = 0) /\
            ((c <? limit) = true -> Z.max 0 (limit - c - 1) = limit - c - 1)).
  { intros c. split; [apply Z.ltb_lt|]. split; [lia|].
    split; [intros H%Z.ltb_ge; lia | intros H%Z.ltb_lt; lia]. }
  destruct (Hbounds count) as (H1 & H2 & H3 & H4).
  split; [done|]. split; [done|]. split; [done|]. split; [done|]. split; [done|].
  subst r count. unfold attemptsInWindow. rewrite zsetOf_after_check.
  unfold zremrangebyscore.
  set (P := fun e : Member * Z => now - windowSeconds * 1000 < e.2).
  rewrite (map_filter_insert_True P) by (unfold P; cbn; lia).
  rewrite (map_filter_id P (filter P _)).
  2:{ intros m score Hlook. by apply map_lookup_filter_Some in Hlook as [_ ?]. }
  rewrite map_size_insert_None; [lia|].
  apply map_lookup_filter_None. by left.
Qed.

(** X17: a quiet window resets the count, with or without the key's
    expiry.  When every recorded attempt under a key is at least a window
    old, the oldest boundary included, the next check counts none of them and
    purges them: the sorted set then holds the new attempt alone, and the
    answer is the one an expired, absent key gives. *)
Theorem quiet_window_resets_the_count (key : string) (limit windowSeconds now : Z)
    (random : string) (w : World) :
  (forall m score,
     zsetOf (redis w) ("ratelimit:" +:+ key) !! m = Some score ->
     score + windowSeconds * 1000 <= now) ->
  let r := checkRateLimit key limit windowSeconds now random false w in
  attemptsInWindow (redis w) key now windowSeconds = 0 /\
  r.1 = Done (mkRateLimitResult (0 <? limit) (Z.max 0 (limit - 1)) windowSeconds) /\
  zsetOf (redis r.2) ("ratelimit:" +:+ key) = {[ (now, random) := now ]} /\
  r = checkRateLimit key limit windowSeconds now random false
        (set_redis (delete ("ratelimit:" +:+ key)) w).
Proof.
  intros Hold r.
  assert (Hempty : filter (fun e : Member * Z => now - windowSeconds * 1000 < e.2)
                          (zsetOf (redis w) ("ratelimit:" +:+ key)) = ∅).
  { apply map_empty_filter_2. intros m score Hlook. cbn. apply Hold in Hlook. lia. }
  assert (Hcount : attemptsInWindow (redis w) key now windowSeconds = 0).
  { unfold attemptsInWindow. by rewrite Hempty, map_size_empty. }
  split; [done|]. split.
  { subst r. rewrite checkRateLimit_run, Hcount. cbn [fst]. do 2 f_equal. lia. }
  split.
  { subst r. rewrite zsetOf_after_check. unfold zremrangebyscore. by rewrite Hempty. }
  subst r. rewrite !checkRateLimit_run.
  assert (Hgone : zsetOf (redis (set_redis (delete ("ratelimit:" +:+ key)) w))
                         ("ratelimit:" +:+ key) = ∅).
  { unfold zsetOf. cbn [redis set_redis]. by rewrite lookup_delete_eq. }
  assert (Hcount' : attemptsInWindow (redis (set_redis (delete ("ratelimit:" +:+ key)) w))
                                     key now windowSeconds = 0).
  { unfold attemptsInWindow. by rewrite Hgone, map_filter_empty, map_size_empty. }
  rewrite Hcount, Hcount', Hgone. unfold rateLimitTransaction, zremrangebyscore.
  rewrite Hempty, map_filter_empty. cbn [snd]. unfold set_redis. cbn.
  by rewrite insert_delete_eq.
Qed.

(** X18: the limiter keeps the keys apart.  A check under one key leaves
    the sorted set of every other key as it was, so it changes neither what
    a later check under another key answers nor what it records. *)
Theorem rate_limit_keys_are_separate (key other : string) (limit windowSeconds now : Z)
    (random : string) (fails : bool) (w : World) :
  key <> other ->
  let w' := (checkRateLimit key limit windowSeconds now random fails w).2 in
  zsetOf (redis w') ("ratelimit:" +:+ other) = zsetOf (redis w) ("ratelimit:" +:+ other) /\
  forall limit' window' now' random' fails',
    (checkRateLimit other limit' window' now' random' fails' w').1
      = (checkRateLimit other limit' window' now' random' fails' w).1 /\
    zsetOf (redis (checkRateLimit other limit' window' now' random' fails' w').2)
           ("ratelimit:" +:+ other)
      = zsetOf (redis (checkRateLimit other limit' window' now' random' fails' w).2)
               ("ratelimit:" +:+ other).
Proof.
  intros Hne w'.
  assert (Hsets : zsetOf (redis w') ("ratelimit:" +:+ other)
                  = zsetOf (redis w) ("ratelimit:" +:+ other)).
  { subst w'. destruct fails; [by rewrite checkRateLimit_fails|].
    rewrite checkRateLimit_run. cbn [snd redis set_redis]. unfold zsetOf.
    rewrite lookup_insert_ne; [done|]. intros H. by apply (String.app_inj "ratelimit:") in H. }
  split; [done|]. intros limit' window' now' random' fails'.
  destruct fails'; [by rewrite !checkRateLimit_fails|].
  rewrite !zsetOf_after_check, !checkRateLimit_run. cbn [fst].
  unfold attemptsInWindow. by rewrite Hsets.
Qed.

(** X19: Redis drops a key only when nothing under it counts any more.
    With a clock that does not run backwards (no recorded attempt is later
    than the check), the expiry a check sets on its key is one window after
    the check, and by then every attempt the key holds, the new one
    included, is a whole window old: a check made at or after the expiry
    finds the same count, none, whether or not Redis removed the key. *)
Theorem expiry_drops_nothing_that_counts (key : string) (limit windowSeconds now : Z)
    (random : string) (w : World) :
  (forall m score,
     zsetOf (redis w) ("ratelimit:" +:+ key) !! m = Some score -> score <= now) ->
  let w' := (checkRateLimit key limit windowSeconds now random false w).2 in
  exists k,
    redis w' !! ("ratelimit:" +:+ key) = Some k /\
    expireAt k = now + windowSeconds * 1000 /\
    forall later, expireAt k <= later ->
      attemptsInWindow (redis w') key later windowSeconds = 0 /\
      attemptsInWindow (redis (set_redis (delete ("ratelimit:" +:+ key)) w')) key later
                       windowSeconds = 0.
Proof.
  intros Hclock w'. subst w'. rewrite checkRateLimit_run. cbn [snd redis set_redis].
  eexists. split; [by rewrite lookup_insert_eq|]. split; [done|].
  cbn [expireAt rateLimitTransaction snd]. intros later Hlater. split.
  - unfold attemptsInWindow, zsetOf. rewrite lookup_insert_eq. cbn [zset].
    rewrite map_empty_filter_2; [by rewrite map_size_empty|].
    intros m score Hlook. cbn.
    destruct (decide (m = (now, random))) as [->|Hm].
    + rewrite lookup_insert_eq in Hlook. injection Hlook as <-. lia.
    + rewrite lookup_insert_ne in Hlook by done.
      apply map_lookup_filter_Some in Hlook as [Hlook _]. apply Hclock in Hlook. lia.
  - unfold attemptsInWindow, zsetOf. rewrite lookup_delete_eq.
    by rewrite map_filter_empty, map_size_empty.
Qed.

(** * The address of a connection and the response generator *)

Lemma firstSegment_head (head tail : string) :
  ~ In ","%char (list_ascii_of_string head) ->
  firstSegment (head +:+ String ","%char tail) = head /\ firstSegment head = head.
Proof.
  induction head as [|c head IH]; intros Hno; [done|].
  destruct IH as [H1 H2]; [cbn in Hno; tauto|].
  change (firstSegment (String c head +:+ String ","%char tail))
    with (if Ascii.eqb c ","%char then EmptyString
          else String c (firstSegment (head +:+ String ","%char tail))).
  change (firstSegment (String c head))
    with (if Ascii.eqb c ","%char then EmptyString else String c (firstSegment head)).
  rewrite H1, H2.
  destruct (Ascii.eqb_spec c ","%char) as [->|Hc]; [cbn in Hno; tauto | done].
Qed.

(** X20: the address a connection is known by, and so the key its
    messages are rate-limited under, is the text of the X-Forwarded-For
    header up to its first comma whenever that text is not empty, whatever
    the socket's own address; only otherwise is it the socket's address,
    and the word unknown when that is missing or empty too.  It is never the
    empty string, and nothing is trimmed from it. *)
Theorem connection_address (xff remote : option string) :
  clientIp xff remote <> "" /\
  (forall head tail,
     head <> "" -> ~ In ","%char (list_ascii_of_string head) ->
     clientIp (Some (head +:+ String ","%char tail)) remote = head /\
     clientIp (Some head) remote = head) /\
  (forall tail,
     xff = None \/ xff = Some "" \/ xff = Some (String ","%char tail) ->
     clientIp xff remote = if truthy remote then default "" remote else "unknown") /\
  forall w,
    let w' := exec (onConnection xff remote) w in
    clients w' !! nextWs w = Some (mkClientState None false (clientIp xff remote)) /\
    isOpen w' (nextWs w) = true /\ nextWs w' = S (nextWs w) /\
    forall other, other <> nextWs w -> clients w' !! other = clients w !! other.
Proof.
  split; [|split; [|split]].
  - unfold clientIp. destruct (truthy (firstSegment <$> xff)) eqn:H1.
    + destruct (truthy_inv _ H1) as (s & -> & Hs). done.
    + destruct (truthy remote) eqn:H2; [|done].
      destruct (truthy_inv _ H2) as (s & -> & Hs). done.
  - intros head tail Hne Hno. destruct (firstSegment_head head tail Hno) as [H1 H2].
    assert (Hip : forall s, clientIp (Some s) remote =
                            if truthy (Some (firstSegment s)) then firstSegment s
                            else if truthy remote then default "" remote else "unknown")
      by reflexivity.
    by rewrite !Hip, H1, H2, (truthy_Some head Hne).
  - intros tail [-> | [-> | ->]]; reflexivity.
  - intros w w'. subst w'. unfold exec, onConnection. monad_unfold.
    cbn [clients nextWs]. split; [by rewrite lookup_insert_eq|]. split.
    + unfold isOpen. cbn [readyState]. rewrite lookup_insert_eq. by apply bool_decide_eq_true_2.
    + split; [done|]. intros other Ho. by rewrite lookup_insert_ne.
Qed.

Section Generator.

Context {cfg : Config}.

(** X21: [getAIResponse] never throws.  Whatever happens to the request
    (it is rejected, answered with an error status, answered with a body
    that is no JSON or holds no text) the function returns, having made one
    request whose messages are the system prompt followed by the history it
    was given, unchanged; the content it returns is empty exactly when it
    reports an error, and a content it returns without an error is the text
    the generator sent. *)
Theorem generator_failures_are_values (messages : list AIChatMessage)
    (outcome : FetchOutcome) (w : World) :
  exists result,
    getAIResponse messages outcome w =
      (Done result,
       set_trace (fun t => t ++ [EvFetch (mkAIChatMessage ai_system SYSTEM_PROMPT :: messages)])
                 w) /\
    (aiContent result = "" <-> aiError result <> None) /\
    (aiError result = None -> outcome = FetchJson (Some (aiContent result))).
Proof.
  exists (aiResultOf outcome). split; [apply getAIResponse_run|].
  destruct outcome as [| body | | [text|]]; cbn; try (split; [split|]; done).
  destruct (String.eqb_spec text ""); cbn; [split; [split|]; done|].
  split; [split; [done | intros H; by destruct H] | done].
Qed.

End Generator.

(** * Properties of the HTTP routes *)

Lemma findSession_run (fails : bool) (id : string) (w : World) :
  findSession fails id w = if fails then (Thrown, w) else (Done (chatSession w !! id), w).
Proof. by destruct fails. Qed.

Lemma findMessages_run (fails : bool) (sid : string) (limit : option nat) (w : World) :
  findMessages fails sid limit w =
  if fails then (Thrown, w) else (Done (findManyMessages sid limit (chatMessage w)), w).
Proof. by destruct fails. Qed.

Lemma insertMessage_run (fails : bool) (row : ChatMessage) (w : World) :
  insertMessage fails row w =
  if fails then (Thrown, w)
  else (Done row, set_chatMessage (fun table => table ++ [row]) w).
Proof. by destruct fails. Qed.

Lemma insertSession_run (fails : bool) (row : ChatSession) (w : World) :
  insertSession fails row w =
  if fails then (Thrown, w)
  else match chatSession w !! cs_id row with
       | Some _ => (Thrown, w)
       | None => (Done row, set_chatSession (<[cs_id row := row]>) w)
       end.
Proof.
  destruct fails; [done|]. unfold insertSession. rewrite bind_run. cbn [ret].
  rewrite bind_run. cbn [get]. by destruct (chatSession w !! cs_id row).
Qed.

Lemma changeSession_run (fails : bool) (id : string) (f : ChatSession -> ChatSession)
    (w : World) :
  changeSession fails id f w =
  if fails then (Thrown, w)
  else match chatSession w !! id with
       | Some s => (Done tt, set_chatSession (<[id := f s]>) w)
       | None => (Thrown, w)
       end.
Proof.
  destruct fails; [done|]. unfold changeSession. rewrite bind_run. cbn [ret].
  rewrite bind_run. cbn [get]. by destruct (chatSession w !! id).
Qed.

(** The calls of the routes are those of the WebSocket handlers. *)
Lemma prisma_calls_agree (env : Env) (c : DbCall) :
  (forall id, findUniqueSession env c id = findSession (e_dbFails env c) id) /\
  (forall sid limit, findMany env c sid limit = findMessages (e_dbFails env c) sid limit) /\
  (forall row, createMessage env c row = insertMessage (e_dbFails env c) row) /\
  (forall id t, updateSession env c id t = changeSession (e_dbFails env c) id (withUpdatedAt t)).
Proof. done. Qed.

Lemma rateLimit_run (options : RateLimitOptions) (req : Request) (env : HttpEnv)
    (next : list (string * Z) -> M Response) (w : World) :
  rateLimit options req env next w =
  if h_redisFails env then next [] w
  else
    let count := requestAttempts w options req env in
    let headers :=
      [("X-RateLimit-Limit", rl_limit options);
       ("X-RateLimit-Remaining", Z.max 0 (rl_limit options - count - 1));
       ("X-RateLimit-Reset", rl_windowSeconds options)] in
    if count <? rl_limit options
    then next headers (requestRecorded options req env w)
    else (Done (tooManyRequests headers), requestRecorded options req env w).
Proof.
  unfold rateLimit. cbv zeta. rewrite bind_run, tryCatch_run, bind_run.
  destruct (h_redisFails env).
  - by rewrite checkRateLimit_fails.
  - unfold requestRecorded, requestAttempts. rewrite checkRateLimit_run. cbn [ret snd].
    unfold rateLimitHeaders. cbn [allowed remaining resetIn].
    by destruct (_ <? _).
Qed.

Lemma requestRecorded_rest (options : RateLimitOptions) (req : Request) (env : HttpEnv)
    (w : World) :
  let w' := requestRecorded options req env w in
  sameRegistry w w' /\ trace w' = trace w /\ chatMessage w' = chatMessage w /\
  chatSession w' = chatSession w /\
  zsetOf (redis w') ("ratelimit:" +:+ (rl_keyPrefix options +:+ ":" +:+ requestAddress req))
    !! (h_now env, h_random env) = Some (h_now env).
Proof.
  cbv zeta. unfold requestRecorded. rewrite zsetOf_after_check, lookup_insert_eq.
  by rewrite checkRateLimit_run.
Qed.

(** Every answer of [m] carries the headers [h] and is no 429. *)
Lemma answers_bind {A} (P : Response -> Prop) (m : M A) (k : A -> M Response) :
  (forall a w r w', k a w = (Done r, w') -> P r) ->
  forall w r w', bind m k w = (Done r, w') -> P r.
Proof.
  intros Hk w r w'. rewrite bind_run. destruct (m w) as [[a|] w1]; [apply Hk | done].
Qed.

Lemma answers_tryCatch (P : Response -> Prop) (m : M Response) (fallback : Response) :
  (forall w r w', m w = (Done r, w') -> P r) -> P fallback ->
  forall w r w', tryCatch m (ret fallback) w = (Done r, w') -> P r.
Proof.
  intros Hm Hf w r w'. rewrite tryCatch_run. destruct (m w) as [[a|] w1] eqn:Hrun.
  - intros [= -> ->]. by eapply Hm.
  - by intros [= <- _].
Qed.

Lemma answers_ret (P : Response -> Prop) (response : Response) :
  P response -> forall w r w', ret response w = (Done r, w') -> P r.
Proof. by intros H w r w' [= <- _]. Qed.

(** X22: the HTTP limiter fails open.  When Redis cannot be reached the
    middleware lets the request through, whatever was counted before: the
    rest of the route runs on the untouched world.  In particular POST
    /chat/messages and POST /chat/sessions then never answer 429, and their
    answers carry no rate-limit header. *)
Theorem http_limiter_fails_open {cfg : Config} (req : Request) (env : HttpEnv) (w : World) :
  h_redisFails env = true ->
  (forall options next, rateLimit options req env next w = next [] w) /\
  forall response w',
    postMessage req env w = (Done response, w') \/
    startSession req env w = (Done response, w') ->
    res_status response <> 429 /\ res_headers response = [].
Proof.
  intros Hdown.
  assert (Hopen : forall options next, rateLimit options req env next w = next [] w).
  { intros options next. by rewrite rateLimit_run, Hdown. }
  split; [done|].
  intros response w'. unfold postMessage, startSession. rewrite !Hopen. unfold validateBody.
  set (P := fun r : Response => res_status r <> 429 /\ res_headers r = []).
  intros [H | H]; revert H.
  - destruct (SendMessageSchema_safeParse (req_body req)) as [[sid text]|];
      [|by apply (answers_ret P)].
    unfold postMessageHandler.
    apply (answers_tryCatch P); [|done].
    apply (answers_bind P). intros [session|]; [|by apply (answers_ret P)].
    destruct (negb _); [by apply (answers_ret P)|].
    do 4 (apply (answers_bind P); intros ?).
    apply (answers_bind P). intros _. by apply (answers_ret P).
  - destruct (StartChatSessionSchema_safeParse (req_body req)) as [name|];
      [|by apply (answers_ret P)].
    apply (answers_tryCatch P); [|done]. cbv zeta.
    do 2 (apply (answers_bind P); intros ?). by apply (answers_ret P).
Qed.

(** X23: over the limit the route is not run.  With Redis answering and
    [limit] or more attempts of the address in the window, the middleware
    answers 429 RATE_LIMIT_EXCEEDED with the headers limit, 0 remaining and
    the window; the rest of the route does not run, so nothing is stored,
    looked up or fetched; and the refused attempt is recorded all the
    same. *)
Theorem over_the_limit_the_route_is_not_run (options : RateLimitOptions) (req : Request)
    (env : HttpEnv) (next : list (string * Z) -> M Response) (w : World) :
  h_redisFails env = false ->
  rl_limit options <= requestAttempts w options req env ->
  let r := rateLimit options req env next w in
  r.1 = Done (mkResponse 429
                [("X-RateLimit-Limit", rl_limit options);
                 ("X-RateLimit-Remaining", 0);
                 ("X-RateLimit-Reset", rl_windowSeconds options)]
                (ErrorBody "RATE_LIMIT_EXCEEDED" "Too many requests. Please try again later.")) /\
  sameRegistry w r.2 /\ trace r.2 = trace w /\ chatMessage r.2 = chatMessage w /\
  chatSession r.2 = chatSession w /\
  zsetOf (redis r.2) ("ratelimit:" +:+ (rl_keyPrefix options +:+ ":" +:+ requestAddress req))
    !! (h_now env, h_random env) = Some (h_now env).
Proof.
  intros Hup Hover r. subst r. rewrite rateLimit_run, Hup. cbv zeta.
  apply Z.ltb_ge in Hover as Hlt. rewrite Hlt. cbn [fst snd]. split.
  - unfold tooManyRequests. do 3 f_equal. f_equal. f_equal. lia.
  - apply requestRecorded_rest.
Qed.

Lemma rateLimit_allowed (options : RateLimitOptions) (req : Request) (env : HttpEnv)
    (next : list (string * Z) -> M Response) (w : World) :
  h_redisFails env = false ->
  requestAttempts w options req env < rl_limit options ->
  rateLimit options req env next w =
  next (allowedHeaders options (requestAttempts w options req env))
       (requestRecorded options req env w).
Proof.
  intros Hup Hunder. rewrite rateLimit_run, Hup. cbv zeta.
  apply Z.ltb_lt in Hunder as Hlt. rewrite Hlt. unfold allowedHeaders.
  by rewrite Z.max_r by lia.
Qed.

Section Posts.

Context {cfg : Config}.

(** X24: POST /chat/messages counts a request before it looks at it.
    With Redis answering and the address under its limit, a request whose
    body fails the schema is answered 400 VALIDATION_ERROR and nothing is
    stored, looked up or fetched, but the attempt is recorded under the
    address and the answer already shows one fewer remaining; over the
    WebSocket the same invalid content costs nothing. *)
Theorem invalid_post_is_still_counted (req : Request) (env : HttpEnv) (w : World) :
  h_redisFails env = false ->
  requestAttempts w postLimit req env < 30 ->
  SendMessageSchema_safeParse (req_body req) = None ->
  let r := postMessage req env w in
  r.1 = Done (mkResponse 400
                [("X-RateLimit-Limit", 30);
                 ("X-RateLimit-Remaining", 29 - requestAttempts w postLimit req env);
                 ("X-RateLimit-Reset", 60)]
                (ErrorBody "VALIDATION_ERROR" "Invalid request body")) /\
  sameRegistry w r.2 /\ trace r.2 = trace w /\ chatMessage r.2 = chatMessage w /\
  chatSession r.2 = chatSession w /\
  zsetOf (redis r.2) ("ratelimit:" +:+ ("chat-message:" +:+ requestAddress req))
    !! (h_now env, h_random env) = Some (h_now env).
Proof.
  intros Hup Hunder Hbody r. subst r. unfold postMessage. fold postLimit.
  rewrite (rateLimit_allowed postLimit req env _ w Hup Hunder).
  unfold validateBody. rewrite Hbody. cbn [ret fst snd]. split.
  - unfold validationError, allowedHeaders. cbn [rl_limit rl_windowSeconds postLimit].
    do 3 f_equal. f_equal. f_equal. lia.
  - apply (requestRecorded_rest postLimit).
Qed.

(** X25: what POST /chat/messages does with a valid body when the
    limiter lets it through and no database call fails.  A session that does
    not exist gives 404 SESSION_NOT_FOUND and one that is not ACTIVE gives
    400 SESSION_CLOSED, nothing being stored or fetched.  Otherwise the
    content is stored as a USER row, whatever headers the request carries;
    the generator is called once with the first 20 messages of the session;
    a non-empty answer is stored as an ASSISTANT row; the session's
    [updatedAt] is set; the answer is 200 with both rows.  No frame is sent
    to any socket: the members of the session connected over the WebSocket
    are not told of either row. *)
Theorem post_message_outcomes (req : Request) (env : HttpEnv) (w : World)
    (sid text : string) :
  h_redisFails env = false ->
  requestAttempts w postLimit req env < 30 ->
  SendMessageSchema_safeParse (req_body req) = Some (sid, text) ->
  (forall c, h_dbFails env c = false) ->
  let r := postMessage req env w in
  let headers := allowedHeaders postLimit (requestAttempts w postLimit req env) in
  let row := mkChatMessage (h_messageId env) sid USER text (h_messageCreatedAt env) in
  let answer := aiContent (aiResultOf (h_fetch env)) in
  let reply := mkChatMessage (h_aiMessageId env) sid ASSISTANT answer
                             (h_aiMessageCreatedAt env) in
  sameRegistry w r.2 /\
  (chatSession w !! sid = None ->
   r.1 = Done (mkResponse 404 headers
                 (ErrorBody "SESSION_NOT_FOUND" "Chat session not found")) /\
   trace r.2 = trace w /\ chatMessage r.2 = chatMessage w /\
   chatSession r.2 = chatSession w) /\
  (forall session,
     chatSession w !! sid = Some session -> status session <> ACTIVE ->
     r.1 = Done (mkResponse 400 headers
                   (ErrorBody "SESSION_CLOSED" "This chat session has been closed")) /\
     trace r.2 = trace w /\ chatMessage r.2 = chatMessage w /\
     chatSession r.2 = chatSession w) /\
  (forall session,
     chatSession w !! sid = Some session -> status session = ACTIVE ->
     r.1 = Done (mkResponse 200 headers
                   (MessageSent row (if truthy (Some answer) then Some reply else None))) /\
     chatMessage r.2 =
       chatMessage w ++ row :: (if truthy (Some answer) then [reply] else []) /\
     newEvents w r.2 =
       [EvFetch (mkAIChatMessage ai_system SYSTEM_PROMPT
                 :: map (fun m => mkAIChatMessage (toLowerCase (role m)) (content m))
                        (findManyMessages sid (Some 20%nat) (chatMessage w ++ [row])))] /\
     chatSession r.2 = <[sid := withUpdatedAt (h_updatedAt env) session]> (chatSession w)).
Proof.
  intros Hup Hunder Hbody Hdb r headers row answer reply. subst r.
  unfold postMessage. fold postLimit.
  rewrite (rateLimit_allowed postLimit req env _ w Hup Hunder).
  unfold validateBody. rewrite Hbody. cbn [fst snd]. fold headers.
  destruct (requestRecorded_rest postLimit req env w) as (Hreg & Htr & Hcm & Hcs & _).
  set (w0 := requestRecorded postLimit req env w) in *.
  unfold postMessageHandler. rewrite tryCatch_run, bind_run, findSession_run, Hdb, Hcs.
  destruct (chatSession w !! sid) as [session|] eqn:Hsession.
  2:{ cbn [ret fst snd]. split; [done|]. split; [by intros _; repeat split|].
      split; by intros s [=]. }
  destruct (status session) eqn:Hstatus.
  2:{ rewrite bool_decide_eq_false_2 by done. cbn [negb ret fst snd].
      split; [done|]. split; [done|]. split; [|intros s [= <-] ?; congruence].
      intros s [= <-] _. by repeat split. }
  rewrite bool_decide_eq_true_2 by done. cbn [negb].
  rewrite bind_run, insertMessage_run, Hdb.
  rewrite bind_run, findMessages_run, Hdb.
  rewrite bind_run, getAIResponse_run, bind_run.
  fold row. cbn [chatMessage set_chatMessage]. fold answer.
  assert (Hfinal : forall wx,
            chatSession wx = chatSession w ->
            changeSession (h_dbFails env PostUpdateSession) sid
                          (withUpdatedAt (h_updatedAt env)) wx
            = (Done tt, set_chatSession (<[sid := withUpdatedAt (h_updatedAt env) session]>) wx)).
  { intros wx Hwx. by rewrite changeSession_run, Hdb, Hwx, Hsession. }
  destruct (truthy (Some answer)) eqn:Hanswer.
  - rewrite bind_run, insertMessage_run, Hdb. cbn [ret]. rewrite bind_run, Hfinal by done.
    cbn [ret fst snd]. split; [done|]. split; [done|]. split; [intros s [= <-] ?; congruence|].
    intros s [= <-] _. split; [done|].
    cbn [chatMessage chatSession trace set_chatSession set_chatMessage set_trace].
    rewrite Hcm, Hcs. split; [by rewrite <- app_assoc|]. split; [|done].
    apply newEvents_app. cbn [trace set_chatSession set_chatMessage set_trace].
    by rewrite Htr.
  - cbn [ret]. rewrite bind_run, Hfinal by done.
    cbn [ret fst snd]. split; [done|]. split; [done|]. split; [intros s [= <-] ?; congruence|].
    intros s [= <-] _. split; [done|].
    cbn [chatMessage chatSession trace set_chatSession set_chatMessage set_trace].
    rewrite Hcm, Hcs. split; [done|]. split; [|done].
    apply newEvents_app. cbn [trace set_chatSession set_chatMessage set_trace].
    by rewrite Htr.
Qed.

End Posts.

(** ** What no request does *)

Lemma behind_same (w w' : World) :
  sameRegistry w w' -> trace w' = trace w -> chatMessage w' = chatMessage w ->
  chatSession w' = chatSession w -> behindTheSockets w w'.
Proof.
  intros Hr Ht Hm Hs. split; [done|]. split; [exists []; by rewrite Ht, app_nil_r|].
  split; [exists []; by rewrite Hm, app_nil_r|].
  intros sid s Hlook. exists s. by rewrite Hs.
Qed.

Lemma behind_refl (w : World) : behindTheSockets w w.
Proof. by apply behind_same. Qed.

Lemma behind_trans (a b c : World) :
  behindTheSockets a b -> behindTheSockets b c -> behindTheSockets a c.
Proof.
  intros (R1 & (e1 & T1 & F1) & (r1 & M1) & S1) (R2 & (e2 & T2 & F2) & (r2 & M2) & S2).
  split; [by eapply sameRegistry_trans|].
  split; [exists (e1 ++ e2); rewrite T2, T1, <- app_assoc; split; [done | by apply Forall_app]|].
  split; [exists (r1 ++ r2); by rewrite M2, M1, <- app_assoc|].
  intros sid s Hlook. destruct (S1 sid s Hlook) as (s1 & Hs1 & Hc1).
  destruct (S2 sid s1 Hs1) as (s2 & Hs2 & Hc2). exists s2. split; [done|]. auto.
Qed.

Lemma behind_bind {A B} (m : M A) (k : A -> M B) :
  preserves behindTheSockets m -> (forall a, preserves behindTheSockets (k a)) ->
  preserves behindTheSockets (bind m k).
Proof.
  intros Hm Hk w. rewrite bind_run. specialize (Hm w).
  destruct (m w) as [[a|] w1]; [|exact Hm].
  eapply behind_trans; [exact Hm | apply Hk].
Qed.

Lemma behind_tryCatch {A} (m h : M A) :
  preserves behindTheSockets m -> preserves behindTheSockets h ->
  preserves behindTheSockets (tryCatch m h).
Proof.
  intros Hm Hh w. rewrite tryCatch_run. specialize (Hm w).
  destruct (m w) as [[a|] w1]; [exact Hm|].
  eapply behind_trans; [exact Hm | apply Hh].
Qed.

Lemma behind_ret {A} (a : A) : preserves behindTheSockets (ret a).
Proof. intros w. apply behind_refl. Qed.

Lemma behind_findSession (fails : bool) (id : string) :
  preserves behindTheSockets (findSession fails id).
Proof. intros w. rewrite findSession_run. destruct fails; apply behind_refl. Qed.

Lemma behind_findMessages (fails : bool) (sid : string) (limit : option nat) :
  preserves behindTheSockets (findMessages fails sid limit).
Proof. intros w. rewrite findMessages_run. destruct fails; apply behind_refl. Qed.

Lemma behind_insertMessage (fails : bool) (row : ChatMessage) :
  preserves behindTheSockets (insertMessage fails row).
Proof.
  intros w. rewrite insertMessage_run. destruct fails; [apply behind_refl|].
  split; [done|]. split; [exists []; cbn; by rewrite app_nil_r|].
  split; [by exists [row]|]. intros sid s Hlook. by exists s.
Qed.

Lemma behind_insertSession (fails : bool) (row : ChatSession) :
  preserves behindTheSockets (insertSession fails row).
Proof.
  intros w. rewrite insertSession_run. destruct fails; [apply behind_refl|].
  destruct (chatSession w !! cs_id row) eqn:Hfree; [apply behind_refl|].
  split; [done|]. split; [exists []; cbn; by rewrite app_nil_r|].
  split; [exists []; cbn; by rewrite app_nil_r|].
  intros sid s Hlook. exists s. cbn [snd chatSession set_chatSession].
  rewrite lookup_insert_ne; [done|]. congruence.
Qed.

Lemma behind_changeSession (fails : bool) (id : string) (f : ChatSession -> ChatSession) :
  (forall s, status s = CLOSED -> status (f s) = CLOSED) ->
  preserves behindTheSockets (changeSession fails id f).
Proof.
  intros Hf w. rewrite changeSession_run. destruct fails; [apply behind_refl|].
  destruct (chatSession w !! id) as [s0|] eqn:Hs0; [|apply behind_refl].
  split; [done|]. split; [exists []; cbn; by rewrite app_nil_r|].
  split; [exists []; cbn; by rewrite app_nil_r|].
  intros sid s Hlook. cbn [snd chatSession set_chatSession].
  destruct (decide (sid = id)) as [->|Hne].
  - rewrite lookup_insert_eq. exists (f s0). split; [done|].
    rewrite Hs0 in Hlook. injection Hlook as <-. apply Hf.
  - rewrite lookup_insert_ne by done. by exists s.
Qed.

Lemma behind_rateLimit (options : RateLimitOptions) (req : Request) (env : HttpEnv)
    (next : list (string * Z) -> M Response) :
  (forall headers, preserves behindTheSockets (next headers)) ->
  preserves behindTheSockets (rateLimit options req env next).
Proof.
  intros Hnext w. rewrite rateLimit_run. destruct (h_redisFails env); [apply Hnext|].
  cbv zeta.
  assert (Hrec : behindTheSockets w (requestRecorded options req env w)).
  { destruct (requestRecorded_rest options req env w) as (? & ? & ? & ? & _).
    by apply behind_same. }
  destruct (_ <? _); [|exact Hrec].
  eapply behind_trans; [exact Hrec | apply Hnext].
Qed.

Section NoRequest.

Context {cfg : Config}.

Lemma behind_getAIResponse (messages : list AIChatMessage) (outcome : FetchOutcome) :
  preserves behindTheSockets (getAIResponse messages outcome).
Proof.
  intros w. rewrite getAIResponse_run. split; [done|].
  split; [eexists; split; [done | by repeat constructor]|].
  split; [exists []; cbn; by rewrite app_nil_r|]. intros sid s Hlook. by exists s.
Qed.

Lemma behind_validateBody {A} (schema : option Json -> option A) (req : Request)
    (headers : list (string * Z)) (next : A -> M Response) :
  (forall a, preserves behindTheSockets (next a)) ->
  preserves behindTheSockets (validateBody schema req headers next).
Proof.
  intros Hnext. unfold validateBody. destruct (schema (req_body req)); [apply Hnext|].
  apply behind_ret.
Qed.

Lemma behind_validateParams (req : Request) (headers : list (string * Z))
    (next : string -> M Response) :
  (forall a, preserves behindTheSockets (next a)) ->
  preserves behindTheSockets (validateParams req headers next).
Proof.
  intros Hnext. unfold validateParams. destruct (isUuid _); [apply Hnext | apply behind_ret].
Qed.

Lemma behind_requireAdmin (req : Request) (next : M Response) :
  preserves behindTheSockets next -> preserves behindTheSockets (requireAdmin req next).
Proof. intros Hnext. unfold requireAdmin. destruct (_ || _); [apply behind_ret | done]. Qed.

(** X26: no request of the chat routes reaches a socket or undoes
    anything.  Whatever the request and whatever fails, a route leaves the
    connection registry as it was, sends and broadcasts no frame (the only
    event it can add is a call of the generator), only appends to the
    message table, removes no session, and never turns a CLOSED session
    back to ACTIVE. *)
Theorem requests_stay_behind_the_sockets (route : Route) (req : Request) (env : HttpEnv)
    (w : World) :
  let w' := exec (serve route req env) w in
  sameRegistry w w' /\
  Forall (fun ev => isFrame ev = false) (newEvents w w') /\
  (exists rows, chatMessage w' = chatMessage w ++ rows) /\
  (forall sid s, chatSession w !! sid = Some s ->
     exists s', chatSession w' !! sid = Some s' /\
                (status s = CLOSED -> status s' = CLOSED)).
Proof.
  intros w'.
  assert (H : behindTheSockets w w').
  { subst w'. unfold exec. revert w. change (preserves behindTheSockets (serve route req env)).
    destruct route; cbn [serve].
    - apply behind_rateLimit. intros headers. apply behind_validateBody. intros name.
      apply behind_tryCatch; [|apply behind_ret]. cbv zeta.
      apply behind_bind; [apply behind_insertSession|]. intros session.
      apply behind_bind; [apply behind_insertMessage|]. intros _. apply behind_ret.
    - apply behind_rateLimit. intros headers. apply behind_validateBody. intros data.
      unfold postMessageHandler. apply behind_tryCatch; [|apply behind_ret].
      apply behind_bind; [apply behind_findSession|]. intros [session|]; [|apply behind_ret].
      destruct (negb _); [apply behind_ret|].
      apply behind_bind; [apply behind_insertMessage|]. intros userMessage.
      apply behind_bind; [apply behind_findMessages|]. intros history.
      apply behind_bind; [apply behind_getAIResponse|]. intros aiResult.
      apply behind_bind.
      { destruct (truthy _); [|apply behind_ret].
        apply behind_bind; [apply behind_insertMessage|]. intros row. apply behind_ret. }
      intros aiMessage. apply behind_bind; [by apply behind_changeSession|].
      intros _. apply behind_ret.
    - apply behind_validateParams. intros sid. cbv zeta.
      apply behind_bind; [apply behind_findSession|]. intros [session|]; [|apply behind_ret].
      destruct (_ && _); [apply behind_ret|].
      apply behind_bind; [apply behind_findMessages|]. intros messages. apply behind_ret.
    - apply behind_requireAdmin, behind_validateParams. intros sid.
      apply behind_bind; [apply behind_findSession|]. intros [session|]; [|apply behind_ret].
      apply behind_bind; [by apply behind_changeSession|]. intros _. apply behind_ret.
    - apply behind_requireAdmin, behind_validateParams. intros sid.
      apply behind_validateBody. intros text.
      apply behind_bind; [apply behind_findSession|]. intros [session|]; [|apply behind_ret].
      apply behind_bind; [apply behind_insertMessage|]. intros message.
      apply behind_bind; [by apply behind_changeSession|]. intros _. apply behind_ret. }
  destruct H as (Hr & (evs & Ht & Hf) & Hm & Hs).
  split; [done|]. split; [by rewrite (newEvents_app w w' evs Ht)|]. done.
Qed.

End NoRequest.

Section AdminRoutes.

Context {cfg : Config}.

(** X27: who may read a session over GET /chat/sessions/:sessionId/messages.
    With the database answering and the session found, a request that
    carries the header x-admin-api-key is given the session and all its
    messages (every row of the session, oldest first, without limit),
    whatever the value of the header: the key is not compared.  Without the
    header the request is served only when the session's visitor id is the
    request's address ([req.ip], or the empty string when there is none),
    and is answered 403 FORBIDDEN otherwise.  The world is not changed. *)
Theorem reading_a_session (req : Request) (env : HttpEnv) (w : World)
    (session : ChatSession) :
  isUuid (req_sessionId req) = true ->
  h_dbFails env GetFindSession = false ->
  h_dbFails env GetFindMessages = false ->
  chatSession w !! req_sessionId req = Some session ->
  let sid := req_sessionId req in
  let history := findManyMessages sid None (chatMessage w) in
  let served := (Done (mkResponse 200 [] (SessionMessages session history)), w) in
  history ≡ₚ filter (fun m => cm_sessionId m = sid) (chatMessage w) /\
  ascending history /\
  (forall key, req_adminKey req = Some key -> getMessages req env w = served) /\
  (req_adminKey req = None -> visitorId session = default "" (req_ip req) ->
   getMessages req env w = served) /\
  (req_adminKey req = None -> visitorId session <> default "" (req_ip req) ->
   getMessages req env w =
     (Done (mkResponse 403 []
              (ErrorBody "FORBIDDEN" "You can only view your own chat sessions")), w)).
Proof.
  intros Huuid Hfind Hmany Hsession sid history served.
  split; [apply orderByCreatedAtAsc_perm|]. split; [apply orderByCreatedAtAsc_ascending|].
  assert (Hvisitor : (if truthy (req_ip req) then default "" (req_ip req) else "")
                     = default "" (req_ip req)).
  { destruct (req_ip req) as [a|]; [|done]. cbn. by destruct (String.eqb_spec a ""). }
  assert (Hrun : getMessages req env w =
            if negb (bool_decide (req_adminKey req <> None))
               && negb (bool_decide (visitorId session = default "" (req_ip req)))
            then (Done (mkResponse 403 []
                          (ErrorBody "FORBIDDEN" "You can only view your own chat sessions")), w)
            else served).
  { unfold getMessages, validateParams. rewrite Huuid. cbv zeta.
    rewrite bind_run, findSession_run, Hfind, Hsession, Hvisitor.
    destruct (_ && _); [done|].
    by rewrite bind_run, findMessages_run, Hmany. }
  rewrite Hrun. split; [|split].
  - intros key Hkey. by rewrite Hkey, bool_decide_eq_true_2.
  - intros Hnone Hsame. by rewrite Hnone, (bool_decide_eq_true_2 (_ = _)).
  - intros Hnone Hdiff. rewrite Hnone, bool_decide_eq_false_2 by auto.
    by rewrite (bool_decide_eq_false_2 (_ = _)).
Qed.

Lemma requireAdmin_passes (req : Request) (next : M Response) :
  req_adminKey req = Some ADMIN_API_KEY -> ADMIN_API_KEY <> "" ->
  requireAdmin req next = next.
Proof.
  intros Hkey Hne. unfold requireAdmin.
  by rewrite Hkey, (truthy_Some _ Hne), bool_decide_eq_true_2.
Qed.

Lemma requireAdmin_refuses (req : Request) (next : M Response) :
  req_adminKey req <> Some ADMIN_API_KEY \/ req_adminKey req = Some "" ->
  requireAdmin req next =
  ret (mkResponse 401 [] (ErrorBody "UNAUTHORIZED" "Invalid or missing admin API key")).
Proof.
  intros Hkey. unfold requireAdmin.
  replace (negb (truthy (req_adminKey req))
           || negb (bool_decide (req_adminKey req = Some ADMIN_API_KEY))) with true; [done|].
  symmetry. apply orb_true_iff. destruct Hkey as [Hkey | ->].
  - right. by rewrite bool_decide_eq_false_2.
  - by left.
Qed.

(** X28: closing a session over HTTP.  POST
    /chat/sessions/:sessionId/close with the configured key, on a session
    that exists, answers 200 and sets the status to CLOSED, whatever it was
    (closing twice is closing once); it sends nothing, so the members
    connected over the WebSocket stay bound and are not told.  From then on
    a message a member sends that reaches the session check is answered
    SESSION_CLOSED and is not stored, and POST /chat/messages for the
    session answers 400 SESSION_CLOSED. *)
Theorem closing_refuses_later_messages (req : Request) (env : HttpEnv) (w : World)
    (session : ChatSession) :
  req_adminKey req = Some ADMIN_API_KEY -> ADMIN_API_KEY <> "" ->
  isUuid (req_sessionId req) = true ->
  h_dbFails env CloseFindSession = false ->
  h_dbFails env CloseUpdateSession = false ->
  chatSession w !! req_sessionId req = Some session ->
  let sid := req_sessionId req in
  let w1 := set_chatSession (<[sid := closed (h_closedUpdatedAt env) session]>) w in
  closeSession req env w = (Done (mkResponse 200 [] NoData), w1) /\
  status <$> chatSession w1 !! sid = Some CLOSED /\
  status <$> chatSession (exec (closeSession req env) w1) !! sid = Some CLOSED /\
  (forall ws state message wenv text,
     clients w1 !! ws = Some state ->
     sessionId state = Some sid -> sid <> "" ->
     hasType "SEND_MESSAGE" message ->
     WsSendMessageSchema_safeParse (payloadOf message) = Some text ->
     e_redisFails wenv = false ->
     attemptsInWindow (redis w1) ("ws-message:" +:+ ip state) (e_now wenv) 60 < 30 ->
     e_dbFails wenv SendFindSession = false ->
     let w2 := exec (onMessage ws (Some message) wenv) w1 in
     chatMessage w2 = chatMessage w /\
     newEvents w1 w2 =
       if isOpen w ws
       then [EvSend ws (ERROR "SESSION_CLOSED" "This session has been closed")]
       else []) /\
  (forall text henv headers,
     h_dbFails henv PostFindSession = false ->
     postMessageHandler sid text henv headers w1 =
       (Done (mkResponse 400 headers
                (ErrorBody "SESSION_CLOSED" "This chat session has been closed")), w1)).
Proof.
  intros Hkey Hne Huuid Hfind Hupdate Hsession sid w1.
  assert (Hclose : forall wx s,
            chatSession wx !! sid = Some s ->
            closeSession req env wx =
              (Done (mkResponse 200 [] NoData),
               set_chatSession (<[sid := closed (h_closedUpdatedAt env) s]>) wx)).
  { intros wx s Hs. unfold closeSession. rewrite (requireAdmin_passes _ _ Hkey Hne).
    unfold validateParams. rewrite Huuid. fold sid.
    rewrite bind_run, findSession_run, Hfind, Hs.
    by rewrite bind_run, changeSession_run, Hupdate, Hs. }
  assert (Hlook : chatSession w1 !! sid = Some (closed (h_closedUpdatedAt env) session)).
  { subst w1. cbn [chatSession set_chatSession]. by rewrite lookup_insert_eq. }
  split; [by apply Hclose|]. split; [by rewrite Hlook|]. split.
  { unfold exec. rewrite (Hclose w1 _ Hlook).
    cbn [snd chatSession set_chatSession]. by rewrite lookup_insert_eq. }
  split.
  - intros ws state message wenv text Hst Hsid Hsne Hty Hparse Hredis Hcount Hdb w2.
    subst w2. unfold exec.
    rewrite (send_closed_run w1 ws state sid text _ message wenv
               Hst Hsid Hsne Hty Hparse Hredis Hcount Hdb Hlook eq_refl).
    rewrite sendError_run. cbn [snd].
    change (isOpen (attemptRecorded state wenv w1) ws) with (isOpen w ws).
    destruct (isOpen w ws); split; try done; new_events; by rewrite ?drop_all.
  - intros text henv headers Hdb. unfold postMessageHandler.
    rewrite tryCatch_run, bind_run, findSession_run, Hdb, Hlook.
    by rewrite bool_decide_eq_false_2.
Qed.

(** X29: an admin reply over HTTP.  POST /chat/sessions/:sessionId/reply
    without the configured key, or with an empty one, is answered 401 and
    changes nothing.  With the key, a valid content and an existing session
    it stores the content as an ASSISTANT row prefixed [Marin]: and sets the
    session's [updatedAt], also when the session is CLOSED, whose status it
    leaves alone; the row is sent to no socket and the rate limiter is not
    consulted. *)
Theorem replying_over_http (req : Request) (env : HttpEnv) (w : World) :
  (req_adminKey req <> Some ADMIN_API_KEY \/ req_adminKey req = Some "" ->
   replyToSession req env w =
     (Done (mkResponse 401 []
              (ErrorBody "UNAUTHORIZED" "Invalid or missing admin API key")), w)) /\
  (forall session text,
     req_adminKey req = Some ADMIN_API_KEY -> ADMIN_API_KEY <> "" ->
     isUuid (req_sessionId req) = true ->
     WsSendMessageSchema_safeParse (req_body req) = Some text ->
     (forall c, h_dbFails env c = false) ->
     chatSession w !! req_sessionId req = Some session ->
     let sid := req_sessionId req in
     let row := mkChatMessage (h_messageId env) sid ASSISTANT ("[Marin]: " +:+ text)
                              (h_messageCreatedAt env) in
     let r := replyToSession req env w in
     r.1 = Done (mkResponse 200 [] (Replied row)) /\
     chatMessage r.2 = chatMessage w ++ [row] /\
     chatSession r.2 = <[sid := withUpdatedAt (h_updatedAt env) session]> (chatSession w) /\
     status <$> chatSession r.2 !! sid = Some (status session) /\
     trace r.2 = trace w /\ redis r.2 = redis w /\ sameRegistry w r.2).
Proof.
  split.
  - intros Hkey. unfold replyToSession. by rewrite (requireAdmin_refuses _ _ Hkey).
  - intros session text Hkey Hne Huuid Hbody Hdb Hsession sid row r. subst r.
    unfold replyToSession. rewrite (requireAdmin_passes _ _ Hkey Hne).
    unfold validateParams, validateBody. rewrite Huuid, Hbody. subst sid.
    rewrite bind_run, findSession_run, Hdb, Hsession.
    rewrite bind_run, insertMessage_run, Hdb.
    rewrite bind_run, changeSession_run, Hdb. fold row.
    cbn [chatSession set_chatMessage]. rewrite Hsession. cbn [ret fst snd].
    cbn [chatMessage chatSession trace redis set_chatSession set_chatMessage].
    rewrite lookup_insert_eq. by repeat split.
Qed.

End AdminRoutes.

Section Start.

Context {cfg : Config}.

Lemma findManyMessages_first (sid : string) (table : list ChatMessage) (row : ChatMessage) :
  Forall (fun m => cm_sessionId m <> sid) table ->
  cm_sessionId row = sid ->
  findManyMessages sid None (table ++ [row]) = [row].
Proof.
  intros Hnone Hrow. unfold findManyMessages.
  rewrite filter_app, filter_cons_True, filter_nil by done.
  replace (filter (fun m => cm_sessionId m = sid) table) with (@nil ChatMessage); [done|].
  symmetry. induction Hnone as [|m rest Hm Hrest IH]; [done|].
  by rewrite filter_cons_False.
Qed.

(** X30: starting a session and joining it.  POST /chat/sessions that
    the limiter lets through, with a valid body and a session id not yet
    taken, stores an ACTIVE session whose visitor id is the request's
    address, or a fresh uuid when the request has none, and then the welcome
    message; it answers 200 with the session.  A connection that then joins
    the session over the WebSocket receives the session and a history that
    is the welcome message alone.  The two writes are not one transaction:
    when the write of the welcome message fails, the answer is 500
    SESSION_START_FAILED and the session stays stored, without a
    message. *)
Theorem started_session_can_be_joined (req : Request) (env : HttpEnv) (w : World)
    (name : option string) :
  h_redisFails env = true \/ requestAttempts w startLimit req env < 5 ->
  StartChatSessionSchema_safeParse (req_body req) = Some name ->
  h_dbFails env StartCreateSession = false ->
  chatSession w !! h_sessionId env = None ->
  Forall (fun m => cm_sessionId m <> h_sessionId env) (chatMessage w) ->
  let r := startSession req env w in
  let session :=
    mkChatSession (h_sessionId env)
                  (if truthy (req_ip req) then default "" (req_ip req) else h_uuid env)
                  name ACTIVE (h_sessionCreatedAt env) (h_sessionUpdatedAt env) in
  let welcome :=
    mkChatMessage (h_messageId env) (h_sessionId env) ASSISTANT welcomeText
                  (h_messageCreatedAt env) in
  chatSession r.2 = <[h_sessionId env := session]> (chatSession w) /\
  (h_dbFails env StartCreateMessage = true ->
   chatMessage r.2 = chatMessage w /\
   exists headers,
     r.1 = Done (mkResponse 500 headers
                   (ErrorBody "SESSION_START_FAILED" "Failed to start chat session"))) /\
  (h_dbFails env StartCreateMessage = false ->
   chatMessage r.2 = chatMessage w ++ [welcome] /\
   (exists headers, r.1 = Done (mkResponse 200 headers (SessionStarted session))) /\
   forall ws state message wenv data,
     clients r.2 !! ws = Some state ->
     hasType "JOIN_SESSION" message ->
     WsJoinSessionSchema_safeParse (payloadOf message) = Some data ->
     j_sessionId data = h_sessionId env ->
     adminClaimOk data ->
     e_dbFails wenv JoinFindSession = false ->
     e_dbFails wenv JoinFindMessages = false ->
     newEvents r.2 (exec (onMessage ws (Some message) wenv) r.2)
       = [EvSend ws (SESSION_JOINED session [welcome])]).
Proof.
  intros Hlimit Hbody Hcreate Hfree Hrows r session welcome.
  assert (Hrun : exists headers w0,
            chatSession w0 = chatSession w /\ chatMessage w0 = chatMessage w /\
            r = tryCatch
                  (let* created := insertSession (h_dbFails env StartCreateSession) session in
                   insertMessage (h_dbFails env StartCreateMessage)
                     (mkChatMessage (h_messageId env) (cs_id created) ASSISTANT welcomeText
                                    (h_messageCreatedAt env)) >>
                   ret (mkResponse 200 headers (SessionStarted created)))
                  (ret (mkResponse 500 headers
                          (ErrorBody "SESSION_START_FAILED" "Failed to start chat session")))
                  w0).
  { subst r. unfold startSession. fold startLimit. rewrite rateLimit_run.
    destruct (h_redisFails env) eqn:Hredis.
    - exists [], w. unfold validateBody. by rewrite Hbody.
    - destruct Hlimit as [|Hunder]; [done|]. cbv zeta.
      apply Z.ltb_lt in Hunder as Hlt.
      change (rl_limit startLimit) with 5. rewrite Hlt.
      eexists _, (requestRecorded startLimit req env w).
      destruct (requestRecorded_rest startLimit req env w) as (_ & _ & Hcm & Hcs & _).
      split; [done|]. split; [done|]. unfold validateBody. by rewrite Hbody. }
  destruct Hrun as (headers & w0 & Hcs & Hcm & Hr).
  rewrite Hr, tryCatch_run, bind_run, insertSession_run, Hcreate.
  change (cs_id session) with (h_sessionId env). rewrite Hcs, Hfree.
  rewrite bind_run, insertMessage_run. fold welcome.
  destruct (h_dbFails env StartCreateMessage) eqn:Hwelcome.
  - cbn [ret fst snd chatSession chatMessage set_chatSession]. rewrite Hcs, Hcm.
    split; [done|]. split; [|done]. intros _. split; [done|]. by exists headers.
  - cbn [ret fst snd chatSession chatMessage set_chatSession set_chatMessage].
    rewrite Hcs, Hcm. split; [done|]. split; [done|]. intros _.
    split; [done|]. split; [by exists headers|].
    intros ws state message wenv data Hst Hty Hparse Hsid Hadmin Hfind Hmany.
    set (w1 := set_chatMessage _ _) in *. unfold exec.
    rewrite (onMessage_join_verified w1 ws state message wenv data Hst Hty Hparse Hadmin).
    rewrite tryCatch_run, joinVerified_run, Hfind, Hsid.
    assert (Hmarked : chatSession (adminMarked ws data w1) = chatSession w1 /\
                      chatMessage (adminMarked ws data w1) = chatMessage w1 /\
                      trace (adminMarked ws data w1) = trace w1).
    { unfold adminMarked. by destruct (default false (j_isAdmin data)). }
    destruct Hmarked as (Hmcs & Hmcm & Hmt). rewrite Hmcs.
    assert (Hlook : chatSession w1 !! h_sessionId env = Some session).
    { subst w1. cbn [chatSession set_chatSession set_chatMessage]. by rewrite lookup_insert_eq. }
    rewrite Hlook, Hmany. cbv zeta. cbn [snd]. apply newEvents_app.
    unfold afterJoin.
    destruct (afterLeave_rest ws (sessionId state) (adminMarked ws data w1))
      as (_ & _ & _ & Ht & _).
    cbn [trace set_trace set_sessionClients set_clients]. rewrite Ht, Hmt, Hmcm.
    do 4 f_equal. subst w1. cbn [chatMessage set_chatMessage set_chatSession].
    rewrite Hcm. by apply findManyMessages_first.
Qed.

End Start.

(** * The theorems on the sample deployment *)

Import Sample.
#[local] Existing Instance Sample.config.

Lemma hasType_envelope (type : string) (payload : list (string * Json)) :
  hasType type (envelope type payload).
Proof. eexists. split; [reflexivity|]. cbn. by rewrite decide_True. Qed.

(** C1: with twenty earlier messages in the session, the history handed to
    the generator for the visitor's "hello" is the system prompt and those
    twenty; the message that was just written is not in it. *)
Theorem history_window_keeps_oldest :
  let w' := exec (onMessage 0%nat (Some (say "hello")) (calm 5000)) crowded in
  mkChatMessage "sent-5000" lobby USER "hello" 5000 ∈ chatMessage w' /\
  filter (fun ev => isFetch ev = true) (newEvents crowded w') =
    [EvFetch (mkAIChatMessage ai_system SYSTEM_PROMPT
              :: map (fun m => mkAIChatMessage ai_user (content m)) earlier)] /\
  mkAIChatMessage ai_user "hello"
    ∉ map (fun m => mkAIChatMessage ai_user (content m)) earlier.
Proof.
  cbv zeta. split; [|split].
  - apply (bool_decide_unpack _). by vm_compute.
  - by vm_compute.
  - apply (bool_decide_unpack _). by vm_compute.
Qed.

(** C5: with Redis down, the visitor's valid message is not treated as
    allowed: nothing is persisted or broadcast and the sender is answered
    INVALID_MESSAGE. *)
Theorem limiter_outage_rejects_send :
  let w' := exec (onMessage 0%nat (Some (say "hello")) (redisDown 5000)) joined in
  chatMessage w' = chatMessage joined /\
  newEvents joined w' =
    [EvSend 0%nat (ERROR "INVALID_MESSAGE" "Failed to process message")].
Proof.
  apply (limiter_failure_is_invalid_message joined 0%nat
           (mkClientState (Some lobby) false "203.0.113.7") (say "hello") (redisDown 5000)
           lobby "hello");
    [by vm_compute | apply hasType_envelope | done | done | done | done].
Qed.

(** C2, counterexample: an admin join with the right key to a session the
    directory does not hold is answered SESSION_NOT_FOUND and still turns
    the admin flag of the connection on. *)
Lemma join_missing_session_sets_admin :
  let w' := exec (onMessage 0%nat (Some (joinAsAdmin attic)) (calm 5000)) unbound in
  chatSession unbound !! attic = None /\
  newEvents unbound w' =
    [EvSend 0%nat (ERROR "SESSION_NOT_FOUND" "Chat session not found")] /\
  isAdmin <$> clients unbound !! 0%nat = Some false /\
  isAdmin <$> clients w' !! 0%nat = Some true.
Proof. by vm_compute. Qed.

Lemma join_missing_session_witness :
  let w' := exec (onMessage 0%nat (Some (joinAsAdmin attic)) (calm 5000)) unbound in
  newEvents unbound w' =
    (if isOpen unbound 0%nat
     then [EvSend 0%nat (ERROR "SESSION_NOT_FOUND" "Chat session not found")]
     else []) /\
  sessionClients w' = sessionClients unbound /\
  clients w' !! 0%nat = Some (mkClientState None true "203.0.113.7").
Proof.
  destruct (join_missing_session unbound 0%nat stranger (joinAsAdmin attic) (calm 5000)
              (mkWsJoinSessionData attic (Some true)
                 (Some "0123456789abcdef0123456789abcdef")))
    as (H1 & H2 & H3 & _).
  - by vm_compute.
  - eexists. split; reflexivity.
  - reflexivity.
  - intros _. split; reflexivity.
  - reflexivity.
  - by vm_compute.
  - split; [exact H1 | split; [exact H2 | exact H3]].
Defined.


Lemma sliding_window_limit_witness :
  let wk := run joined (sendOp <$> take 30 burst) in
  let wk' := step wk (sendOp (mkSend 0 (say "hello") (calm 32000))) in
  chatMessage wk' = chatMessage wk /\
  newEvents wk wk' =
    if isOpen wk 0%nat
    then [EvSend 0%nat (ERROR "RATE_LIMITED" "Too many messages. Please slow down.")]
    else [].
Proof.
  destruct (sliding_window_limit "ws-message:203.0.113.7" 30 60 2000 "0.5" joined
              "203.0.113.7" joined burst 30 (mkSend 0 (say "hello") (calm 32000)))
    as (_ & state & sid & text & _ & _ & _ & _ & _ & Hlimited).
  - apply Forall_fmap, Forall_forall. intros i _.
    exists visitor, lobby, "hello".
    split; [by vm_compute|]. split; [reflexivity|]. split; [reflexivity|].
    split; [done|]. split; [eexists; split; reflexivity|].
    split; reflexivity.
  - by vm_compute.
  - apply (bool_decide_unpack _). by vm_compute.
  - apply (bool_decide_unpack _). by vm_compute.
  - reflexivity.
  - apply Hlimited. lia.
Defined.

Lemma persistence_failure_is_invalid_message_witness :
  let w' := exec (onMessage 0%nat (Some (say "hello")) (createFails 5000)) joined in
  chatMessage w' = chatMessage joined /\
  newEvents joined w' =
    if isOpen joined 0%nat
    then [EvSend 0%nat (ERROR "INVALID_MESSAGE" "Failed to process message")]
    else [].
Proof.
  apply (persistence_failure_is_invalid_message joined 0%nat visitor (say "hello")
           (createFails 5000) lobby "hello").
  - by vm_compute.
  - eexists. split; reflexivity.
  - constructor; first [by vm_compute | done].
  - reflexivity.
Defined.

(** C6, counterexample: when the write of the sender's row is rejected, the
    one envelope the sender gets carries INVALID_MESSAGE; none carries
    INTERNAL_ERROR. *)
Lemma persistence_failure_not_internal_error :
  let w' := exec (onMessage 0%nat (Some (say "hello")) (createFails 5000)) joined in
  e_dbFails (createFails 5000) SendCreateMessage = true /\
  newEvents joined w' =
    [EvSend 0%nat (ERROR "INVALID_MESSAGE" "Failed to process message")] /\
  ~ Exists (fun ev => isErrorWithCode "INTERNAL_ERROR" ev = true) (newEvents joined w').
Proof.
  cbv zeta. split; [reflexivity|]. split; [by vm_compute|].
  intros H. apply Exists_exists in H as (ev & Hin & Hcode).
  revert Hin Hcode. vm_compute. intros Hin.
  apply list_elem_of_singleton in Hin as ->. discriminate.
Qed.


Lemma admin_send_is_attributed_witness :
  let w' := exec (onMessage 0%nat (Some (say "hey")) (calm 5000)) joinedAsAdmin in
  Forall quiet (newEvents joinedAsAdmin w') /\
  chatMessage w' =
    chatMessage joinedAsAdmin ++
    [mkChatMessage (e_messageId (calm 5000)) lobby ASSISTANT ("[Marin]: " +:+ "hey")
                   (e_messageCreatedAt (calm 5000))].
Proof.
  destruct (admin_send_is_attributed joinedAsAdmin 0%nat marin (say "hey") (calm 5000))
    as (H1 & _ & H3).
  - by vm_compute.
  - reflexivity.
  - eexists. split; reflexivity.
  - split; [exact H1|].
    destruct (H3 lobby "hey") as [Hrow _].
    + constructor; first [by vm_compute | done].
    + reflexivity.
    + exact Hrow.
Defined.

Lemma send_to_vanished_session_witness :
  let w' := exec (onMessage 0%nat (Some (say "hello")) (calm 5000)) orphaned in
  chatMessage w' = chatMessage orphaned /\
  newEvents orphaned w' =
    [EvSend 0%nat (ERROR "SESSION_CLOSED" "This session has been closed")].
Proof.
  destruct (send_to_vanished_session orphaned 0%nat visitor lobby (say "hello") (calm 5000))
    as (H1 & _ & H3).
  - by vm_compute.
  - reflexivity.
  - done.
  - by vm_compute.
  - eexists. split; reflexivity.
  - split; [exact H1|]. apply H3.
    + by vm_compute.
    + reflexivity.
    + by vm_compute.
    + reflexivity.
    + by vm_compute.
Defined.

Lemma typing_while_unbound_is_silent_witness :
  onMessage 0%nat (Some typing) (calm 5000) unbound = (Done tt, unbound).
Proof.
  apply (typing_while_unbound_is_silent unbound 0%nat stranger typing (calm 5000)
           "TYPING_START").
  - by vm_compute.
  - reflexivity.
  - eexists. split; reflexivity.
  - by left.
Defined.

(** * The further properties on the sample deployment *)

Import SampleHttp Scenes.

Lemma registryOk_joined : registryOk joined.
Proof.
  apply (registryOk_run (cfg := config) eq_refl joinedOps initialWorld).
  apply registryOk_initial.
Qed.

Lemma send_while_unbound_witness :
  let w' := exec (onMessage 0%nat (Some (say "hello")) (calm 5000)) unbound in
  sameRegistry unbound w' /\ redis w' = redis unbound /\
  chatMessage w' = chatMessage unbound /\ chatSession w' = chatSession unbound /\
  newEvents unbound w' =
    if isOpen unbound 0%nat
    then [EvSend 0%nat (ERROR "NOT_IN_SESSION" "You must join a session first")]
    else [].
Proof.
  apply (send_while_unbound unbound 0%nat stranger (say "hello") (calm 5000)).
  - by vm_compute.
  - reflexivity.
  - apply hasType_envelope.
Defined.

Lemma send_content_out_of_bounds_witness :
  WsSendMessageSchema_safeParse (Some (JObj [("content", JStr accented)])) = Some accented /\
  String.length accented = 4002%nat /\
  let w' := exec (onMessage 0%nat (Some (say tooLong)) (calm 5000)) joined in
  redis w' = redis joined /\ chatMessage w' = chatMessage joined /\
  newEvents joined w' =
    if isOpen joined 0%nat
    then [EvSend 0%nat (ERROR "VALIDATION_ERROR" "Invalid message payload")]
    else [].
Proof.
  split; [|split; [by vm_compute|]].
  - destruct (send_content_out_of_bounds joined 0%nat visitor lobby
                [("type", JStr "SEND_MESSAGE"); ("payload", JObj [("content", JStr accented)])]
                [("content", JStr accented)] accented (calm 5000)) as [H _].
    + by vm_compute.
    + reflexivity.
    + done.
    + reflexivity.
    + reflexivity.
    + reflexivity.
    + apply H. assert (Hlen : utf16Length accented = 2001%nat) by (by vm_compute).
      rewrite Hlen. lia.
  - destruct (send_content_out_of_bounds joined 0%nat visitor lobby
                [("type", JStr "SEND_MESSAGE"); ("payload", JObj [("content", JStr tooLong)])]
                [("content", JStr tooLong)] tooLong (calm 5000)) as [_ H].
    + by vm_compute.
    + reflexivity.
    + done.
    + reflexivity.
    + reflexivity.
    + reflexivity.
    + destruct H as (_ & H2 & H3 & _ & H5).
      * right. assert (Hlen : utf16Length tooLong = 4001%nat) by (by vm_compute).
        rewrite Hlen. lia.
      * split; [exact H2|]. split; [exact H3 | exact H5].
Defined.

Lemma send_to_closed_session_witness :
  let w' := exec (onMessage 0%nat (Some (say "hello")) (calm 5000)) closedLobby in
  chatMessage w' = chatMessage closedLobby /\
  newEvents closedLobby w' =
    if isOpen closedLobby 0%nat
    then [EvSend 0%nat (ERROR "SESSION_CLOSED" "This session has been closed")]
    else [].
Proof.
  destruct (send_to_closed_session closedLobby 0%nat visitor lobby "hello"
              (closed (fun _ => 1503) lobbySession) (say "hello") (calm 5000))
    as (H1 & _ & H3 & _).
  - by vm_compute.
  - reflexivity.
  - done.
  - apply hasType_envelope.
  - reflexivity.
  - reflexivity.
  - by vm_compute.
  - reflexivity.
  - by vm_compute.
  - reflexivity.
  - split; [exact H1 | exact H3].
Defined.

Lemma typing_is_relayed_to_the_others_witness :
  onMessage 0%nat (Some typing) (calm 5000) pair =
    (Done tt,
     set_trace (fun tr => tr ++ [EvBroadcast lobby (TYPING_START false) (Some 0%nat);
                                 EvSend 1%nat (TYPING_START false)])
               pair).
Proof.
  destruct (typing_is_relayed_to_the_others pair 0%nat visitor lobby typing (calm 5000)
              "TYPING_START") as [H _].
  - by vm_compute.
  - reflexivity.
  - done.
  - apply hasType_envelope.
  - by left.
  - exact H.
Defined.

Lemma join_with_wrong_admin_key_witness :
  let w' := exec (onMessage 0%nat (Some (joinWithKey lobby "let me in")) (calm 5000)) unbound in
  sameRegistry unbound w' /\
  newEvents unbound w' =
    if isOpen unbound 0%nat
    then [EvSend 0%nat (ERROR "UNAUTHORIZED" "Invalid admin key")]
    else [].
Proof.
  destruct (join_with_wrong_admin_key unbound 0%nat stranger (joinWithKey lobby "let me in")
              (calm 5000) (mkWsJoinSessionData lobby (Some true) (Some "let me in")))
    as (H1 & _ & _ & _ & H5).
  - by vm_compute.
  - apply hasType_envelope.
  - reflexivity.
  - reflexivity.
  - by left.
  - split; [exact H1 | exact H5].
Defined.


Lemma admin_flag_needs_the_key_witness :
  let w' := exec (onMessage 0%nat (Some (joinAsAdmin lobby)) (calm 5000)) unbound in
  exists state',
    clients w' !! 0%nat = Some state' /\ ip state' = "203.0.113.7" /\
    (isAdmin state' = true -> presentsAdminKey (Some (joinAsAdmin lobby))).
Proof.
  destruct (admin_flag_needs_the_key unbound 0%nat stranger (Some (joinAsAdmin lobby))
              (calm 5000)) as (_ & state' & H1 & H2 & _ & H4).
  - by vm_compute.
  - exists state'. split; [exact H1|]. split; [exact H2|]. by apply H4.
Defined.


Lemma leave_unbinds_silently_witness :
  let w' := exec (onMessage 0%nat (Some leave) (calm 5000)) joined in
  clients w' !! 0%nat = Some (unbind visitor) /\
  (forall sid members, sessionClients w' !! sid = Some members -> 0%nat ∉ members) /\
  trace w' = trace joined /\
  exec (onMessage 0%nat (Some leave) (calm 5000)) w' = w'.
Proof.
  destruct (leave_unbinds_silently joined 0%nat visitor leave (calm 5000))
    as (H1 & _ & _ & H4 & H5 & _ & _ & _ & H9).
  - exact registryOk_joined.
  - by vm_compute.
  - apply hasType_envelope.
  - split; [exact H1|]. split; [exact H4|]. split; [exact H5 | exact H9].
Defined.


Lemma join_sends_whole_history_witness :
  let w' := exec (onMessage 0%nat (Some (join lobby)) (calm 5000)) unbound in
  exists history,
    newEvents unbound w' = [EvSend 0%nat (SESSION_JOINED lobbySession history)] /\
    history ≡ₚ filter (fun m => cm_sessionId m = lobby) (chatMessage unbound) /\
    ascending history.
Proof.
  destruct (join_sends_whole_history unbound 0%nat stranger (join lobby) (calm 5000)
              (mkWsJoinSessionData lobby None None) lobbySession)
    as (history & H1 & H2 & H3 & _).
  - by vm_compute.
  - apply hasType_envelope.
  - reflexivity.
  - intros H. discriminate H.
  - reflexivity.
  - reflexivity.
  - by vm_compute.
  - exists history. split; [exact H1|]. split; [exact H2 | exact H3].
Defined.



Lemma server_only_appends_messages_witness :
  let w' := step joined (Message 0%nat (Some (say "hello")) (calm 5000)) in
  (exists rows, chatMessage w' = chatMessage joined ++ rows) /\
  (forall sid, status <$> chatSession w' !! sid = status <$> chatSession joined !! sid).
Proof.
  destruct (server_only_appends_messages (cfg := config) joined
              (Message 0%nat (Some (say "hello")) (calm 5000))) as (H1 & _ & H3).
  - reflexivity.
  - split; [exact H1 | exact H3].
Defined.

Lemma every_attempt_is_counted_witness :
  let r := checkRateLimit "ws-message:203.0.113.7" 30 60 5000 "0.5" false afterHello in
  exists result,
    r.1 = Done result /\ remaining result = 28 /\
    attemptsInWindow (redis r.2) "ws-message:203.0.113.7" 5000 60 = 2.
Proof.
  destruct (every_attempt_is_counted "ws-message:203.0.113.7" 30 60 5000 "0.5" afterHello)
    as (result & H1 & H2 & _ & _ & H5 & _ & H7).
  - lia.
  - by vm_compute.
  - exists result. split; [exact H1|]. split.
    + rewrite H5; [by vm_compute|]. apply H2. by vm_compute.
    + rewrite H7. by vm_compute.
Defined.

Lemma quiet_window_resets_the_count_witness :
  let r := checkRateLimit "ws-message:203.0.113.7" 30 60 62000 "0.5" false afterHello in
  attemptsInWindow (redis afterHello) "ws-message:203.0.113.7" 62000 60 = 0 /\
  zsetOf (redis r.2) "ratelimit:ws-message:203.0.113.7" = {[ (62000, "0.5") := 62000 ]}.
Proof.
  destruct (quiet_window_resets_the_count "ws-message:203.0.113.7" 30 60 62000 "0.5" afterHello)
    as (H1 & _ & H3 & _).
  - intros m score. 
    change (zsetOf (redis afterHello) ("ratelimit:" +:+ "ws-message:203.0.113.7"))
      with ({[ (2000, "0.5") := 2000 ]} : gmap Member Z).
    intros H. apply lookup_singleton_Some in H as [_ <-]. lia.
  - split; [exact H1 | exact H3].
Defined.

Lemma rate_limit_keys_are_separate_witness :
  let w' := (checkRateLimit "chat-message:203.0.113.7" 30 60 5000 "0.5" false afterHello).2 in
  zsetOf (redis w') "ratelimit:ws-message:203.0.113.7"
    = zsetOf (redis afterHello) "ratelimit:ws-message:203.0.113.7".
Proof.
  destruct (rate_limit_keys_are_separate "chat-message:203.0.113.7" "ws-message:203.0.113.7"
              30 60 5000 "0.5" false afterHello) as [H _].
  - done.
  - exact H.
Defined.

Lemma expiry_drops_nothing_that_counts_witness :
  let w' := (checkRateLimit "ws-message:203.0.113.7" 30 60 5000 "0.5" false afterHello).2 in
  exists k,
    redis w' !! "ratelimit:ws-message:203.0.113.7" = Some k /\ expireAt k = 65000 /\
    attemptsInWindow (redis w') "ws-message:203.0.113.7" 65000 60 = 0.
Proof.
  destruct (expiry_drops_nothing_that_counts "ws-message:203.0.113.7" 30 60 5000 "0.5"
              afterHello) as (k & H1 & H2 & H3).
  - intros m score.
    change (zsetOf (redis afterHello) ("ratelimit:" +:+ "ws-message:203.0.113.7"))
      with ({[ (2000, "0.5") := 2000 ]} : gmap Member Z).
    intros H. apply lookup_singleton_Some in H as [_ <-]. lia.
  - exists k. split; [exact H1|]. split; [exact H2|].
    destruct (H3 65000) as [Hcount _]; [rewrite H2; lia | exact Hcount].
Defined.

Lemma http_limiter_fails_open_witness :
  rateLimit startLimit (fromVisitor (Some (JObj [])) "") (noRedis 9000)
            (fun headers => ret (mkResponse 200 headers NoData)) fiveStarts
  = (Done (mkResponse 200 [] NoData), fiveStarts).
Proof.
  destruct (http_limiter_fails_open (cfg := config)
              (fromVisitor (Some (JObj [])) "") (noRedis 9000) fiveStarts)
    as [H _].
  - reflexivity.
  - exact (H startLimit (fun headers => ret (mkResponse 200 headers NoData))).
Defined.

Lemma over_the_limit_the_route_is_not_run_witness :
  let r := startSession (fromVisitor (Some (JObj [])) "") (still 9000) fiveStarts in
  r.1 = Done (mkResponse 429
                [("X-RateLimit-Limit", 5); ("X-RateLimit-Remaining", 0);
                 ("X-RateLimit-Reset", 60)]
                (ErrorBody "RATE_LIMIT_EXCEEDED" "Too many requests. Please try again later.")) /\
  chatSession r.2 = chatSession fiveStarts /\ chatMessage r.2 = chatMessage fiveStarts.
Proof.
  destruct (over_the_limit_the_route_is_not_run startLimit
              (fromVisitor (Some (JObj [])) "") (still 9000)
              (fun headers =>
                 validateBody StartChatSessionSchema_safeParse
                   (fromVisitor (Some (JObj [])) "") headers
                   (fun name =>
                      tryCatch
                        (let* session :=
                           insertSession (h_dbFails (still 9000) StartCreateSession)
                             (mkChatSession (h_sessionId (still 9000)) "203.0.113.7" name ACTIVE
                                (h_sessionCreatedAt (still 9000))
                                (h_sessionUpdatedAt (still 9000))) in
                         insertMessage (h_dbFails (still 9000) StartCreateMessage)
                           (mkChatMessage (h_messageId (still 9000)) (cs_id session) ASSISTANT
                              welcomeText (h_messageCreatedAt (still 9000))) >>
                         ret (mkResponse 200 headers (SessionStarted session)))
                        (ret (mkResponse 500 headers
                                (ErrorBody "SESSION_START_FAILED"
                                           "Failed to start chat session")))))
              fiveStarts) as (H1 & _ & _ & H4 & H5 & _).
  - reflexivity.
  - by vm_compute.
  - split; [exact H1|]. split; [exact H5 | exact H4].
Defined.

Lemma invalid_post_is_still_counted_witness :
  let r := postMessage (fromVisitor (Some (post lobby "")) "") (still 5000) joined in
  r.1 = Done (mkResponse 400
                [("X-RateLimit-Limit", 30); ("X-RateLimit-Remaining", 29);
                 ("X-RateLimit-Reset", 60)]
                (ErrorBody "VALIDATION_ERROR" "Invalid request body")) /\
  zsetOf (redis r.2) "ratelimit:chat-message:203.0.113.7" !! (5000, "0.25") = Some 5000.
Proof.
  destruct (invalid_post_is_still_counted (cfg := config)
              (fromVisitor (Some (post lobby "")) "") (still 5000) joined)
    as (H1 & _ & _ & _ & _ & H6).
  - reflexivity.
  - by vm_compute.
  - reflexivity.
  - split; [exact H1 | exact H6].
Defined.

Lemma post_message_outcomes_witness :
  let r := postMessage (fromVisitor (Some (post lobby "hello")) "") (still 5000) joined in
  chatMessage r.2 =
    chatMessage joined ++
    [mkChatMessage "posted-5000" lobby USER "hello" 5000;
     mkChatMessage "answer-5000" lobby ASSISTANT "hello back" 5001] /\
  Forall (fun ev => isFrame ev = false) (newEvents joined r.2).
Proof.
  destruct (post_message_outcomes (cfg := config)
              (fromVisitor (Some (post lobby "hello")) "") (still 5000) joined lobby "hello")
    as (_ & _ & _ & H).
  - reflexivity.
  - by vm_compute.
  - reflexivity.
  - done.
  - destruct (H lobbySession) as (_ & H2 & H3 & _).
    + by vm_compute.
    + reflexivity.
    + split; [exact H2|]. rewrite H3. by repeat constructor.
Defined.

Lemma reading_a_session_witness :
  let req := fromElsewhere (Some "not the key") None lobby in
  (getMessages req (still 5000) joined).1 =
    Done (mkResponse 200 [] (SessionMessages lobbySession [welcome])).
Proof.
  destruct (reading_a_session (cfg := config) (fromElsewhere (Some "not the key") None lobby)
              (still 5000) joined lobbySession) as (_ & _ & H & _).
  - reflexivity.
  - reflexivity.
  - reflexivity.
  - by vm_compute.
  - cbv zeta. by rewrite (H "not the key" eq_refl).
Defined.

Lemma closing_refuses_later_messages_witness :
  (closeSession (fromMarin None lobby) (still 1500) joined).1
    = Done (mkResponse 200 [] NoData) /\
  let w2 := exec (onMessage 0%nat (Some (say "hello")) (calm 5000)) closedLobby in
  chatMessage w2 = chatMessage joined /\
  newEvents closedLobby w2 =
    if isOpen joined 0%nat
    then [EvSend 0%nat (ERROR "SESSION_CLOSED" "This session has been closed")]
    else [].
Proof.
  destruct (closing_refuses_later_messages (cfg := config) (fromMarin None lobby) (still 1500)
              joined lobbySession) as (H1 & _ & _ & H4 & _).
  - reflexivity.
  - done.
  - reflexivity.
  - reflexivity.
  - reflexivity.
  - by vm_compute.
  - split; [by rewrite H1|].
    apply (H4 0%nat visitor (say "hello") (calm 5000) "hello").
    + by vm_compute.
    + reflexivity.
    + done.
    + apply hasType_envelope.
    + reflexivity.
    + reflexivity.
    + by vm_compute.
    + reflexivity.
Defined.

Lemma replying_over_http_witness :
  let req := fromMarin (Some (JObj [("content", JStr "back soon")])) lobby in
  let r := replyToSession req (still 5000) closedLobby in
  chatMessage r.2 =
    chatMessage closedLobby ++
    [mkChatMessage "posted-5000" lobby ASSISTANT "[Marin]: back soon" 5000] /\
  status <$> chatSession r.2 !! lobby = Some CLOSED /\
  trace r.2 = trace closedLobby.
Proof.
  destruct (replying_over_http (cfg := config)
              (fromMarin (Some (JObj [("content", JStr "back soon")])) lobby)
              (still 5000) closedLobby) as [_ H].
  destruct (H (closed (fun _ => 1503) lobbySession) "back soon")
    as (_ & H2 & _ & H4 & H5 & _).
  - reflexivity.
  - done.
  - reflexivity.
  - reflexivity.
  - done.
  - by vm_compute.
  - split; [exact H2|]. split; [exact H4 | exact H5].
Defined.

Lemma started_session_can_be_joined_witness :
  let r := startSession (fromVisitor (Some (JObj [("visitorName", JStr "Ada")])) "")
                        (still 3000) joined in
  let session := mkChatSession attic "203.0.113.7" (Some "Ada") ACTIVE 3000 3000 in
  let first := mkChatMessage "posted-3000" attic ASSISTANT welcomeText 3000 in
  chatSession r.2 = <[attic := session]> (chatSession joined) /\
  newEvents r.2 (exec (onMessage 0%nat (Some (join attic)) (calm 5000)) r.2)
    = [EvSend 0%nat (SESSION_JOINED session [first])].
Proof.
  destruct (started_session_can_be_joined (cfg := config)
              (fromVisitor (Some (JObj [("visitorName", JStr "Ada")])) "")
              (still 3000) joined (Some "Ada")) as (H1 & _ & H3).
  - right. by vm_compute.
  - reflexivity.
  - reflexivity.
  - by vm_compute.
  - apply (bool_decide_unpack _). by vm_compute.
  - split; [exact H1|].
    destruct (H3 eq_refl) as (_ & _ & Hjoin).
    apply (Hjoin 0%nat visitor (join attic) (calm 5000) (mkWsJoinSessionData attic None None)).
    + by vm_compute.
    + apply hasType_envelope.
    + reflexivity.
    + reflexivity.
    + intros H. discriminate H.
    + reflexivity.
    + reflexivity.
Defined.
